(** * NovenUtility backend: document conversion core

    A shallow embedding of the template variable engine
    ([utils/docxProcessor.js]), of the PDF-to-Word conversion cascade
    ([utils/pdfToWordConverter.js]) and of the advanced converter with
    its structural classifier ([utils/advancedPdfToWordConverter.js]),
    together with the properties the specification states about them;
    then the file statistics, the strategies of the advanced cascade
    and the conversion endpoint of [server.js], with further properties
    of the code.

    Text model.  A JavaScript string is modelled as a list of 8-bit
    code units ([list ascii]); the white-space class is [\s] restricted
    to that range.  [String.prototype.toUpperCase] is taken as a
    parameter wherever the code calls it. *)

From Stdlib Require Import Ascii ZArith Lia.
From Stdlib Require String DecimalString.
From stdpp Require Import base list strings gmap.

Open Scope list_scope.

(** ** JavaScript strings *)

Module JsString.

Definition str : Type := list ascii.

(** A string literal of the source. *)
Definition lit (s : string) : str := String.list_ascii_of_string s.

Definition codeOf (c : ascii) : nat := nat_of_ascii c.

(** [\s] and the characters removed by [trim]: TAB, LF, VT, FF, CR,
    SPACE and NBSP. *)
Definition isSpace (c : ascii) : bool :=
  let n := codeOf c in
  (((9 <=? n) && (n <=? 13)) || (n =? 32) || (n =? 160))%nat.

Definition isDigit (c : ascii) : bool :=
  let n := codeOf c in ((48 <=? n) && (n <=? 57))%nat.

Definition isUpperAZ (c : ascii) : bool :=
  let n := codeOf c in ((65 <=? n) && (n <=? 90))%nat.

Definition isLowerAZ (c : ascii) : bool :=
  let n := codeOf c in ((97 <=? n) && (n <=? 122))%nat.

Definition notChar (c x : ascii) : bool := negb (Ascii.eqb x c).

Fixpoint trimStart (s : str) : str :=
  match s with
  | c :: t => if isSpace c then trimStart t else s
  | [] => []
  end.

Definition trimEnd (s : str) : str := rev (trimStart (rev s)).

Definition trim (s : str) : str := trimEnd (trimStart s).

Fixpoint startsWith (p s : str) : bool :=
  match p, s with
  | [], _ => true
  | a :: p', b :: s' => Ascii.eqb a b && startsWith p' s'
  | _ :: _, [] => false
  end.

Definition endsWith (p s : str) : bool := startsWith (rev p) (rev s).

Fixpoint includes (p s : str) : bool :=
  startsWith p s ||
  match s with
  | [] => false
  | _ :: t => includes p t
  end.

Definition str_eqb (a b : str) : bool := bool_decide (a = b).

(** [s.split(c)] for a one-character separator. *)
Fixpoint splitOn (c : ascii) (s : str) : list str :=
  match s with
  | [] => [[]]
  | x :: t =>
      if Ascii.eqb x c then [] :: splitOn c t
      else match splitOn c t with
           | cur :: more => (x :: cur) :: more
           | [] => [[x]]
           end
  end.

(** [lines.join(sep)]. *)
Fixpoint join (sep : str) (l : list str) : str :=
  match l with
  | [] => []
  | [x] => x
  | x :: t => x ++ sep ++ join sep t
  end.

(** [s.replace(p, r)] with a string pattern: the first occurrence only. *)
Fixpoint replaceFirst (p r s : str) : str :=
  if startsWith p s then r ++ drop (length p) s
  else match s with
       | [] => []
       | c :: t => c :: replaceFirst p r t
       end.

End JsString.
Import JsString.

(** ** Regular expressions

    The matcher follows the backtracking semantics of ECMAScript: a
    pattern applied to a state yields the states it can end in, in the
    order backtracking tries them, so the head of that list is the match
    [exec] reports.  The patterns of this code base use at most one
    capturing group, hence a state carries one capture. *)

Module Regex.

Inductive regex : Type :=
| Eps
| Chr (c : ascii)
| Cls (p : ascii -> bool)
| Seq (r1 r2 : regex)
| Alt (r1 r2 : regex)
| Star (r : regex)
| Group (r : regex).

Definition Plus (r : regex) : regex := Seq r (Star r).
Definition Opt (r : regex) : regex := Alt r Eps.

(** captured text of group 1, and the input still to be read *)
Definition mstate : Type := option str * str.

(** Greedy iteration; an iteration that consumes nothing is rejected,
    so the length of the remaining input bounds the iterations. *)
Fixpoint star (step : mstate -> list mstate) (fuel : nat) (st : mstate)
  : list mstate :=
  match fuel with
  | 0 => [st]
  | S n =>
      (step st ≫= fun st' : mstate =>
         if length st'.2 <? length st.2 then star step n st' else [])
      ++ [st]
  end.

Fixpoint rmatch (r : regex) (st : mstate) : list mstate :=
  match r with
  | Eps => [st]
  | Chr c =>
      match st.2 with
      | x :: t => if Ascii.eqb x c then [(st.1, t)] else []
      | [] => []
      end
  | Cls p =>
      match st.2 with
      | x :: t => if p x then [(st.1, t)] else []
      | [] => []
      end
  | Seq r1 r2 => rmatch r1 st ≫= rmatch r2
  | Alt r1 r2 => rmatch r1 st ++ rmatch r2 st
  | Star r1 => star (rmatch r1) (length st.2) st
  | Group r1 =>
      (fun st' : mstate =>
         (Some (take (length st.2 - length st'.2) st.2), st'.2))
        <$> rmatch r1 st
  end.

(** One match attempt at the current position: the capture and the
    text after the match. *)
Definition matchHere (r : regex) (s : str) : option mstate :=
  head (rmatch r (None, s)).

(** A match found by a scan of the subject: the matched text, its
    capture, and the text before and after it. *)
Record hit : Type := Hit {
  matched : str;
  capture : option str;
  before : str;
  after : str
}.

Inductive piece : Type :=
| Plain (c : ascii)
| Found (h : hit).

(** The left-to-right scan behind [exec] loops over a global pattern
    and behind a global [replace]: try a match at every position; after
    a match resume at its end, after an empty match one position on.
    [skip] counts the characters of a match still to be passed. *)
Fixpoint scan (r : regex) (bef : str) (s : str) (skip : nat) : list piece :=
  match s with
  | [] =>
      match skip, matchHere r [] with
      | 0, Some (cap, _) => [Found (Hit [] cap bef [])]
      | _, _ => []
      end
  | c :: t =>
      match skip with
      | S k => scan r (bef ++ [c]) t k
      | 0 =>
          match matchHere r s with
          | Some (cap, rest) =>
              let len := length s - length rest in
              Found (Hit (take len s) cap bef rest)
                :: (if len =? 0 then [Plain c] else [])
                ++ scan r (bef ++ [c]) t (len - 1)
          | None => Plain c :: scan r (bef ++ [c]) t 0
          end
      end
  end.

Definition hits (l : list piece) : list hit :=
  l ≫= fun p => match p with Found h => [h] | Plain _ => [] end.

(** [s.match(r)] for a pattern that starts with [^]: index 0 only. *)
Definition matchAtStart (r : regex) (s : str) : option str :=
  match matchHere r s with
  | Some (_, rest) => Some (take (length s - length rest) s)
  | None => None
  end.

Definition testAtStart (r : regex) (s : str) : bool :=
  bool_decide (is_Some (matchAtStart r s)).

(** [GetSubstitution] for a pattern without capturing groups: [$$],
    [$&], [$`] and [$'] are expanded, every other character (also [$n],
    which names a group that does not exist) is copied. *)
Fixpoint getSubstitution (h : hit) (repl : str) : str :=
  match repl with
  | [] => []
  | c :: t =>
      if Ascii.eqb c "$" then
        match t with
        | d :: t' =>
            if Ascii.eqb d "$" then "$"%char :: getSubstitution h t'
            else if Ascii.eqb d "&" then matched h ++ getSubstitution h t'
            else if Ascii.eqb d "`" then before h ++ getSubstitution h t'
            else if Ascii.eqb d "'" then after h ++ getSubstitution h t'
            else "$"%char :: getSubstitution h t
        | [] => ["$"%char]
        end
      else c :: getSubstitution h t
  end.

(** what a global [replace] puts in the result for a piece of the scan *)
Definition emit (repl : str) (p : piece) : str :=
  match p with
  | Plain c => [c]
  | Found h => getSubstitution h repl
  end.

(** [s.replace(r, repl)] for a global pattern [r]. *)
Definition replaceAll (r : regex) (repl : str) (s : str) : str :=
  scan r [] s 0 ≫= emit repl.

(** [s.replace(r, repl)] for a non-global pattern that starts with
    [^]: at most the match at index 0 is replaced. *)
Definition replaceAtStart (r : regex) (repl : str) (s : str) : str :=
  match matchHere r s with
  | Some (cap, rest) =>
      getSubstitution (Hit (take (length s - length rest) s) cap [] rest) repl
        ++ rest
  | None => s
  end.

(** [s.split(r)] for a pattern without groups.  [cur] holds the
    characters read since the last split point [p]; a match that ends
    at [p] is no split, and no match is tried at the end of [s]. *)
Fixpoint splitGo (r : regex) (s : str) (skip : nat) (cur : str) : list str :=
  match s with
  | [] => [cur]
  | c :: t =>
      match skip with
      | S k => splitGo r t k cur
      | 0 =>
          match matchHere r s with
          | Some (_, rest) =>
              let len := length s - length rest in
              if len =? 0 then
                match cur with
                | [] => splitGo r t 0 [c]
                | _ :: _ => cur :: splitGo r t 0 [c]
                end
              else cur :: splitGo r t (len - 1) []
          | None => splitGo r t 0 (cur ++ [c])
          end
      end
  end.

Definition split (r : regex) (s : str) : list str :=
  match s with
  | [] => match matchHere r [] with Some _ => [] | None => [[]] end
  | _ :: _ => splitGo r s 0 []
  end.

End Regex.
Import Regex.

(** ** Values and results *)

(** The outcome of a call that can throw: [error.message] is kept. *)
Inductive outcome (A : Type) : Type :=
| Returned (a : A)
| Thrown (msg : str).
Arguments Returned {A} a.
Arguments Thrown {A} msg.

(** A safe integer: an integer of magnitude below 2^53.  The Number
    type holds these integers exactly and [ToString] prints them in
    plain decimal digits; larger numbers are rounded and, from 10^21
    on, printed with an exponent. *)
Record SafeInteger : Type := {
  intValue : Z;
  intSafe : (Z.abs intValue <? 2 ^ 53)%Z = true
}.

Definition zero : SafeInteger := {| intValue := 0; intSafe := eq_refl |}.

(** The JavaScript values a caller can put in a ValueMap.  Numbers are
    NaN and the safe integers; other numbers, functions and objects are
    not modelled. *)
Inductive JsValue : Type :=
| JUndefined
| JNull
| JBool (b : bool)
| JNaN
| JNum (n : SafeInteger)
| JStr (s : str).

Definition truthy (v : JsValue) : bool :=
  match v with
  | JUndefined | JNull | JNaN => false
  | JBool b => b
  | JNum n => negb (intValue n =? 0)%Z
  | JStr s => match s with [] => false | _ :: _ => true end
  end.

(** [ToString] *)
Definition toString (v : JsValue) : str :=
  match v with
  | JUndefined => lit "undefined"
  | JNull => lit "null"
  | JBool true => lit "true"
  | JBool false => lit "false"
  | JNaN => lit "NaN"
  | JNum n => lit (DecimalString.NilZero.string_of_int (Z.to_int (intValue n)))
  | JStr s => s
  end.

(** [a || b] *)
Definition jsOr (a b : JsValue) : JsValue := if truthy a then a else b.

(** [v == null] *)
Definition looseEqNull (v : JsValue) : bool :=
  match v with
  | JUndefined | JNull => true
  | _ => false
  end.

(** A plain object used as a dictionary: its own properties in the order
    [Object.keys] and [Object.entries] list them. *)
Definition ValueMap : Type := list (str * JsValue).

Definition keys (m : ValueMap) : list str := m.*1.

(** [m[k]]: [undefined] when [k] is no property. *)
Fixpoint getProp (m : ValueMap) (k : str) : JsValue :=
  match m with
  | [] => JUndefined
  | (k', v) :: m' => if str_eqb k' k then v else getProp m' k
  end.

(** A [Set] of strings, in insertion order. *)
Definition setAdd (x : str) (l : list str) : list str :=
  if bool_decide (x ∈ l) then l else l ++ [x].

(** ** [new RegExp(source)]

    The constructor is modelled on a fragment of the pattern syntax:
    literal characters, the escapes of syntax characters and [\s \d \t
    \n \r], the dot, and the greedy quantifiers [* + ?] on one atom.  A
    source that uses anything else yields [Unmodelled].  The wording of a
    [SyntaxError] is the engine's; a short reason stands for it. *)

Module RegExpSource.

Inductive token : Type :=
| TAtom (r : regex)
| TStar
| TPlus
| TQuest
| TOther
| TDangling.

Inductive compiled : Type :=
| Compiled (r : regex)
| SyntaxError (msg : str)
| Unmodelled.

(** ^ $ \ . * + ? ( ) [ ] { } | *)
Definition isSyntaxChar (c : ascii) : bool :=
  bool_decide (c ∈ lit "^$\.*+?()[]{}|").

Definition isWordChar (c : ascii) : bool :=
  isUpperAZ c || isLowerAZ c || isDigit c || Ascii.eqb c "_".

Definition notLineTerminator (c : ascii) : bool :=
  negb (Ascii.eqb c "010" || Ascii.eqb c "013").

(** the character after a backslash *)
Definition escToken (c : ascii) : token :=
  if Ascii.eqb c "s" then TAtom (Cls isSpace)
  else if Ascii.eqb c "d" then TAtom (Cls isDigit)
  else if Ascii.eqb c "t" then TAtom (Chr "009")
  else if Ascii.eqb c "n" then TAtom (Chr "010")
  else if Ascii.eqb c "r" then TAtom (Chr "013")
  else if isWordChar c then TOther
  else TAtom (Chr c).

(** a character that is not escaped *)
Definition charToken (c : ascii) : token :=
  if Ascii.eqb c "*" then TStar
  else if Ascii.eqb c "+" then TPlus
  else if Ascii.eqb c "?" then TQuest
  else if Ascii.eqb c "." then TAtom (Cls notLineTerminator)
  else if isSyntaxChar c then TOther
  else TAtom (Chr c).

Fixpoint tokenize (esc : bool) (s : str) : list token :=
  match s with
  | [] => if esc then [TDangling] else []
  | c :: t =>
      if esc then escToken c :: tokenize false t
      else if Ascii.eqb c "\" then tokenize true t
      else charToken c :: tokenize false t
  end.

Definition andThen (r : regex) (c : compiled) : compiled :=
  match c with
  | Compiled r' => Compiled (Seq r r')
  | other => other
  end.

Fixpoint parseTerms (ts : list token) : compiled :=
  match ts with
  | [] => Compiled Eps
  | TAtom a :: rest =>
      match rest with
      | TStar :: TQuest :: _ | TPlus :: TQuest :: _ | TQuest :: TQuest :: _ =>
          Unmodelled
      | TStar :: rest' => andThen (Star a) (parseTerms rest')
      | TPlus :: rest' => andThen (Plus a) (parseTerms rest')
      | TQuest :: rest' => andThen (Opt a) (parseTerms rest')
      | _ => andThen a (parseTerms rest)
      end
  | TStar :: _ | TPlus :: _ | TQuest :: _ => SyntaxError (lit "Nothing to repeat")
  | TOther :: _ => Unmodelled
  | TDangling :: _ => SyntaxError (lit "\ at end of pattern")
  end.

Definition isOther (t : token) : bool :=
  match t with TOther => true | _ => false end.

Definition compile (source : str) : compiled :=
  let ts := tokenize false source in
  if existsb isOther ts then Unmodelled else parseTerms ts.

End RegExpSource.
Import RegExpSource.

(** ** utils/docxProcessor.js: the variable engine *)

Module DocxProcessor.

(** [/\{\{\s*([^}]+)\s*\}\}/g] *)
Definition variableRegex : regex :=
  Seq (Chr "{") (Seq (Chr "{") (Seq (Star (Cls isSpace))
    (Seq (Group (Plus (Cls (notChar "}"))))
      (Seq (Star (Cls isSpace)) (Seq (Chr "}") (Chr "}")))))).

(** [/<[^>]+>/g] *)
Definition tagRegex : regex :=
  Seq (Chr "<") (Seq (Plus (Cls (notChar ">"))) (Chr ">")).

(** [match[1]]; group 1 takes part in every match of [variableRegex]. *)
Definition group1 (h : hit) : str := default [] (capture h).

(** [while ((match = variableRegex.exec(text)) !== null)
      variables.add(match[1].trim())].
    The loop ends with [lastIndex] back at 0, so each loop over the
    shared pattern starts at the beginning of its text. *)
Definition addVariables (variables : list str) (text : str) : list str :=
  foldl (fun vs h => setAdd (trim (group1 h)) vs) variables
        (hits (scan variableRegex [] text 0)).

(** What the collaborators give for the file at [filePath]:
    [mammoth.extractRawText] yields the body text and its messages;
    [fs.readFile] and [new PizZip] yield the archive, whose entries
    [word/header*.xml] and [word/footer*.xml] are read by [asText]. *)
Record DocxFile : Type := {
  rawText : outcome (str * list str);
  headerFooterFiles : outcome (list (outcome str))
}.

Record Extraction : Type := {
  text : str;
  variables : list str;
  messages : list str
}.

(** The body of [headerFooterFiles.forEach]; a throw leaves the loop
    with the names added so far. *)
Fixpoint scanParts (variables : list str) (files : list (outcome str))
  : list str :=
  match files with
  | [] => variables
  | Returned xml :: more =>
      let plain := replaceAll tagRegex [] xml in
      scanParts (addVariables variables plain) more
  | Thrown _ :: _ => variables
  end.

Definition extractTextAndVariables (doc : DocxFile) : outcome Extraction :=
  match rawText doc with
  | Thrown msg => Thrown (lit "Failed to extract text from DOCX: " ++ msg)
  | Returned (text, messages) =>
      let variables := addVariables [] text in
      let variables :=
        match headerFooterFiles doc with
        | Returned files => scanParts variables files
        | Thrown _ => variables
        end in
      Returned {| text := text; variables := variables; messages := messages |}
  end.

(** the source text [`\\{\\{\\s*${variableName}\\s*\\}\\}`] evaluates to *)
Definition patternSource (variableName : str) : str :=
  lit "\{\{\s*" ++ variableName ++ lit "\s*\}\}".

(** one turn of the [forEach] of [replaceVariables] *)
Definition replaceOne (variables : ValueMap) (processedText : str)
    (variableName : str) : option (outcome str) :=
  match compile (patternSource variableName) with
  | Compiled regex =>
      Some (Returned
        (replaceAll regex
           (toString (jsOr (getProp variables variableName) (JStr [])))
           processedText))
  | SyntaxError msg => Some (Thrown msg)
  | Unmodelled => None
  end.

(** [replaceVariables(text, variables)]; [None] when a key leaves the
    modelled pattern fragment. *)
Definition replaceVariables (text : str) (variables : ValueMap)
  : option (outcome str) :=
  foldl (fun acc variableName =>
           match acc with
           | Some (Returned processedText) =>
               replaceOne variables processedText variableName
           | other => other
           end)
        (Some (Returned text)) (keys variables).

(** [safeVariables] of [processTemplate]: [variables || {}], with
    [null] and [undefined] values replaced by the empty string. *)
Definition safeVariables (variables : option ValueMap) : ValueMap :=
  (fun kv => (kv.1, if looseEqNull kv.2 then JStr [] else kv.2))
    <$> default [] variables.

(** *** The document assembler: the callback of [paragraphs.map] *)

Inductive HeadingLevel : Type :=
| HEADING_1 | HEADING_2 | HEADING_3 | HEADING_4.

Record TextRun : Type := {
  runText : str;
  size : nat;
  font : option str;
  bold : bool
}.

(** the options object given to [new Paragraph] *)
Record Paragraph : Type := {
  paragraphText : option str;
  children : list TextRun;
  heading : option HeadingLevel;
  numbering : option (str * nat);
  bullet : option nat;
  spacing : nat * nat
}.

(** [/^#+/] and [/^#+\s*/], without the [^] *)
Definition hashes : regex := Plus (Chr "#").
Definition hashesAndSpace : regex := Seq (Plus (Chr "#")) (Star (Cls isSpace)).

(** [/\s{2,}|\t/] *)
Definition cellSeparator : regex :=
  Alt (Seq (Cls isSpace) (Plus (Cls isSpace))) (Chr "009").

(** [/^\d+\.\s/], without the [^] *)
Definition numberedItem : regex :=
  Seq (Plus (Cls isDigit)) (Seq (Chr ".") (Cls isSpace)).

(** [/^[•\-\*]\s/], without the [^]; the bullet U+2022 lies outside the
    8-bit range of the text model. *)
Definition isBulletMark (c : ascii) : bool :=
  Ascii.eqb c "-" || Ascii.eqb c "*".
Definition bulletItem : regex := Seq (Cls isBulletMark) (Cls isSpace).

Definition headingLevel (level : nat) : HeadingLevel :=
  match level with
  | 1 => HEADING_1
  | 2 => HEADING_2
  | 3 => HEADING_3
  | _ => HEADING_4
  end.

Definition plainRun (t : str) : TextRun :=
  {| runText := t; size := 24; font := None; bold := false |}.

(** [paragraph.split(/\s{2,}|\t/).filter(cell => cell.trim() !== '')] *)
Definition cellsOf (paragraph : str) : list str :=
  filter (fun cell => trim cell ≠ []) (split cellSeparator paragraph).

(** [paragraph.includes('  ') || paragraph.includes('\t')] *)
Definition looksLikeTableRow (paragraph : str) : bool :=
  includes (lit "  ") paragraph || includes ["009"%char] paragraph.

Definition headingParagraph (paragraph : str) : outcome (option Paragraph) :=
  match matchAtStart hashes paragraph with
  | None => Thrown (lit "Cannot read properties of null (reading '0')")
  | Some m =>
      Returned (Some
        {| paragraphText := Some (replaceAtStart hashesAndSpace [] paragraph);
           children := [];
           heading := Some (headingLevel (length m));
           numbering := None; bullet := None;
           spacing := (240, 120) |})
  end.

(** The branches shared by both assemblers, from the table-row test on.
    A line that looks like a table row but has fewer than two cells
    leaves the callback without a [return]: its value is [undefined],
    here [None]. *)
Definition commonParagraph (paragraph : str) : outcome (option Paragraph) :=
  if looksLikeTableRow paragraph then
    let cells := cellsOf paragraph in
    if 1 <? length cells then
      Returned (Some
        {| paragraphText := None;
           children := [ {| runText := paragraph; size := 24;
                            font := Some (lit "Courier New"); bold := false |} ];
           heading := None; numbering := None; bullet := None;
           spacing := (120, 120) |})
    else Returned None
  else if testAtStart numberedItem paragraph then
    Returned (Some
      {| paragraphText := None; children := [plainRun paragraph];
         heading := None;
         numbering := Some (lit "default-numbering", 0);
         bullet := None; spacing := (60, 60) |})
  else if testAtStart bulletItem paragraph then
    Returned (Some
      {| paragraphText := None; children := [plainRun paragraph];
         heading := None; numbering := None;
         bullet := Some 0; spacing := (60, 60) |})
  else
    Returned (Some
      {| paragraphText := None; children := [plainRun paragraph];
         heading := None; numbering := None; bullet := None;
         spacing := (120, 120) |}).

(** the callback of [createDocxFromText] *)
Definition textParagraph (paragraph : str) : outcome (option Paragraph) :=
  if startsWith (lit "#") paragraph then headingParagraph paragraph
  else commonParagraph paragraph.

(** The callback of [createDocxFromTextAdvanced].  The module imports
    [Document, Packer, Paragraph, TextRun, HeadingLevel] from the docx
    package and nothing named [AlignmentType], so the two branches that
    evaluate [AlignmentType.CENTER] throw a ReferenceError. *)
Definition advancedParagraph (paragraph : str) : outcome (option Paragraph) :=
  if startsWith (lit "#") paragraph then
    match matchAtStart hashes paragraph with
    | None => Thrown (lit "Cannot read properties of null (reading '0')")
    | Some _ => Thrown (lit "AlignmentType is not defined")
    end
  else if startsWith (lit "**") paragraph && endsWith (lit "**") paragraph then
    Thrown (lit "AlignmentType is not defined")
  else commonParagraph paragraph.

(** [content.split('\n').filter(line => line.trim() !== '')] *)
Definition paragraphsOf (content : str) : list str :=
  filter (fun line => trim line ≠ []) (splitOn "010" content).

(** [paragraphs.map(callback)]: the [children] array handed to
    [new Document], unless a callback throws. *)
Fixpoint mapOutcome {A B : Type} (f : A -> outcome B) (l : list A)
  : outcome (list B) :=
  match l with
  | [] => Returned []
  | x :: t =>
      match f x with
      | Thrown msg => Thrown msg
      | Returned y =>
          match mapOutcome f t with
          | Thrown msg => Thrown msg
          | Returned ys => Returned (y :: ys)
          end
      end
  end.

Definition sectionChildren (content : str) : outcome (list (option Paragraph)) :=
  mapOutcome textParagraph (paragraphsOf content).

Definition sectionChildrenAdvanced (content : str)
  : outcome (list (option Paragraph)) :=
  mapOutcome advancedParagraph (paragraphsOf content).

End DocxProcessor.
Import DocxProcessor.

(** ** utils/pdfToWordConverter.js: the conversion cascade *)

Module PdfToWordConverter.

(** An effectful computation over the files on disk (path to
    content); it returns or throws, and emits a trace of [E]. *)
Definition M (E A : Type) : Type :=
  gmap str str -> outcome A * list E * gmap str str.

Definition ret {E A : Type} (a : A) : M E A := fun fs => (Returned a, [], fs).

Definition throw {E A : Type} (msg : str) : M E A :=
  fun fs => (Thrown msg, [], fs).

Definition bind {E A B : Type} (m : M E A) (k : A -> M E B) : M E B :=
  fun fs =>
    match m fs with
    | (Returned a, out, fs') =>
        match k a fs' with
        | (r, out', fs'') => (r, out ++ out', fs'')
        end
    | (Thrown msg, out, fs') => (Thrown msg, out, fs')
    end.

(** [try { m } catch (error) { handler error.message }] *)
Definition tryCatch {E A : Type} (m : M E A) (handler : str -> M E A) : M E A :=
  fun fs =>
    match m fs with
    | (Returned a, out, fs') => (Returned a, out, fs')
    | (Thrown msg, out, fs') =>
        match handler msg fs' with
        | (r, out', fs'') => (r, out ++ out', fs'')
        end
    end.

#[export] Instance M_bind {E : Type} : MBind (M E) := fun A B k m => bind m k.
#[export] Instance M_ret {E : Type} : MRet (M E) := fun A a => ret a.

(** A conversion strategy acts on the files, writes console lines, and
    returns the output path or throws. *)
Definition Strategy : Type := M str str.

(** [console.log(a)] and [console.log(a, b)] *)
Definition consoleLog (l : str) : M str unit :=
  fun fs => (Returned tt, [l], fs).
Definition consoleLog2 (a b : str) : M str unit :=
  consoleLog (a ++ lit " " ++ b).

(** [fs.existsSync(path)] *)
Definition existsSync {E : Type} (path : str) : M E bool :=
  fun fs => (Returned (bool_decide (is_Some (fs !! path))), [], fs).

(** [fs.move(src, dest, { overwrite: true })] of fs-extra *)
Definition move {E : Type} (src dest : str) : M E unit :=
  fun fs =>
    if str_eqb src dest then
      (Thrown (lit "Source and destination must not be the same."), [], fs)
    else match fs !! src with
         | Some content => (Returned tt, [], <[dest := content]> (delete src fs))
         | None => (Thrown (lit "ENOENT: no such file or directory"), [], fs)
         end.

(** [fs.writeFile(path, data)].  [writeError path fs] is the message
    the call rejects with when [path] cannot be opened for writing (a
    missing directory, a missing permission); the files are then left
    as they are. *)
Definition writeFile {E : Type} (writeError : str -> gmap str str -> option str)
    (path data : str) : M E unit :=
  fun fs =>
    match writeError path fs with
    | Some msg => (Thrown msg, [], fs)
    | None => (Returned tt, [], <[path := data]> fs)
    end.

(** the message of the error [fs.readFile] rejects with for a path
    that names no file *)
Definition noSuchFile (path : str) : str :=
  lit "ENOENT: no such file or directory, open '" ++ path ++ lit "'".

(** [fs.readFile(path)] *)
Definition readFile {E : Type} (path : str) : M E str :=
  fun fs =>
    match fs !! path with
    | Some content => (Returned content, [], fs)
    | None => (Thrown (noSuchFile path), [], fs)
    end.

(** What a run of the cascade leaves behind, in order: the lines
    written by [console.log], and a mark for each call of the method
    of a strategy (the call-count instrumentation of the
    specification).  The class calls these methods at six places: the
    cascade calls each of the four once, and
    [convertWithAlternativeParsing] calls the method of strategy 4 in
    its [try] block and in its [catch] block. *)
Inductive event : Type :=
| Line (l : str)
| Invoke (strategy : nat).

Definition run {A : Type} (m : M str A) : M event A :=
  fun fs => match m fs with (r, lines, fs') => (r, Line <$> lines, fs') end.

Definition mark (strategy : nat) : M event unit :=
  fun fs => (Returned tt, [Invoke strategy], fs).

(** One guarded attempt of the cascade:
    [try { console.log(intro); return await s } catch (error)
     { console.log(failed, error.message) }], then the rest.  The
    strategy [s] is the body of the method called; it emits the marks
    of the calls it makes itself. *)
Definition attempt (n : nat) (intro failed : str) (s : M event str)
    (next : M event str) : M event str :=
  tryCatch (run (consoleLog intro) ;; mark n ;; s)
           (fun msg => run (consoleLog2 failed msg) ;; next).

(** [convertPdfToWord], over its four strategies. *)
Definition cascade (s1 s2 s3 s4 : M event str) : M event str :=
  run (consoleLog (lit "Starting enhanced PDF to Word conversion...")) ;;
  attempt 1 (lit "Attempting LibreOffice conversion with enhanced formatting...")
            (lit "LibreOffice conversion failed:") s1
    (attempt 2 (lit "Attempting pdf2docx conversion with enhanced formatting...")
               (lit "pdf2docx conversion failed:") s2
       (attempt 3 (lit "Attempting alternative parsing methods...")
                  (lit "Alternative parsing failed:") s3
          (run (consoleLog (lit "Falling back to enhanced text extraction...")) ;;
           mark 4 ;; s4))).

Definition invocations (trace : list event) : list nat :=
  trace ≫= fun e => match e with Invoke n => [n] | Line _ => [] end.

Definition consoleLines (trace : list event) : list str :=
  trace ≫= fun e => match e with Line l => [l] | Invoke _ => [] end.

Section Collaborators.

(** [path.dirname] *)
Variable dirname : str -> str.
(** [execAsync(command, { timeout })]: stdout and stderr, or the
    error of a failed or timed-out process *)
Variable execAsync : str -> gmap str str -> outcome (str * str) * gmap str str.
(** [new Converter(input).convert(output, options)] of pdf2docx *)
Variable pdf2docx : str -> str -> gmap str str -> outcome unit * gmap str str.
(** [require('pdf-parse')], evaluated when the text-extraction method
    is entered: it throws when the module cannot be loaded *)
Variable requirePdfParse : outcome unit.
(** [pdf(dataBuffer)] of pdf-parse: [data.text] *)
Variable pdfParse : str -> outcome str.
(** [require('pdf2pic')] and [fromPath(input, options)(1)] *)
Variable pdf2pic : str -> str -> gmap str str -> outcome unit * gmap str str.
(** [Packer.toBuffer(new Document(...))] of docx *)
Variable pack : list (option Paragraph) -> outcome str.
(** the rejections of [fs.writeFile] *)
Variable writeError : str -> gmap str str -> option str.
(** [String.prototype.toUpperCase] *)
Variable toUpperCase : str -> str.

Definition lift {A : Type}
    (f : gmap str str -> outcome A * gmap str str) : M str A :=
  fun fs => match f fs with (r, fs') => (r, [], fs') end.

Definition pure {A : Type} (r : outcome A) : M str A := fun fs => (r, [], fs).

(** a text between double quotes *)
Definition quoted (s : str) : str := ["034"%char] ++ s ++ ["034"%char].

(** the three commands of [conversionMethods] *)
Definition conversionMethods (inputPdfPath outputDocxPath : str) : list str :=
  let outputDir := dirname outputDocxPath in
  let tail := lit " --outdir " ++ quoted outputDir ++ lit " "
                ++ quoted inputPdfPath in
  [ lit "soffice --headless --convert-to docx:"
      ++ quoted (lit "MS Word 2007 XML") ++ tail;
    lit "soffice --headless --convert-to docx:"
      ++ quoted (lit "Office Open XML Text") ++ tail;
    lit "soffice --headless --convert-to docx" ++ tail ].

Definition ordinal (i : nat) : str :=
  lit (DecimalString.NilZero.string_of_uint (Nat.to_uint (i + 1))).

(** The [try] block of the loop of [convertWithLibreOffice] for the
    command at index [i]: the output path when a converted file was
    found and moved, [None] when the command left no file. *)
Definition libreOfficeTry (inputPdfPath outputDocxPath : str)
    (i : nat) (command : str) : M str (option str) :=
  consoleLog2 (lit "Attempting LibreOffice conversion method "
                 ++ ordinal i ++ lit ":") command ;;
  io ← lift (execAsync command);
  (if bool_decide (io.2 = []) then ret tt
   else consoleLog2 (lit "LibreOffice stderr:") io.2) ;;
  consoleLog2 (lit "LibreOffice stdout:") io.1 ;;
  let expectedDocxPath :=
    replaceFirst (lit ".pdf") (lit ".docx") inputPdfPath in
  found ← existsSync expectedDocxPath;
  if found : bool then
    (move expectedDocxPath outputDocxPath ;;
     consoleLog (lit "LibreOffice conversion method " ++ ordinal i
                   ++ lit " successful") ;;
     ret (Some outputDocxPath))
  else ret None.

(** The loop from index [i] on, over the commands still to try; the
    [catch] block rethrows at the last index. *)
Fixpoint libreOfficeLoop (inputPdfPath outputDocxPath : str)
    (i : nat) (commands : list str) : Strategy :=
  match commands with
  | [] => throw (lit "All LibreOffice conversion methods failed")
  | command :: more =>
      r ← tryCatch (libreOfficeTry inputPdfPath outputDocxPath i command)
            (fun msg =>
               consoleLog2 (lit "LibreOffice conversion method "
                              ++ ordinal i ++ lit " failed:") msg ;;
               match more with
               | [] => throw msg
               | _ :: _ => ret None
               end);
      match r with
      | Some path => ret path
      | None => libreOfficeLoop inputPdfPath outputDocxPath (S i) more
      end
  end.

Definition convertWithLibreOffice (inputPdfPath outputDocxPath : str)
  : Strategy :=
  libreOfficeLoop inputPdfPath outputDocxPath 0
    (conversionMethods inputPdfPath outputDocxPath).

Definition convertWithPdf2Docx (inputPdfPath outputDocxPath : str)
  : Strategy :=
  lift (pdf2docx inputPdfPath outputDocxPath) ;;
  consoleLog (lit "pdf2docx conversion successful with enhanced settings") ;;
  ret outputDocxPath.

(** [isTableRow], [formatTableRow], [isHeader], [isNumberedList] and
    [isBulletPoint] *)
Definition spaceRun : regex := Seq (Cls isSpace) (Plus (Cls isSpace)).

Definition isTableRow (line : str) : bool :=
  let spaceCount := length (hits (scan spaceRun [] line 0)) in
  let tabCount := length (hits (scan (Chr "009") [] line 0)) in
  (0 <? spaceCount) || (0 <? tabCount).

Definition formatTableRow (line : str) : str :=
  replaceAll spaceRun ["009"%char] line.

Definition isHeader (line : str) : bool :=
  str_eqb line (toUpperCase line) && (3 <? length line) && (length line <? 100).

Definition isNumberedList (line : str) : bool := testAtStart numberedItem line.

Definition isBulletPoint (line : str) : bool := testAtStart bulletItem line.

(** [/\n\s*\n/g] and [/\r\n/g] *)
Definition blankLines : regex :=
  Seq (Chr "010") (Seq (Star (Cls isSpace)) (Chr "010")).
Definition crlf : regex := Seq (Chr "013") (Chr "010").

Definition normalizeText (text : str) : str :=
  trim (replaceAll crlf ["010"%char]
          (replaceAll blankLines ["010"%char; "010"%char] text)).

(** one turn of the loop of [enhanceExtractedText] *)
Definition enhanceLine (raw : str) : str :=
  let line := trim raw in
  if bool_decide (line = []) then []
  else if isTableRow line then formatTableRow line
  else if isHeader line then lit "# " ++ line
  else if isNumberedList line then lit "## " ++ line
  else if isBulletPoint line then lit "### " ++ line
  else line.

Definition enhanceExtractedText (text : str) : str :=
  match text with
  | [] => []
  | _ :: _ =>
      join ["010"%char] (enhanceLine <$> splitOn "010" (normalizeText text))
  end.

(** [DocxProcessor.createDocxFromText(content, outputPath)] *)
Definition createDocxFromText (content outputPath : str) : M str str :=
  tryCatch
    (children ← pure (sectionChildren content);
     buffer ← pure (pack children);
     writeFile writeError outputPath buffer ;;
     ret outputPath)
    (fun msg => throw (lit "Failed to create DOCX: " ++ msg)).

Definition convertWithEnhancedTextExtraction
    (inputPdfPath outputDocxPath : str) : Strategy :=
  pure requirePdfParse ;;
  dataBuffer ← readFile inputPdfPath;
  text ← pure (pdfParse dataBuffer);
  createDocxFromText (enhanceExtractedText text) outputDocxPath ;;
  consoleLog (lit "Enhanced text extraction conversion successful") ;;
  ret outputDocxPath.

(** a call of [this.convertWithEnhancedTextExtraction], the method of
    strategy 4 *)
Definition callEnhancedTextExtraction
    (inputPdfPath outputDocxPath : str) : M event str :=
  mark 4 ;;
  run (convertWithEnhancedTextExtraction inputPdfPath outputDocxPath).

(** Strategy 3 ends, in its [try] block and in its [catch] block
    alike, in a call of the method of strategy 4. *)
Definition convertWithAlternativeParsing
    (inputPdfPath outputDocxPath : str) : M event str :=
  tryCatch
    (run (lift (pdf2pic inputPdfPath (dirname outputDocxPath))) ;;
     callEnhancedTextExtraction inputPdfPath outputDocxPath)
    (fun msg =>
       run (consoleLog2
              (lit "Alternative parsing failed, using enhanced text extraction:")
              msg) ;;
       callEnhancedTextExtraction inputPdfPath outputDocxPath).

Definition convertPdfToWord (inputPdfPath outputDocxPath : str)
  : M event str :=
  cascade (run (convertWithLibreOffice inputPdfPath outputDocxPath))
          (run (convertWithPdf2Docx inputPdfPath outputDocxPath))
          (convertWithAlternativeParsing inputPdfPath outputDocxPath)
          (run (convertWithEnhancedTextExtraction inputPdfPath outputDocxPath)).

End Collaborators.

End PdfToWordConverter.

(** ** utils/advancedPdfToWordConverter.js: the structural classifier *)

Module AdvancedPdfToWordConverter.

Inductive BlockKind : Type :=
| Blank
| Heading
| SubHeading
| TableRow
| NumberedItem
| BulletItem
| Emphasized
| PlainParagraph.

Section Classifier.

(** [String.prototype.toUpperCase] *)
Variable toUpperCase : str -> str.

Definition isHeader (line : str) : bool :=
  str_eqb line (toUpperCase line) && (3 <? length line) && (length line <? 100).

(** [/^[A-Z][a-z]/], without the [^] *)
Definition capitalised : regex := Seq (Cls isUpperAZ) (Cls isLowerAZ).

Definition isSubHeader (line : str) : bool :=
  (5 <? length line) && (length line <? 80) &&
  (endsWith (lit ":") line || testAtStart capitalised line).

Definition spaceRun : regex := Seq (Cls isSpace) (Plus (Cls isSpace)).

Definition isTableRow (line : str) : bool :=
  let spaceCount := length (hits (scan spaceRun [] line 0)) in
  let tabCount := length (hits (scan (Chr "009") [] line 0)) in
  (0 <? spaceCount) || (0 <? tabCount).

Definition formatTableRow (line : str) : str :=
  replaceAll spaceRun ["009"%char] line.

Definition isNumberedList (line : str) : bool := testAtStart numberedItem line.

Definition isBulletPoint (line : str) : bool := testAtStart bulletItem line.

Definition isEmphasizedText (line : str) : bool :=
  (10 <? length line) && (length line <? 200) &&
  (includes (lit "**") line || includes (lit "__") line
   || str_eqb line (toUpperCase line)
   || testAtStart (Cls isUpperAZ) line).

(** The [if]/[else if] chain of [processTextWithAdvancedFormatting]
    on a trimmed line: the first test that holds decides. *)
Definition classify (line : str) : BlockKind :=
  if bool_decide (line = []) then Blank
  else if isHeader line then Heading
  else if isSubHeader line then SubHeading
  else if isTableRow line then TableRow
  else if isNumberedList line then NumberedItem
  else if isBulletPoint line then BulletItem
  else if isEmphasizedText line then Emphasized
  else PlainParagraph.

(** what each branch pushes on [processedLines] *)
Definition markup (kind : BlockKind) (line : str) : str :=
  match kind with
  | Blank => []
  | Heading => lit "# " ++ line
  | SubHeading => lit "## " ++ line
  | TableRow => formatTableRow line
  | NumberedItem => lit "## " ++ line
  | BulletItem => lit "### " ++ line
  | Emphasized => lit "**" ++ line ++ lit "**"
  | PlainParagraph => line
  end.

Definition processLine (raw : str) : str :=
  let line := trim raw in markup (classify line) line.

Definition blankLines : regex :=
  Seq (Chr "010") (Seq (Star (Cls isSpace)) (Chr "010")).
Definition crlf : regex := Seq (Chr "013") (Chr "010").

Definition normalizeText (text : str) : str :=
  trim (replaceAll crlf ["010"%char]
          (replaceAll blankLines ["010"%char; "010"%char] text)).

Definition processTextWithAdvancedFormatting (text : str) : str :=
  match text with
  | [] => []
  | _ :: _ =>
      join ["010"%char] (processLine <$> splitOn "010" (normalizeText text))
  end.

End Classifier.

(** [toUpperCase] on ASCII text *)
Definition asciiUpper (s : str) : str :=
  (fun c => if isLowerAZ c then ascii_of_nat (codeOf c - 32) else c) <$> s.

End AdvancedPdfToWordConverter.

(** ** Collaborators and strategies used in the examples *)

Module Scenario.

Import PdfToWordConverter.

Definition inputPdf : str := lit "/tmp/report.pdf".
Definition outputDocx : str := lit "/tmp/converted.docx".
Definition tmpDir (_ : str) : str := lit "/tmp".

(** an office suite that is not installed *)
Definition sofficeAbsent (command : str) (fs : gmap str str)
  : outcome (str * str) * gmap str str :=
  (Thrown (lit "spawn soffice ENOENT"), fs).



Definition pdfParseFails (_ : str) : outcome str :=
  Thrown (lit "Invalid PDF structure").

Definition pdf2picFails (_ _ : str) (fs : gmap str str)
  : outcome unit * gmap str str :=
  (Thrown (lit "gm: command not found"), fs).

(** a renderer that writes the image of the first page *)
Definition pdf2picPage (input outputDir : str) (fs : gmap str str)
  : outcome unit * gmap str str :=
  (Returned tt, <[outputDir ++ lit "/page.1.png" := lit "PNG"]> fs).

Definition packBytes (_ : list (option Paragraph)) : outcome str :=
  Returned (lit "PK").

(** an office suite whose commands run into the time limit *)
Definition sofficeTimesOut (command : str) (fs : gmap str str)
  : outcome (str * str) * gmap str str :=
  (Thrown (lit "Command failed: " ++ command), fs).

(** a converter that writes its artifact at the output path *)
Definition pdf2docxWrites (input output : str) (fs : gmap str str)
  : outcome unit * gmap str str :=
  (Returned tt, <[output := lit "PK"]> fs).

Definition pdf2docxMissing (input output : str) (fs : gmap str str)
  : outcome unit * gmap str str :=
  (Thrown (lit "Cannot find module 'pdf2docx'"), fs).

(** a PDF whose text is one line of prose *)
Definition pdfParseLine (_ : str) : outcome str :=
  Returned (lit "Quarterly report").

(** every path can be written *)
Definition writable (_ : str) (_ : gmap str str) : option str := None.


End Scenario.

(** ** Declarative reading of patterns and of template text *)

Module Semantics.

(** Iteration of a matching step, each turn consuming input. *)
Inductive iter (R : mstate -> mstate -> Prop) : mstate -> mstate -> Prop :=
| iter_stop st : iter R st st
| iter_more st m st' :
    R st m -> length m.2 < length st.2 -> iter R m st' -> iter R st st'.

(** [den r st st']: the pattern [r] can take the state [st] to [st']. *)
Fixpoint den (r : regex) (st st' : mstate) : Prop :=
  match r with
  | Eps => st' = st
  | Chr c => st.2 = c :: st'.2 /\ st'.1 = st.1
  | Cls p => exists x, p x = true /\ st.2 = x :: st'.2 /\ st'.1 = st.1
  | Seq r1 r2 => exists m, den r1 st m /\ den r2 m st'
  | Alt r1 r2 => den r1 st st' \/ den r2 st st'
  | Star r1 => iter (den r1) st st'
  | Group r1 =>
      exists m, den r1 st m /\
                st' = (Some (take (length st.2 - length m.2) st.2), m.2)
  end.

(** a run of literal characters followed by [tail] *)
Definition lits (k : str) (tail : regex) : regex :=
  foldr (fun c r => Seq (Chr c) r) tail k.

(** the tokens of a run of literal characters *)
Definition atoms (k : str) : list token := (fun c => TAtom (Chr c)) <$> k.

(** the pattern [new RegExp] builds for a key without syntax characters *)
Definition nameRegex (k : str) : regex :=
  Seq (Chr "{") (Seq (Chr "{") (Seq (Star (Cls isSpace))
    (lits k (Seq (Star (Cls isSpace)) (Seq (Chr "}") (Seq (Chr "}") Eps)))))).

Definition blank (w : str) : Prop := Forall (fun c => isSpace c = true) w.
Definition without (c : ascii) (s : str) : Prop := Forall (fun x => x <> c) s.

(** Template text in parsed form: literal stretches and placeholders
    [{{ w1 name w2 }}]. *)
Inductive item : Type :=
| Lit (s : str)
| Ph (w1 name w2 : str).

Definition renderItem (it : item) : str :=
  match it with
  | Lit s => s
  | Ph w1 name w2 => lit "{{" ++ w1 ++ name ++ w2 ++ lit "}}"
  end.

Definition render (items : list item) : str := items ≫= renderItem.

Definition names (items : list item) : list str :=
  items ≫= fun it => match it with Ph _ n _ => [n] | Lit _ => [] end.

(** A name as the placeholder syntax has it: not empty, trimmed, and
    without a closing brace. *)
Definition validName (n : str) : Prop :=
  n <> [] /\ trim n = n /\ without "}" n.

(** Valid placeholder text: no opening brace outside a placeholder. *)
Definition validItem (it : item) : Prop :=
  match it with
  | Lit s => without "{" s
  | Ph w1 n w2 => blank w1 /\ blank w2 /\ validName n
  end.

(** A key the pattern of [replaceVariables] takes literally. *)
Definition plainName (n : str) : Prop :=
  validName n /\ Forall (fun c => isSyntaxChar c = false) n.

(** Placeholder text whose names, in addition, hold no opening brace. *)
Definition strictItem (it : item) : Prop :=
  validItem it /\
  match it with
  | Lit _ => True
  | Ph _ n _ => without "{" n
  end.

(** the replacement text [variables[name] || ''] as [replace] sees it *)
Definition replacement (variables : ValueMap) (k : str) : str :=
  toString (jsOr (getProp variables k) (JStr [])).

(** a replacement text that [GetSubstitution] copies and that opens no
    placeholder *)
Definition inert (v : str) : Prop := without "$" v /\ without "{" v.

(** the effect of one key on parsed template text *)
Definition substKey (k v : str) (it : item) : item :=
  match it with
  | Ph w1 n w2 => if str_eqb n k then Lit v else it
  | Lit _ => it
  end.

(** the callback of the [forEach] of [replaceVariables] *)
Definition replaceStep (variables : ValueMap) (acc : option (outcome str))
    (variableName : str) : option (outcome str) :=
  match acc with
  | Some (Returned processedText) => replaceOne variables processedText variableName
  | other => other
  end.

(** the effect of all keys: a placeholder whose name is a key becomes
    the replacement text, every other item stays *)
Definition substItem (variables : ValueMap) (it : item) : item :=
  match it with
  | Ph w1 n w2 =>
      if bool_decide (n ∈ keys variables)
      then Lit (replacement variables n) else it
  | Lit _ => it
  end.

(** two parsed texts that differ only in the white space inside the
    delimiters *)
Definition sameUpToBlanks (a b : item) : Prop :=
  match a, b with
  | Lit s, Lit s' => s = s'
  | Ph _ n _, Ph _ n' _ => n = n'
  | _, _ => False
  end.

(** the header and footer parts whose text was obtained: those before
    the first part that throws, none when the archive cannot be opened *)
Fixpoint partsRead (files : list (outcome str)) : list str :=
  match files with
  | Returned xml :: more => xml :: partsRead more
  | _ => []
  end.

Definition regionsRead (hf : outcome (list (outcome str))) : list str :=
  match hf with
  | Returned files => partsRead files
  | Thrown _ => []
  end.

(** reading the header and footer regions failed before the text of
    any region was obtained *)
Definition regionsUnread (hf : outcome (list (outcome str))) : Prop :=
  match hf with
  | Thrown _ => True
  | Returned (Thrown _ :: _) => True
  | Returned _ => False
  end.

End Semantics.
Import Semantics.

(** Decidable side conditions on concrete texts are settled by
    evaluation. *)
Ltac by_evaluation :=
  lazymatch goal with
  | |- ?P => apply (bool_decide_unpack P); vm_compute; exact I
  end.

#[local] Instance validName_dec (n : str) : Decision (validName n).
Proof. unfold validName, without. apply _. Defined.

#[local] Instance validItem_dec (it : item) : Decision (validItem it).
Proof. destruct it; unfold validItem, blank, without; apply _. Defined.

#[local] Instance strictItem_dec (it : item) : Decision (strictItem it).
Proof. destruct it; unfold strictItem, without; apply _. Defined.

#[local] Instance plainName_dec (n : str) : Decision (plainName n).
Proof. unfold plainName. apply _. Defined.

#[local] Instance inert_dec (v : str) : Decision (inert v).
Proof. unfold inert, without. apply _. Defined.

#[local] Instance event_eq_dec : EqDecision PdfToWordConverter.event.
Proof. solve_decision. Defined.

(** ** utils/docxProcessor.js: file statistics *)

Module FileStats.

(** [/\s+/] *)
Definition whitespaceRun : regex := Plus (Cls isSpace).

Record Stats : Type := {
  wordCount : nat;
  characterCount : nat;
  lineCount : nat;
  variableCount : nat;
  variables : list str
}.

(** [text.split(/\s+/).filter(word => word.length > 0)] *)
Definition wordsOf (text : str) : list str :=
  filter (fun word => 0 < length word) (split whitespaceRun text).

Definition getFileStats (doc : DocxFile) : outcome Stats :=
  match rawText doc with
  | Thrown msg => Thrown (lit "Failed to get file stats: " ++ msg)
  | Returned (text, _) =>
      let variables := addVariables [] text in
      Returned {| wordCount := length (wordsOf text);
                  characterCount := length text;
                  lineCount := length (splitOn "010" text);
                  variableCount := length variables;
                  variables := variables |}
  end.

Definition validateDocxFile (doc : DocxFile) : bool :=
  match rawText doc with
  | Returned (text, _) => 0 <? length text
  | Thrown _ => false
  end.

End FileStats.

(** ** utils/advancedPdfToWordConverter.js: the strategies and the cascade *)

Module AdvancedStrategies.

Import PdfToWordConverter.

(** [convertPdfToWord], over its four strategies. *)
Definition cascade (s1 s2 s3 s4 : M event str) : M event str :=
  run (consoleLog (lit "Starting advanced PDF to Word conversion...")) ;;
  attempt 1 (lit "Attempting LibreOffice conversion with multiple formats...")
            (lit "LibreOffice conversion failed:") s1
    (attempt 2 (lit "Attempting pdf2docx with enhanced settings...")
               (lit "pdf2docx conversion failed:") s2
       (attempt 3 (lit "Attempting enhanced pdf-parse conversion...")
                  (lit "Enhanced pdf-parse conversion failed:") s3
          (run (consoleLog (lit "Falling back to basic text extraction...")) ;;
           mark 4 ;; s4))).

(** [processTextBasic] *)
Definition processTextBasic (text : str) : str :=
  match text with
  | [] => []
  | _ :: _ => AdvancedPdfToWordConverter.normalizeText text
  end.

Section Collaborators.

(** [path.dirname] *)
Variable dirname : str -> str.
(** [execAsync(command, { timeout: 180000 })] *)
Variable execAsync : str -> gmap str str -> outcome (str * str) * gmap str str.
(** [new Converter(input).convert(output, options)] of pdf2docx *)
Variable pdf2docx : str -> str -> gmap str str -> outcome unit * gmap str str.
(** [pdf(dataBuffer, options)] and [pdf(dataBuffer)] of pdf-parse:
    [data.text] *)
Variable pdfParseWithOptions : str -> outcome str.
Variable pdfParse : str -> outcome str.
(** [Packer.toBuffer(new Document(...))] of docx *)
Variable pack : list (option Paragraph) -> outcome str.
(** the rejections of [fs.writeFile] *)
Variable writeError : str -> gmap str str -> option str.
(** [String.prototype.toUpperCase] *)
Variable toUpperCase : str -> str.

(** the four commands of [conversionMethods] *)
Definition conversionMethods (inputPdfPath outputDocxPath : str) : list str :=
  let outputDir := dirname outputDocxPath in
  let tail := lit " --outdir " ++ quoted outputDir ++ lit " "
                ++ quoted inputPdfPath in
  [ lit "soffice --headless --convert-to docx:"
      ++ quoted (lit "Office Open XML Text") ++ tail;
    lit "soffice --headless --convert-to docx:"
      ++ quoted (lit "MS Word 2007 XML") ++ tail;
    lit "soffice --headless --convert-to docx" ++ tail;
    lit "soffice --headless --convert-to rtf" ++ tail ].

Definition possibleExtensions : list str := [lit ".docx"; lit ".rtf"].

(** The loop over [possibleExtensions]: the first expected path that
    exists, [None] for [convertedFile = null]. *)
Fixpoint findConverted (inputPdfPath : str) (extensions : list str)
  : M str (option str) :=
  match extensions with
  | [] => ret None
  | ext :: more =>
      let expectedPath := replaceFirst (lit ".pdf") ext inputPdfPath in
      found ← existsSync expectedPath;
      if found : bool then ret (Some expectedPath)
      else findConverted inputPdfPath more
  end.

(** The [try] block of the loop of [convertWithLibreOfficeAdvanced] for
    the command at index [i]. *)
Definition libreOfficeTry (inputPdfPath outputDocxPath : str)
    (i : nat) (command : str) : M str (option str) :=
  consoleLog2 (lit "Attempting LibreOffice method " ++ ordinal i ++ lit ":")
              command ;;
  io ← lift (execAsync command);
  (if bool_decide (io.2 = []) then ret tt
   else consoleLog2 (lit "LibreOffice stderr:") io.2) ;;
  consoleLog2 (lit "LibreOffice stdout:") io.1 ;;
  convertedFile ← findConverted inputPdfPath possibleExtensions;
  match convertedFile with
  | Some path =>
      if truthy (JStr path) then
        (move path outputDocxPath ;;
         consoleLog (lit "LibreOffice method " ++ ordinal i
                       ++ lit " successful") ;;
         ret (Some outputDocxPath))
      else ret None
  | None => ret None
  end.

Fixpoint libreOfficeLoop (inputPdfPath outputDocxPath : str)
    (i : nat) (commands : list str) : Strategy :=
  match commands with
  | [] => throw (lit "All LibreOffice conversion methods failed")
  | command :: more =>
      r ← tryCatch (libreOfficeTry inputPdfPath outputDocxPath i command)
            (fun msg =>
               consoleLog2 (lit "LibreOffice method " ++ ordinal i
                              ++ lit " failed:") msg ;;
               match more with
               | [] => throw msg
               | _ :: _ => ret None
               end);
      match r with
      | Some path => ret path
      | None => libreOfficeLoop inputPdfPath outputDocxPath (S i) more
      end
  end.

Definition convertWithLibreOfficeAdvanced (inputPdfPath outputDocxPath : str)
  : Strategy :=
  libreOfficeLoop inputPdfPath outputDocxPath 0
    (conversionMethods inputPdfPath outputDocxPath).

Definition convertWithPdf2DocxAdvanced (inputPdfPath outputDocxPath : str)
  : Strategy :=
  tryCatch
    (lift (pdf2docx inputPdfPath outputDocxPath) ;;
     consoleLog (lit "pdf2docx advanced conversion successful") ;;
     ret outputDocxPath)
    (fun msg => throw (lit "pdf2docx conversion failed: " ++ msg)).

(** [DocxProcessor.createDocxFromTextAdvanced(content, outputPath)] *)
Definition createDocxFromTextAdvanced (content outputPath : str) : M str str :=
  tryCatch
    (children ← pure (sectionChildrenAdvanced content);
     buffer ← pure (pack children);
     writeFile writeError outputPath buffer ;;
     ret outputPath)
    (fun msg => throw (lit "Failed to create advanced DOCX: " ++ msg)).

Definition convertWithPdfParseAdvanced (inputPdfPath outputDocxPath : str)
  : Strategy :=
  tryCatch
    (dataBuffer ← readFile inputPdfPath;
     text ← pure (pdfParseWithOptions dataBuffer);
     createDocxFromTextAdvanced
       (AdvancedPdfToWordConverter.processTextWithAdvancedFormatting
          toUpperCase text)
       outputDocxPath ;;
     consoleLog (lit "Enhanced pdf-parse conversion successful") ;;
     ret outputDocxPath)
    (fun msg => throw (lit "Enhanced pdf-parse conversion failed: " ++ msg)).

Definition convertWithBasicExtraction (inputPdfPath outputDocxPath : str)
  : Strategy :=
  tryCatch
    (dataBuffer ← readFile inputPdfPath;
     text ← pure (pdfParse dataBuffer);
     createDocxFromText pack writeError (processTextBasic text) outputDocxPath ;;
     consoleLog (lit "Basic text extraction conversion successful") ;;
     ret outputDocxPath)
    (fun msg => throw (lit "Basic text extraction failed: " ++ msg)).

Definition convertPdfToWord (inputPdfPath outputDocxPath : str)
  : M event str :=
  cascade (run (convertWithLibreOfficeAdvanced inputPdfPath outputDocxPath))
          (run (convertWithPdf2DocxAdvanced inputPdfPath outputDocxPath))
          (run (convertWithPdfParseAdvanced inputPdfPath outputDocxPath))
          (run (convertWithBasicExtraction inputPdfPath outputDocxPath)).

End Collaborators.

End AdvancedStrategies.

(** ** server.js: the conversion endpoint *)

Module Server.

Import PdfToWordConverter.

(** an entry of the [uploadedPdfs] map *)
Record PdfUpload : Type := {
  id : str;
  originalFile : str;
  originalName : str;
  createdAt : str
}.

(** what the handler sends: [res.json] with the success object, or
    [res.status(code).json({ error })] *)
Inductive response : Type :=
| Success (downloadUrl fileName message : str)
| Failure (status : nat) (error : str).

(** [fs.statSync(path).size] *)
Definition statSize {E : Type} (path : str) : M E nat :=
  fun fs =>
    match (fs !! path : option str) with
    | Some content => (Returned (length content), [], fs)
    | None => (Thrown (lit "ENOENT: no such file or directory"), [], fs)
    end.

Definition decimal (n : nat) : str :=
  lit (DecimalString.NilZero.string_of_uint (Nat.to_uint n)).

(** [uploadedPdfs.get(fileId)]: the keys of the map are strings *)
Definition getUpload (uploadedPdfs : gmap str PdfUpload) (fileId : JsValue)
  : option PdfUpload :=
  match fileId with
  | JStr s => uploadedPdfs !! s
  | _ => None
  end.

Section Handler.

(** [AdvancedPdfToWordConverter.convertPdfToWord] *)
Variable convertPdfToWord : str -> str -> M event str.
(** [path.join(tempDir, name)] *)
Variable inTempDir : str -> str.

(** The handler of [POST /api/convert-pdf-to-word] for a request whose
    body holds [fileId].  The trace holds the lines of [console.log];
    what [console.error] prints is not part of it. *)
Definition convertPdfToWordHandler (uploadedPdfs : gmap str PdfUpload)
    (fileId : JsValue) : M event response :=
  if negb (truthy fileId) then ret (Failure 400 (lit "File ID is required"))
  else
    match getUpload uploadedPdfs fileId with
    | None => ret (Failure 404 (lit "PDF file not found"))
    | Some pdfFile =>
        let outputFileName := lit "converted-" ++ toString fileId ++ lit ".docx" in
        let outputPath := inTempDir outputFileName in
        tryCatch
          (run (consoleLog (lit "Converting PDF to Word: " ++ originalFile pdfFile
                              ++ lit " -> " ++ outputPath)) ;;
           convertPdfToWord (originalFile pdfFile) outputPath ;;
           created ← existsSync outputPath;
           (if created : bool then ret tt
            else throw (lit "Converted file was not created")) ;;
           size ← statSize outputPath;
           run (consoleLog2 (lit "Converted file size:") (decimal size)) ;;
           (if size =? 0 then throw (lit "Converted file is empty") else ret tt) ;;
           let downloadUrl := lit "/api/download/" ++ outputFileName in
           run (consoleLog2 (lit "Download URL created:") downloadUrl) ;;
           ret (Success downloadUrl outputFileName
                        (lit "PDF converted to Word successfully.")))
          (fun msg =>
             ret (Failure 500 (lit "Failed to convert PDF to Word: " ++ msg)))
    end.

End Handler.

End Server.

(** ** Shapes of text used in the statements *)

Module Shapes.

(** Header or footer XML in parsed form: character data and tags. *)
Inductive xmlPiece : Type :=
| CharData (s : str)
| Tag (body : str).

Definition renderPiece (p : xmlPiece) : str :=
  match p with
  | CharData s => s
  | Tag body => lit "<" ++ body ++ lit ">"
  end.

Definition renderXml (pieces : list xmlPiece) : str := pieces ≫= renderPiece.

(** the character data of the pieces, in order *)
Definition charData (pieces : list xmlPiece) : str :=
  pieces ≫= fun p => match p with CharData s => s | Tag _ => [] end.

(** character data holds no [<]; a tag has a name and holds no [>] *)
Definition wellFormed (p : xmlPiece) : Prop :=
  match p with
  | CharData s => without "<" s
  | Tag body => body <> [] /\ without ">" body
  end.

(** the paragraph of the table-row branch *)
Definition monospaceParagraph (paragraph : str) : Paragraph :=
  {| paragraphText := None;
     children := [ {| runText := paragraph; size := 24;
                      font := Some (lit "Courier New"); bold := false |} ];
     heading := None; numbering := None; bullet := None;
     spacing := (120, 120) |}.

(** the paragraph of the heading branch *)
Definition headingOf (level : nat) (text : str) : Paragraph :=
  {| paragraphText := Some text;
     children := [];
     heading := Some (headingLevel level);
     numbering := None; bullet := None;
     spacing := (240, 120) |}.

(** a paragraph that uses neither the numbering nor the bullet option *)
Definition unlisted (p : Paragraph) : Prop :=
  numbering p = None /\ bullet p = None.

End Shapes.
Import Shapes.

#[local] Instance wellFormed_dec (p : xmlPiece) : Decision (wellFormed p).
Proof. destruct p; unfold wellFormed, without; apply _. Defined.

#[local] Instance BlockKind_eq_dec : EqDecision AdvancedPdfToWordConverter.BlockKind.
Proof. solve_decision. Defined.

#[local] Instance SafeInteger_eq_dec : EqDecision SafeInteger.
Proof.
  intros [a Ha] [b Hb]. destruct (decide (a = b)) as [E | E].
  - left. subst b. f_equal. apply proof_irrel.
  - right. intros [= ?]. by apply E.
Defined.

#[local] Instance JsValue_eq_dec : EqDecision JsValue.
Proof. solve_decision. Defined.

(** ** Further collaborators used in the examples *)

Module Examples.

Import PdfToWordConverter.

(** an office suite that converts next to the input, under the name
    LibreOffice derives from [scan.PDF] *)
Definition sofficeConverts (command : str) (fs : gmap str str)
  : outcome (str * str) * gmap str str :=
  (Returned ([], []), <[lit "/tmp/scan.docx" := lit "PK"]> fs).

(** a PDF whose text is one capitalised line *)
Definition pdfParseIntroduction (_ : str) : outcome str :=
  Returned (lit "Introduction").

(** a converter that writes its artifact, as the endpoint sees it *)
Definition converterWriting (content : str) (input output : str) : M event str :=
  fun fs => (Returned output, [], <[output := content]> fs).

Definition inTmp (name : str) : str := lit "/tmp/" ++ name.

Definition uploaded : gmap str Server.PdfUpload :=
  {[ lit "f1" := {| Server.id := lit "f1";
                   Server.originalFile := lit "/uploads/f1-report.pdf";
                   Server.originalName := lit "report.pdf";
                   Server.createdAt := lit "2024-01-01T00:00:00.000Z" |} ]}.

End Examples.

(** ** The matcher agrees with the declarative reading *)

Section MatcherFacts.

Lemma star_iter (step : mstate -> list mstate) (R : mstate -> mstate -> Prop) :
  (forall st st', st' ∈ step st <-> R st st') ->
  forall n (st st' : mstate), length st.2 <= n ->
    (st' ∈ star step n st <-> iter R st st').
Proof.
  intros Hstep n. induction n as [|n IH]; intros st st' Hlen; simpl.
  - rewrite list_elem_of_singleton. split.
    + intros ->. constructor.
    + inversion 1; subst; [done | lia].
  - rewrite elem_of_app, list_elem_of_singleton, list_elem_of_bind. split.
    + intros [(m & Hin & Hm) | ->]; [| constructor].
      destruct (Nat.ltb_spec (length m.2) (length st.2)) as [Hlt|];
        [| by apply elem_of_nil in Hin].
      apply IH in Hin; [| lia].
      eapply iter_more; eauto. by apply Hstep.
    + inversion 1 as [| ? m ? HR Hlt Hit]; subst; [by right | left].
      exists m. split; [| by apply Hstep].
      destruct (Nat.ltb_spec (length m.2) (length st.2)); [| lia].
      apply IH; [lia | done].
Qed.

Theorem rmatch_den (r : regex) :
  forall st st' : mstate, st' ∈ rmatch r st <-> den r st st'.
Proof.
  induction r as [| c | p | r1 IH1 r2 IH2 | r1 IH1 r2 IH2 | r1 IH1 | r1 IH1];
    intros [cap s] st'; simpl.
  - by rewrite list_elem_of_singleton.
  - destruct s as [|x t]; simpl.
    + rewrite elem_of_nil. split; [done | intros [H _]; discriminate H].
    + destruct (Ascii.eqb_spec x c) as [->|Hne].
      * rewrite list_elem_of_singleton. destruct st' as [cap' t']; simpl.
        split; [by intros [= -> ->] | by intros [[= ->] ->]].
      * rewrite elem_of_nil. split; [done | intros [[= ? _] _]; done].
  - destruct s as [|x t]; simpl.
    + rewrite elem_of_nil. split; [done | intros (? & _ & H & _); discriminate H].
    + destruct (p x) eqn:Hp.
      * rewrite list_elem_of_singleton. destruct st' as [cap' t']; simpl.
        split; [intros [= -> ->]; by exists x | by intros (? & _ & [= _ ->] & ->)].
      * rewrite elem_of_nil.
        split; [done | intros (? & Hp' & [= <- _] & _); congruence].
  - rewrite list_elem_of_bind. split.
    + intros (m & H2 & H1). exists m. split; [by apply IH1 | by apply IH2].
    + intros (m & H1 & H2). exists m. split; [by apply IH2 | by apply IH1].
  - rewrite elem_of_app, IH1, IH2. done.
  - apply (star_iter _ _ IH1). done.
  - rewrite list_elem_of_fmap. split.
    + intros (m & -> & Hm). exists m. split; [by apply IH1 | done].
    + intros (m & Hm & ->). exists m. split; [done | by apply IH1].
Qed.

Lemma iter_cls (p : ascii -> bool) (st st' : mstate) :
  iter (den (Cls p)) st st' <->
  exists w, Forall (fun c => p c = true) w /\ st.2 = w ++ st'.2 /\ st'.1 = st.1.
Proof.
  split.
  - induction 1 as [st | st m st' (x & Hp & Hs & Hc) _ _ (w & Hw & Hs' & Hc')].
    + by exists [].
    + exists (x :: w). split; [by constructor |].
      rewrite Hs, Hs'. split; [done | congruence].
  - intros (w & Hw & Hs & Hc). revert st Hs Hc.
    induction Hw as [| x w Hx Hw IH]; intros [cap s] Hs Hc; simpl in *.
    + destruct st'; simpl in *; subst. constructor.
    + apply (iter_more _ _ (cap, w ++ st'.2)).
      * exists x. by rewrite Hs.
      * rewrite Hs. simpl. lia.
      * by apply IH.
Qed.

Lemma den_lits (k : str) (tail : regex) (st st' : mstate) :
  den (lits k tail) st st' <->
  exists m, st.2 = k ++ m.2 /\ m.1 = st.1 /\ den tail m st'.
Proof.
  revert st. induction k as [|c k IH]; intros st; simpl.
  - split.
    + intros H. by exists st.
    + intros ([] & Hs & Hc & H). destruct st; simpl in *; by subst.
  - split.
    + intros (m & [Hs Hc] & H). apply IH in H as (m' & Hs' & Hc' & H).
      exists m'. rewrite Hs, Hs'. split; [done | split; [congruence | done]].
    + intros (m & Hs & Hc & H). exists (st.1, k ++ m.2). split; [done |].
      apply IH. by exists m.
Qed.

End MatcherFacts.

(** ** Facts about strings *)

Section StringFacts.

Lemma trimStart_blank_app (a x : str) :
  blank a -> trimStart (a ++ x) = trimStart x.
Proof. induction 1 as [| c a Hc _ IH]; simpl; [done | by rewrite Hc]. Qed.

Lemma trimStart_blank (a : str) : blank a -> trimStart a = [].
Proof.
  intros H. rewrite <- (app_nil_r a). by rewrite trimStart_blank_app.
Qed.

Lemma trimStart_fixed (c : ascii) (x : str) :
  isSpace c = false -> trimStart (c :: x) = c :: x.
Proof. intros H. simpl. by rewrite H. Qed.

Lemma trimStart_split (s : str) : exists w, blank w /\ s = w ++ trimStart s.
Proof.
  induction s as [| c s (w & Hw & IH)]; simpl;
    [exists []; split; [constructor | done] |].
  destruct (isSpace c) eqn:Hc; [| exists []; split; [constructor | done]].
  exists (c :: w). split; [by constructor | simpl; by f_equal].
Qed.

Lemma trimStart_head (s : str) :
  trimStart s = [] \/ exists c t, trimStart s = c :: t /\ isSpace c = false.
Proof.
  induction s as [| c s IH]; simpl; [by left |].
  destruct (isSpace c) eqn:Hc; [done | right; eauto].
Qed.

Lemma trimStart_idem (s : str) : trimStart (trimStart s) = trimStart s.
Proof.
  destruct (trimStart_head s) as [-> | (c & t & -> & Hc)]; [done |].
  by apply trimStart_fixed.
Qed.

Lemma trimStart_nil (s : str) : trimStart s = [] -> blank s.
Proof.
  intros H. destruct (trimStart_split s) as (w & Hw & Hs).
  rewrite H, app_nil_r in Hs. by subst.
Qed.

Lemma trimStart_app (s b : str) :
  trimStart s <> [] -> trimStart (s ++ b) = trimStart s ++ b.
Proof.
  induction s as [| c s IH]; simpl; [done |].
  destruct (isSpace c); [exact IH | done].
Qed.

Lemma blank_rev (w : str) : blank w -> blank (rev w).
Proof. apply List.Forall_rev. Qed.

Lemma blank_app (a b : str) : blank a -> blank b -> blank (a ++ b).
Proof. apply Forall_app_2. Qed.

Lemma trimEnd_blank_app (x b : str) : blank b -> trimEnd (x ++ b) = trimEnd x.
Proof.
  intros H. unfold trimEnd. rewrite rev_app_distr.
  by rewrite trimStart_blank_app by by apply blank_rev.
Qed.

Lemma trimEnd_split (s : str) : exists w, blank w /\ s = trimEnd s ++ w.
Proof.
  destruct (trimStart_split (rev s)) as (w & Hw & Hs).
  exists (rev w). split; [by apply blank_rev |].
  unfold trimEnd. rewrite <- rev_app_distr, <- Hs. by rewrite rev_involutive.
Qed.

Lemma trimEnd_idem (s : str) : trimEnd (trimEnd s) = trimEnd s.
Proof. unfold trimEnd. by rewrite rev_involutive, trimStart_idem. Qed.

Lemma trim_pad (a c b : str) :
  blank a -> blank b -> trim (a ++ c ++ b) = trim c.
Proof.
  intros Ha Hb. unfold trim. rewrite trimStart_blank_app by done.
  destruct (trimStart c) as [| x t] eqn:Hc.
  - apply trimStart_nil in Hc.
    by rewrite (trimStart_blank (c ++ b)) by by apply blank_app.
  - rewrite trimStart_app by by rewrite Hc.
    rewrite Hc. by apply trimEnd_blank_app.
Qed.

Theorem trim_idem (s : str) : trim (trim s) = trim s.
Proof.
  unfold trim.
  assert (trimStart (trimEnd (trimStart s)) = trimEnd (trimStart s)) as ->;
    [| apply trimEnd_idem].
  destruct (trimEnd_split (trimStart s)) as (w & _ & Hy).
  destruct (trimEnd (trimStart s)) as [| c t] eqn:He; [done |].
  destruct (trimStart_head s) as [H0 | (c' & t' & Hs & Hc')].
  - rewrite H0 in Hy. discriminate Hy.
  - rewrite Hs in Hy. injection Hy as -> _. by apply trimStart_fixed.
Qed.

Lemma blank_without (c : ascii) (w : str) :
  isSpace c = false -> blank w -> without c w.
Proof.
  intros Hc Hw. eapply Forall_impl; [exact Hw |].
  intros x Hx ->. congruence.
Qed.

(** the text before the first [c] is determined *)
Lemma first_occurrence (c : ascii) (x x' y y' : str) :
  without c x -> without c x' ->
  x ++ c :: y = x' ++ c :: y' -> x = x' /\ y = y'.
Proof.
  intros Hx. revert x'. induction Hx as [| a x Ha _ IH]; intros x' Hx' E.
  - destruct Hx' as [| a' x' Ha' _]; simpl in E; [by injection E |].
    injection E as <- _. done.
  - destruct Hx' as [| a' x' Ha' Hx']; simpl in E.
    + injection E as -> _. done.
    + injection E as -> E. by destruct (IH _ Hx' E) as [-> ->].
Qed.

Lemma without_app (c : ascii) (a b : str) :
  without c a -> without c b -> without c (a ++ b).
Proof. apply Forall_app_2. Qed.

Lemma take_consumed (c r : str) :
  take (length (c ++ r) - length r) (c ++ r) = c.
Proof.
  replace (length (c ++ r) - length r) with (length c)
    by (rewrite length_app; lia).
  apply take_app_length.
Qed.

Lemma validName_padded (w1 n w2 : str) :
  blank w1 -> blank w2 -> validName n -> trim (w1 ++ n ++ w2) = n.
Proof. intros H1 H2 (_ & Hn & _). by rewrite trim_pad. Qed.

End StringFacts.

(** ** The two placeholder patterns *)

Section PatternFacts.

Lemma den_star_cls (p : ascii -> bool) (st st' : mstate) :
  den (Star (Cls p)) st st' <->
  exists w, Forall (fun c => p c = true) w /\ st.2 = w ++ st'.2 /\ st'.1 = st.1.
Proof. apply iter_cls. Qed.

Lemma den_plus_cls (p : ascii -> bool) (st st' : mstate) :
  den (Plus (Cls p)) st st' <->
  exists w, w <> [] /\ Forall (fun c => p c = true) w /\
            st.2 = w ++ st'.2 /\ st'.1 = st.1.
Proof.
  unfold Plus. cbn [den]. split.
  - intros (m & (x & Hx & Hs & Hc) & Hit).
    apply iter_cls in Hit as (w & Hw & Hs' & Hc').
    exists (x :: w). split; [done |]. split; [by constructor |].
    rewrite Hs, Hs'. split; [done | congruence].
  - intros (w & Hne & Hw & Hs & Hc).
    destruct Hw as [| x w Hx Hw]; [done |].
    exists (st.1, w ++ st'.2). split; [by exists x |].
    apply iter_cls. by exists w.
Qed.

Lemma notChar_true (c x : ascii) : notChar c x = true <-> x <> c.
Proof.
  unfold notChar. destruct (Ascii.eqb_spec x c); simpl; split; congruence.
Qed.

Lemma without_notChar (c : ascii) (w : str) :
  Forall (fun x => notChar c x = true) w <-> without c w.
Proof. unfold without. apply Forall_iff. intros x. apply notChar_true. Qed.

(** The matches of [variableRegex] at the start of [s]. *)
Lemma variableRegex_spec (s : str) (st' : mstate) :
  st' ∈ rmatch variableRegex (None, s) <->
  exists a c b, blank a /\ blank b /\ c <> [] /\ without "}" c /\
    s = lit "{{" ++ a ++ c ++ b ++ lit "}}" ++ st'.2 /\ st'.1 = Some c.
Proof.
  rewrite rmatch_den. unfold variableRegex.
  cbn [den]. setoid_rewrite den_star_cls. setoid_rewrite den_plus_cls.
  split.
  - intros ([c1 s1] & [Hs1 Hc1] & [c2 s2] & [Hs2 Hc2] & [c3 s3]
            & (a & Ha & Hs3 & Hc3) & [c4 s4]
            & ([c4' s4'] & (c & Hne & Hc & Hs4 & Hc4) & H4) & [c5 s5]
            & (b & Hb & Hs5 & Hc5) & [c6 s6] & [Hs6 Hc6] & [Hs7 Hc7]).
    simpl in *. injection H4 as -> ->. subst.
    exists a, c, b. apply without_notChar in Hc.
    repeat split; try done.
    rewrite Hc7. f_equal. apply take_consumed.
  - intros (a & c & b & Ha & Hb & Hne & Hc & -> & Hcap).
    exists (None, "{"%char :: a ++ c ++ b ++ lit "}}" ++ st'.2). split; [done |].
    exists (None, a ++ c ++ b ++ lit "}}" ++ st'.2). split; [done |].
    exists (None, c ++ b ++ lit "}}" ++ st'.2). split; [by exists a |].
    exists (Some c, b ++ lit "}}" ++ st'.2). split.
    { exists (None, b ++ lit "}}" ++ st'.2). split.
      - exists c. by rewrite without_notChar.
      - simpl. f_equal. f_equal. symmetry. apply take_consumed. }
    exists (Some c, lit "}}" ++ st'.2). split; [by exists b |].
    exists (Some c, "}"%char :: st'.2). done.
Qed.

(** The matches of the pattern of a plain key at the start of [s]. *)
Lemma nameRegex_spec (k : str) (cap : option str) (s : str) (st' : mstate) :
  st' ∈ rmatch (nameRegex k) (cap, s) <->
  exists a b, blank a /\ blank b /\
    s = lit "{{" ++ a ++ k ++ b ++ lit "}}" ++ st'.2 /\ st'.1 = cap.
Proof.
  rewrite rmatch_den. unfold nameRegex.
  cbn [den]. setoid_rewrite den_lits. cbn [den].
  setoid_rewrite den_star_cls.
  split.
  - intros ([c1 s1] & [Hs1 Hc1] & [c2 s2] & [Hs2 Hc2] & [c3 s3]
            & (a & Ha & Hs3 & Hc3) & [c4 s4] & Hs4 & Hc4 & [c5 s5]
            & (b & Hb & Hs5 & Hc5) & [c6 s6] & [Hs6 Hc6] & [c7 s7]
            & [Hs7 Hc7] & H8).
    simpl in *. subst. exists a, b. simpl. done.
  - intros (a & b & Ha & Hb & -> & Hcap).
    exists (cap, "{"%char :: a ++ k ++ b ++ lit "}}" ++ st'.2). split; [done |].
    exists (cap, a ++ k ++ b ++ lit "}}" ++ st'.2). split; [done |].
    exists (cap, k ++ b ++ lit "}}" ++ st'.2). split; [by exists a |].
    exists (cap, b ++ lit "}}" ++ st'.2). split; [done |]. split; [done |].
    exists (cap, lit "}}" ++ st'.2). split; [by exists b |].
    exists (cap, "}"%char :: st'.2). split; [done |].
    exists (cap, st'.2). split; [done |].
    destruct st'; simpl in *; by subst.
Qed.

End PatternFacts.

(** ** The pattern compiled for a plain key *)

Section CompileFacts.

Lemma plain_char (c : ascii) :
  isSyntaxChar c = false ->
  Ascii.eqb c "\" = false /\ charToken c = TAtom (Chr c).
Proof.
  intros H. split.
  - destruct (Ascii.eqb_spec c "\") as [-> |]; [discriminate H | done].
  - unfold charToken.
    destruct (Ascii.eqb_spec c "*") as [-> |]; [discriminate H |].
    destruct (Ascii.eqb_spec c "+") as [-> |]; [discriminate H |].
    destruct (Ascii.eqb_spec c "?") as [-> |]; [discriminate H |].
    destruct (Ascii.eqb_spec c ".") as [-> |]; [discriminate H |].
    by rewrite H.
Qed.

Lemma tokenize_plain (k rest : str) :
  Forall (fun c => isSyntaxChar c = false) k ->
  tokenize false (k ++ rest) = atoms k ++ tokenize false rest.
Proof.
  induction 1 as [| c k Hc _ IH]; [done |].
  destruct (plain_char c Hc) as [Hb Ht]. simpl. by rewrite Hb, Ht, IH.
Qed.

Lemma existsb_atoms (k : str) : existsb isOther (atoms k) = false.
Proof. by induction k. Qed.

Lemma parseTerms_atom_atom (a b : regex) (rest : list token) :
  parseTerms (TAtom a :: TAtom b :: rest)
  = andThen a (parseTerms (TAtom b :: rest)).
Proof. done. Qed.

Lemma parseTerms_atoms (k : str) (a : regex) (rest : list token) :
  parseTerms (atoms k ++ TAtom a :: rest)
  = match parseTerms (TAtom a :: rest) with
    | Compiled r => Compiled (lits k r)
    | other => other
    end.
Proof.
  induction k as [| c k IH].
  - simpl app. by destruct (parseTerms (TAtom a :: rest)).
  - assert (parseTerms (atoms (c :: k) ++ TAtom a :: rest)
            = andThen (Chr c) (parseTerms (atoms k ++ TAtom a :: rest))) as ->.
    { destruct k; apply parseTerms_atom_atom. }
    rewrite IH. by destruct (parseTerms (TAtom a :: rest)).
Qed.

Theorem compile_plain (k : str) :
  Forall (fun c => isSyntaxChar c = false) k ->
  compile (patternSource k) = Compiled (nameRegex k).
Proof.
  intros Hk. unfold compile, patternSource.
  change (tokenize false (lit "\{\{\s*" ++ k ++ lit "\s*\}\}"))
    with ([TAtom (Chr "{"); TAtom (Chr "{"); TAtom (Cls isSpace); TStar]
            ++ tokenize false (k ++ lit "\s*\}\}")).
  rewrite (tokenize_plain _ _ Hk).
  change (tokenize false (lit "\s*\}\}"))
    with [TAtom (Cls isSpace); TStar; TAtom (Chr "}"); TAtom (Chr "}")].
  rewrite !existsb_app, existsb_atoms. cbn [existsb isOther orb app].
  assert (forall x r,
    parseTerms (TAtom (Chr "{") :: TAtom (Chr "{") :: TAtom (Cls isSpace)
                  :: TStar :: TAtom x :: r)
    = andThen (Chr "{") (andThen (Chr "{") (andThen (Star (Cls isSpace))
                (parseTerms (TAtom x :: r))))) as Hfront by done.
  pose proof (parseTerms_atoms k (Cls isSpace)
                [TStar; TAtom (Chr "}"); TAtom (Chr "}")]) as Hk'.
  cbn [parseTerms andThen] in Hk'.
  destruct k as [| c k]; [done |].
  change (atoms (c :: k) ++ ?t) with (TAtom (Chr c) :: (atoms k ++ t)) in *.
  rewrite Hfront. rewrite Hk'. done.
Qed.

End CompileFacts.

(** ** The scan over a subject *)

Section ScanFacts.

Variable r : regex.

Lemma scan_none (bef : str) (c : ascii) (t : str) :
  matchHere r (c :: t) = None ->
  scan r bef (c :: t) 0 = Plain c :: scan r (bef ++ [c]) t 0.
Proof. intros H. cbn [scan]. by rewrite H. Qed.

Lemma scan_skip (u bef rest : str) :
  scan r bef (u ++ rest) (length u) = scan r (bef ++ u) rest 0.
Proof.
  revert bef. induction u as [| c u IH]; intros bef.
  - by rewrite app_nil_r.
  - cbn [scan app length]. rewrite IH. by rewrite <- app_assoc.
Qed.

Lemma scan_hit (m : str) (cap : option str) (bef rest : str) :
  m <> [] ->
  matchHere r (m ++ rest) = Some (cap, rest) ->
  scan r bef (m ++ rest) 0
  = Found (Hit m cap bef rest) :: scan r (bef ++ m) rest 0.
Proof.
  intros Hm H. destruct m as [| c m]; [done |].
  change ((c :: m) ++ rest) with (c :: (m ++ rest)) in *.
  cbn [scan]. rewrite H.
  replace (length (c :: m ++ rest) - length rest) with (S (length m))
    by (cbn [length]; rewrite length_app; lia).
  cbn [Nat.eqb app]. rewrite Nat.sub_1_r. cbn [Nat.pred].
  rewrite scan_skip. rewrite <- app_assoc.
  change (take (S (length m)) (c :: m ++ rest))
    with (c :: take (length m) (m ++ rest)).
  by rewrite take_app_length.
Qed.

Lemma scan_quiet (u bef rest : str) :
  (forall v1 v2, u = v1 ++ v2 -> v2 <> [] -> matchHere r (v2 ++ rest) = None) ->
  scan r bef (u ++ rest) 0 = (Plain <$> u) ++ scan r (bef ++ u) rest 0.
Proof.
  revert bef. induction u as [| c u IH]; intros bef H.
  - by rewrite app_nil_r.
  - change ((c :: u) ++ rest) with (c :: (u ++ rest)).
    rewrite scan_none by (apply (H [] (c :: u)); done).
    rewrite IH.
    + by rewrite <- app_assoc.
    + intros v1 v2 -> Hv. by apply (H (c :: v1) v2).
Qed.

End ScanFacts.

Section OpeningFacts.

Lemma head_unique {A : Type} (l : list A) (x : A) :
  x ∈ l -> (forall y, y ∈ l -> y = x) -> head l = Some x.
Proof.
  destruct l as [| y l]; intros Hx Hall; [by apply elem_of_nil in Hx |].
  simpl. f_equal. apply Hall. by left.
Qed.

Lemma head_absent {A : Type} (l : list A) :
  (forall y, y ∉ l) -> head l = None.
Proof. intros H. apply head_None. by apply elem_of_nil_inv. Qed.

(** A pattern that starts with two opening braces matches only where
    the subject has them. *)
Lemma no_opening (r' : regex) (s : str) :
  (forall t, s <> "{"%char :: "{"%char :: t) ->
  matchHere (Seq (Chr "{") (Seq (Chr "{") r')) s = None.
Proof.
  intros H. apply head_absent. intros y Hy.
  apply rmatch_den in Hy. cbn [den] in Hy.
  destruct Hy as ([c1 s1] & [Hs1 _] & [c2 s2] & [Hs2 _] & _).
  simpl in *. subst. by eapply H.
Qed.

Lemma lit_quiet (u rest v1 v2 : str) :
  without "{" u -> u = v1 ++ v2 -> v2 <> [] ->
  forall t, v2 ++ rest <> "{"%char :: "{"%char :: t.
Proof.
  intros Hu -> Hv t. destruct v2 as [| c v2]; [done |].
  apply Forall_app in Hu as [_ Hu]. apply Forall_cons in Hu as [Hc _].
  intros [= -> _]. done.
Qed.

Lemma tail_quiet (body rest v1 v2 : str) :
  without "{" body -> body <> [] ->
  "{"%char :: body = v1 ++ v2 -> v2 <> [] ->
  forall t, v2 ++ rest <> "{"%char :: "{"%char :: t.
Proof.
  intros Hb Hne E Hv t. destruct v1 as [| x v1]; simpl in E.
  - subst v2. destruct body as [| b body]; [done |].
    apply Forall_cons in Hb as [Hb _]. intros [= ->]. done.
  - injection E as _ E. by eapply lit_quiet.
Qed.

Lemma getSubstitution_inert (h : hit) (v : str) :
  without "$" v -> getSubstitution h v = v.
Proof.
  induction 1 as [| c v Hc _ IH]; [done |].
  cbn [getSubstitution].
  destruct (Ascii.eqb_spec c "$"); [done | by rewrite IH].
Qed.

Lemma emit_plain (v u : str) : (Plain <$> u) ≫= emit v = u.
Proof. induction u as [| c u IH]; [done |]. simpl. by f_equal. Qed.

Lemma hits_plain (u : str) : hits (Plain <$> u) = [].
Proof. by induction u. Qed.

Lemma hits_app (a b : list piece) : hits (a ++ b) = hits a ++ hits b.
Proof. unfold hits. apply bind_app. Qed.

End OpeningFacts.

(** ** Placeholders in valid template text *)

Section TemplateFacts.

Lemma render_cons (it : item) (items : list item) :
  render (it :: items) = renderItem it ++ render items.
Proof. done. Qed.

Lemma renderItem_Ph (w1 n w2 : str) :
  renderItem (Ph w1 n w2)
  = "{"%char :: "{"%char :: (w1 ++ n ++ w2 ++ lit "}}").
Proof. done. Qed.

Lemma ph_nonempty (w1 n w2 : str) : renderItem (Ph w1 n w2) <> [].
Proof. by rewrite renderItem_Ph. Qed.

Lemma ph_text (w1 n w2 rest : str) :
  renderItem (Ph w1 n w2) ++ rest
  = lit "{{" ++ w1 ++ n ++ w2 ++ lit "}}" ++ rest.
Proof. rewrite renderItem_Ph. simpl. by rewrite <- !app_assoc. Qed.

Lemma inside_without (w1 n w2 : str) :
  blank w1 -> blank w2 -> without "}" n -> without "}" (w1 ++ n ++ w2).
Proof.
  intros H1 H2 Hn.
  repeat apply without_app; try done; by apply blank_without.
Qed.

(** two readings of the same placeholder text agree on what lies
    between the braces and on what follows *)
Lemma ph_unique (a c b a' c' b' rest rest' : str) :
  without "}" (a ++ c ++ b) -> without "}" (a' ++ c' ++ b') ->
  lit "{{" ++ a ++ c ++ b ++ lit "}}" ++ rest
  = lit "{{" ++ a' ++ c' ++ b' ++ lit "}}" ++ rest' ->
  a ++ c ++ b = a' ++ c' ++ b' /\ rest = rest'.
Proof.
  intros Hx Hx' E. simpl in E. injection E as E.
  assert ((a ++ c ++ b) ++ "}"%char :: ("}"%char :: rest)
          = (a' ++ c' ++ b') ++ "}"%char :: ("}"%char :: rest')) as E'
    by (rewrite <- !app_assoc; exact E).
  destruct (first_occurrence _ _ _ _ _ Hx Hx' E') as [-> [= ->]]. done.
Qed.

Lemma matchHere_name_hit (k w1 w2 rest : str) :
  blank w1 -> blank w2 -> without "}" k ->
  matchHere (nameRegex k) (renderItem (Ph w1 k w2) ++ rest) = Some (None, rest).
Proof.
  intros H1 H2 Hk. rewrite ph_text. apply head_unique.
  - apply nameRegex_spec. by exists w1, w2.
  - intros [cap s'] (a & b & Ha & Hb & E & Hc)%nameRegex_spec.
    cbn [fst snd] in Hc, E. subst cap. f_equal.
    apply ph_unique in E as [_ ->]; [done | |]; by apply inside_without.
Qed.

Lemma matchHere_name_miss (k n w1 w2 rest : str) :
  blank w1 -> blank w2 -> validName n -> validName k -> n <> k ->
  matchHere (nameRegex k) (renderItem (Ph w1 n w2) ++ rest) = None.
Proof.
  intros H1 H2 Hn Hk Hne. rewrite ph_text. apply head_absent.
  intros [cap s'] (a & b & Ha & Hb & E & _)%nameRegex_spec.
  cbn [fst snd] in E.
  apply ph_unique in E as [E _].
  - apply (f_equal trim) in E.
    rewrite !validName_padded in E by done. done.
  - apply inside_without; try done. apply Hn.
  - apply inside_without; try done. apply Hk.
Qed.

Lemma matchHere_variable_hit (n w1 w2 rest : str) :
  blank w1 -> blank w2 -> validName n ->
  exists c, matchHere variableRegex (renderItem (Ph w1 n w2) ++ rest)
            = Some (Some c, rest) /\ trim c = n.
Proof.
  intros H1 H2 Hn. rewrite ph_text. unfold matchHere.
  set (L := rmatch variableRegex _).
  assert ((Some n, rest) ∈ L) as Hin0.
  { apply variableRegex_spec. exists w1, n, w2.
    destruct Hn as (? & ? & ?). done. }
  destruct (head L) as [[cap s'] |] eqn:Eh.
  - apply head_Some_elem_of in Eh.
    apply variableRegex_spec in Eh
      as (a & c & b & Ha & Hb & Hne & Hc & E & Hcap).
    cbn [fst snd] in Hcap, E. subst cap. exists c.
    apply ph_unique in E as [E ->].
    + split; [done |]. apply (f_equal trim) in E.
      rewrite validName_padded in E by done.
      by rewrite trim_pad in E.
    + apply inside_without; try done. apply Hn.
    + by apply inside_without.
  - apply head_None in Eh. rewrite Eh in Hin0. by apply elem_of_nil in Hin0.
Qed.

(** Every match of [variableRegex] lies between the delimiters, takes at
    least five characters (so the [exec] loop advances), and its trimmed
    capture is the trimmed text between the delimiters. *)
Lemma matchHere_variable_shape (s : str) (cap : option str) (rest : str) :
  matchHere variableRegex s = Some (cap, rest) ->
  exists body,
    s = lit "{{" ++ body ++ lit "}}" ++ rest /\ body <> [] /\
    without "}" body /\ trim (default [] cap) = trim body /\
    length rest + 5 <= length s.
Proof.
  intros H. apply head_Some_elem_of in H.
  apply variableRegex_spec in H as (a & c & b & Ha & Hb & Hne & Hc & E & Hcap).
  cbn [fst snd] in E, Hcap. subst cap. exists (a ++ c ++ b).
  split; [by rewrite E, <- !app_assoc |].
  split; [by destruct a, c |].
  split; [by apply inside_without |].
  split; [by rewrite trim_pad |].
  rewrite E. destruct c; [done |].
  rewrite !length_app. simpl. lia.
Qed.

Lemma matchHere_empty (r' : regex) :
  matchHere (Seq (Chr "{") (Seq (Chr "{") r')) [] = None.
Proof. by apply no_opening. Qed.

(** The scan for [variableRegex] over valid template text finds the
    placeholders, and the trimmed captures are their names. *)
Lemma extract_items (items : list item) (bef : str) :
  Forall validItem items ->
  (fun h => trim (group1 h)) <$> hits (scan variableRegex bef (render items) 0)
  = names items.
Proof.
  intros H. revert bef.
  induction H as [| it items Hit _ IH]; intros bef; [done |].
  rewrite render_cons. destruct it as [s | w1 n w2].
  - rewrite scan_quiet.
    + rewrite hits_app, hits_plain. apply IH.
    + intros v1 v2 E Hv. apply no_opening. by eapply lit_quiet.
  - destruct Hit as (H1 & H2 & Hn).
    destruct (matchHere_variable_hit n w1 w2 (render items) H1 H2 Hn)
      as (c & Hm & Hc).
    rewrite (scan_hit _ _ _ _ _ (ph_nonempty w1 n w2) Hm).
    change (hits (Found ?h :: ?l)) with (h :: hits l).
    rewrite fmap_cons.
    change (trim (group1 (Hit _ (Some c) _ _))) with (trim c). rewrite Hc.
    change (names (Ph w1 n w2 :: items)) with (n :: names items).
    f_equal. apply IH.
Qed.

Lemma strict_valid (it : item) : strictItem it -> validItem it.
Proof. by intros [H _]. Qed.

Lemma substKey_strict (k v : str) (it : item) :
  without "{" v -> strictItem it -> strictItem (substKey k v it).
Proof.
  intros Hv Hit. destruct it as [s | w1 n w2]; [done |].
  simpl. unfold str_eqb. case_bool_decide; [by split | done].
Qed.

(** A global [replace] with the pattern of a plain key rewrites the
    placeholders of that key and copies everything else. *)
Lemma replace_items (k v : str) (items : list item) (bef : str) :
  validName k -> inert v -> Forall strictItem items ->
  scan (nameRegex k) bef (render items) 0 ≫= emit v
  = render (substKey k v <$> items).
Proof.
  intros Hk [Hv _] H. revert bef.
  induction H as [| it items Hit _ IH]; intros bef; [done |].
  rewrite fmap_cons, !render_cons. destruct it as [s | w1 n w2].
  - destruct Hit as [Hs _]. rewrite scan_quiet.
    + rewrite bind_app, emit_plain. f_equal. apply IH.
    + intros v1 v2 E Hne. apply no_opening. by eapply lit_quiet.
  - destruct Hit as [(H1 & H2 & Hn) Hopen].
    cbn [substKey]. unfold str_eqb. case_bool_decide as Hnk.
    + subst n. destruct Hn as (_ & _ & Hn).
      rewrite (scan_hit _ _ _ _ _ (ph_nonempty w1 k w2)
                 (matchHere_name_hit k w1 w2 (render items) H1 H2 Hn)).
      rewrite bind_cons. cbn [emit]. rewrite getSubstitution_inert by done.
      cbn [renderItem]. f_equal. apply IH.
    + rewrite scan_quiet.
      * rewrite bind_app, emit_plain. f_equal. apply IH.
      * intros v1 v2 E Hne. destruct v1 as [| x v1].
        { simpl in E. subst v2. by apply matchHere_name_miss. }
        rewrite renderItem_Ph in E.
        change ((x :: v1) ++ v2) with (x :: (v1 ++ v2)) in E.
        injection E as _ E.
        apply no_opening.
        eapply (tail_quiet (w1 ++ n ++ w2 ++ lit "}}")); try done.
        -- repeat apply without_app; try done.
           ++ by apply blank_without.
           ++ by apply blank_without.
           ++ by repeat constructor.
        -- destruct w1, n, w2; done.
Qed.

End TemplateFacts.

(** ** Sets of names *)

Section SetFacts.

Lemma elem_of_setAdd (x y : str) (l : list str) :
  y ∈ setAdd x l <-> y = x \/ y ∈ l.
Proof.
  unfold setAdd. case_bool_decide as Hx.
  - split; [by right | intros [-> | H]; done].
  - rewrite elem_of_app, list_elem_of_singleton. tauto.
Qed.

Lemma NoDup_setAdd (x : str) (l : list str) : NoDup l -> NoDup (setAdd x l).
Proof.
  intros H. unfold setAdd. case_bool_decide as Hx; [done |].
  apply NoDup_app. split; [done |]. split.
  - intros y Hy ->%list_elem_of_singleton. done.
  - apply NoDup_singleton.
Qed.

Lemma foldl_setAdd_fmap {A : Type} (g : A -> str) (l : list A) (vars : list str) :
  foldl (fun vs h => setAdd (g h) vs) vars l
  = foldl (fun vs n => setAdd n vs) vars (g <$> l).
Proof. revert vars. induction l as [| h l IH]; intros vars; [done | apply IH]. Qed.

Lemma elem_of_foldl_setAdd (ns vars : list str) (y : str) :
  y ∈ foldl (fun vs n => setAdd n vs) vars ns <-> y ∈ vars \/ y ∈ ns.
Proof.
  revert vars. induction ns as [| n ns IH]; intros vars; simpl.
  - rewrite elem_of_nil. tauto.
  - rewrite IH, elem_of_setAdd, elem_of_cons. tauto.
Qed.

Lemma NoDup_foldl_setAdd (ns vars : list str) :
  NoDup vars -> NoDup (foldl (fun vs n => setAdd n vs) vars ns).
Proof.
  revert vars. induction ns as [| n ns IH]; intros vars H; [done |].
  simpl. apply IH. by apply NoDup_setAdd.
Qed.

Lemma addVariables_fmap (vars : list str) (text : str) :
  addVariables vars text
  = foldl (fun vs n => setAdd n vs) vars
      ((fun h => trim (group1 h)) <$> hits (scan variableRegex [] text 0)).
Proof. unfold addVariables. apply foldl_setAdd_fmap. Qed.

Lemma addVariables_names (vars : list str) (items : list item) :
  Forall validItem items ->
  addVariables vars (render items)
  = foldl (fun vs n => setAdd n vs) vars (names items).
Proof. intros H. by rewrite addVariables_fmap, extract_items. Qed.

Lemma addVariables_trimmed (vars : list str) (text : str) :
  Forall (fun n => trim n = n) vars ->
  Forall (fun n => trim n = n) (addVariables vars text).
Proof.
  intros Hv. apply Forall_forall. intros y Hy.
  rewrite addVariables_fmap in Hy. apply elem_of_foldl_setAdd in Hy as [Hy | Hy].
  - by eapply Forall_forall in Hv.
  - apply list_elem_of_fmap in Hy as (h & -> & _). apply trim_idem.
Qed.

Lemma addVariables_NoDup (vars : list str) (text : str) :
  NoDup vars -> NoDup (addVariables vars text).
Proof. intros H. rewrite addVariables_fmap. by apply NoDup_foldl_setAdd. Qed.

Lemma names_sameUpToBlanks (items items' : list item) :
  Forall2 sameUpToBlanks items items' -> names items = names items'.
Proof.
  induction 1 as [| a b items items' Hab _ IH]; [done |].
  destruct a, b; simpl in Hab; try done; subst; cbn; by f_equal.
Qed.

End SetFacts.

(** ** [replaceVariables] on valid template text *)

Section SubstitutionFacts.

Variable variables : ValueMap.

Lemma replaceVariables_fold (ks : list str) (items : list item) :
  Forall strictItem items ->
  Forall plainName ks ->
  Forall (fun k => inert (replacement variables k)) ks ->
  foldl (replaceStep variables) (Some (Returned (render items))) ks
  = Some (Returned (render
      (foldl (fun its k => substKey k (replacement variables k) <$> its)
             items ks))).
Proof.
  intros Hitems Hks. revert items Hitems.
  induction Hks as [| k ks [Hk Hplain] _ IH]; intros items Hitems Hv; [done |].
  apply Forall_cons in Hv as [Hv Hvs]. cbn [foldl].
  assert (replaceStep variables (Some (Returned (render items))) k
          = Some (Returned (render (substKey k (replacement variables k)
                                      <$> items)))) as ->.
  { cbn [replaceStep]. unfold replaceOne. rewrite compile_plain by done.
    do 2 f_equal. unfold replaceAll. by apply replace_items. }
  apply IH; [| done].
  apply Forall_fmap. eapply Forall_impl; [exact Hitems |].
  intros it Hit. apply substKey_strict; [apply Hv | done].
Qed.

Lemma foldl_substKey (f : str -> str) (ks : list str) (items : list item) :
  foldl (fun its k => substKey k (f k) <$> its) items ks
  = (fun it => foldl (fun it k => substKey k (f k) it) it ks) <$> items.
Proof.
  revert items. induction ks as [| k ks IH]; intros items; simpl.
  - by rewrite list_fmap_id.
  - rewrite IH. by rewrite <- list_fmap_compose.
Qed.

Lemma foldl_substKey_Lit (f : str -> str) (ks : list str) (s : str) :
  foldl (fun it k => substKey k (f k) it) (Lit s) ks = Lit s.
Proof. induction ks as [| k ks IH]; [done | exact IH]. Qed.

Lemma foldl_substKey_Ph (f : str -> str) (ks : list str) (w1 n w2 : str) :
  foldl (fun it k => substKey k (f k) it) (Ph w1 n w2) ks
  = if bool_decide (n ∈ ks) then Lit (f n) else Ph w1 n w2.
Proof.
  induction ks as [| k ks IH]; [done |].
  cbn [foldl substKey]. unfold str_eqb.
  destruct (decide (n = k)) as [<- | Hne].
  - rewrite (bool_decide_eq_true_2 (n = n)) by done.
    rewrite foldl_substKey_Lit.
    rewrite bool_decide_eq_true_2; [done | by left].
  - rewrite (bool_decide_eq_false_2 (n = k)) by done.
    rewrite IH. rewrite (bool_decide_ext (n ∈ k :: ks) (n ∈ ks)); [done |].
    rewrite elem_of_cons. split; [by intros [? | ?] | by right].
Qed.

Theorem replaceVariables_valid (items : list item) :
  Forall strictItem items ->
  Forall plainName (keys variables) ->
  Forall (fun k => inert (replacement variables k)) (keys variables) ->
  replaceVariables (render items) variables
  = Some (Returned (render (substItem variables <$> items))).
Proof.
  intros Hitems Hks Hv. unfold replaceVariables.
  change (foldl _ (Some (Returned (render items))) (keys variables))
    with (foldl (replaceStep variables) (Some (Returned (render items)))
          (keys variables)).
  rewrite replaceVariables_fold by done.
  rewrite foldl_substKey. do 3 f_equal.
  apply list_fmap_ext. intros _ [s | w1 n w2] _.
  - apply foldl_substKey_Lit.
  - apply foldl_substKey_Ph.
Qed.

Lemma render_app (a b : list item) : render (a ++ b) = render a ++ render b.
Proof. unfold render. apply bind_app. Qed.

Lemma substItem_strict (it : item) :
  Forall (fun k => inert (replacement variables k)) (keys variables) ->
  strictItem it -> strictItem (substItem variables it).
Proof.
  intros Hv Hit. destruct it as [s | w1 n w2]; [done |].
  cbn [substItem]. case_bool_decide as Hn; [| done].
  eapply Forall_forall in Hv; [| exact Hn]. split; [apply Hv | done].
Qed.

End SubstitutionFacts.

(** ** Properties of the variable engine *)

Section VariableEngine.

(** C1, as the code has it: on valid placeholder text, with keys the
    pattern takes literally and replacement texts without [$] and [{],
    a placeholder whose name is no key of the ValueMap stays in
    place, unchanged, between the substituted text before it and the
    substituted text after it. *)
Theorem unmapped_placeholder_kept
    (variables : ValueMap) (pre post : list item) (w1 n w2 : str) :
  Forall strictItem pre -> Forall strictItem post ->
  strictItem (Ph w1 n w2) ->
  Forall plainName (keys variables) ->
  Forall (fun k => inert (replacement variables k)) (keys variables) ->
  n ∉ keys variables ->
  exists a b,
    replaceVariables (render pre) variables = Some (Returned a) /\
    replaceVariables (render post) variables = Some (Returned b) /\
    replaceVariables (render (pre ++ Ph w1 n w2 :: post)) variables
    = Some (Returned (a ++ renderItem (Ph w1 n w2) ++ b)).
Proof.
  intros Hpre Hpost Hph Hks Hv Hn.
  exists (render (substItem variables <$> pre)),
         (render (substItem variables <$> post)).
  rewrite !replaceVariables_valid; try done.
  - repeat split. do 2 f_equal.
    rewrite fmap_app, fmap_cons, render_app, render_cons. do 2 f_equal.
    cbn [substItem]. by rewrite bool_decide_eq_false_2.
  - apply Forall_app. split; [done | by constructor].
Qed.

(** The round trip where the pattern is the placeholder of the name:
    on valid placeholder text, when every extracted name is a key, the
    keys are taken literally by the pattern, and the replacement texts
    hold no [$] and no [{], nothing is left to extract after
    substitution. *)
Theorem roundtrip_valid_text (variables : ValueMap) (items : list item) :
  Forall strictItem items ->
  Forall plainName (keys variables) ->
  Forall (fun k => inert (replacement variables k)) (keys variables) ->
  Forall (fun n => n ∈ keys variables) (addVariables [] (render items)) ->
  exists out,
    replaceVariables (render items) variables = Some (Returned out) /\
    addVariables [] out = [].
Proof.
  intros Hitems Hks Hv Hall.
  exists (render (substItem variables <$> items)).
  split; [by apply replaceVariables_valid |].
  rewrite addVariables_names.
  2:{ apply Forall_fmap. eapply Forall_impl; [exact Hitems |].
      intros it Hit. by apply strict_valid, substItem_strict. }
  assert (names (substItem variables <$> items) = []) as ->; [| done].
  assert (forall n, n ∈ names items -> n ∈ keys variables) as Hnames.
  { intros n Hn. rewrite Forall_forall in Hall. apply Hall.
    rewrite addVariables_names.
    - apply elem_of_foldl_setAdd. by right.
    - eapply Forall_impl; [exact Hitems | apply strict_valid]. }
  clear Hall Hitems. induction items as [| it items IH]; [done |].
  rewrite fmap_cons.
  change (names (?x :: ?l)) with
    (match x with Ph _ n _ => [n] | Lit _ => [] end ++ names l).
  rewrite IH.
  - destruct it as [s | w1 n w2]; [done |]. cbn [substItem].
    rewrite bool_decide_eq_true_2; [done |]. apply Hnames. by left.
  - intros n Hn. apply Hnames.
    change (names (it :: items)) with
      (match it with Ph _ n _ => [n] | Lit _ => [] end ++ names items).
    apply elem_of_app. by right.
Qed.

(** C4: the round trip fails for a name with a syntax character of
    patterns.  Extraction accepts the name [a+b]; [replaceVariables]
    splices it into the pattern without escaping it, so the pattern is
    not the placeholder of the name and misses it: whatever the value,
    the placeholder stays and the name is extracted again. *)
Theorem roundtrip_keeps_unescaped_name (v : JsValue) :
  addVariables [] (lit "{{a+b}}") = [lit "a+b"] /\
  exists out,
    replaceVariables (lit "{{a+b}}") [(lit "a+b", v)] = Some (Returned out) /\
    out = lit "{{a+b}}" /\
    addVariables [] out = [lit "a+b"].
Proof.
  split; [by vm_compute |]. exists (lit "{{a+b}}").
  split; [| split; by vm_compute].
  unfold replaceVariables, replaceOne. cbn [keys fmap list_fmap fst foldl].
  assert (compile (patternSource (lit "a+b"))
          = Compiled (Seq (Chr "{") (Seq (Chr "{") (Seq (Star (Cls isSpace))
              (Seq (Plus (Chr "a")) (Seq (Chr "b") (Seq (Star (Cls isSpace))
                (Seq (Chr "}") (Seq (Chr "}") Eps))))))))) as -> by by vm_compute.
  by vm_compute.
Qed.

Lemma scanParts_invariant (P : list str -> Prop) (files : list (outcome str)) :
  (forall vars text, P vars -> P (addVariables vars text)) ->
  forall vars, P vars -> P (scanParts vars files).
Proof.
  intros Hstep. induction files as [| [xml | msg] files IH]; intros vars Hv;
    [done | | done].
  cbn [scanParts]. by apply IH, Hstep.
Qed.

(** C7, as the code has it: every extracted name is trimmed and no
    name is listed twice, for every document; the name a match
    contributes is the trimmed text between its delimiters; and on
    valid placeholder text the extracted names are the names of the
    placeholders in the order of their first occurrence, so two
    documents whose body texts differ only in the white space between
    the delimiters and the names have the same variables. *)
Theorem extracted_names_normalised :
  (forall doc e, extractTextAndVariables doc = Returned e ->
     Forall (fun n => trim n = n) (variables e) /\ NoDup (variables e)) /\
  (forall s cap rest,
     matchHere variableRegex s = Some (cap, rest) ->
     exists body, s = lit "{{" ++ body ++ lit "}}" ++ rest /\
                  without "}" body /\ trim (default [] cap) = trim body) /\
  (forall items msgs,
     Forall validItem items ->
     extractTextAndVariables
       {| rawText := Returned (render items, msgs);
          headerFooterFiles := Returned [] |}
     = Returned {| text := render items;
                   variables := foldl (fun vs n => setAdd n vs) [] (names items);
                   messages := msgs |}) /\
  (forall items items' msgs msgs' hf,
     Forall validItem items -> Forall validItem items' ->
     Forall2 sameUpToBlanks items items' ->
     exists e e',
       extractTextAndVariables
         {| rawText := Returned (render items, msgs); headerFooterFiles := hf |}
       = Returned e /\
       extractTextAndVariables
         {| rawText := Returned (render items', msgs'); headerFooterFiles := hf |}
       = Returned e' /\
       variables e = variables e') /\
  (forall msgs hf,
     exists e e',
       extractTextAndVariables
         {| rawText := Returned (lit "{{ X }}", msgs); headerFooterFiles := hf |}
       = Returned e /\
       extractTextAndVariables
         {| rawText := Returned (lit "{{X}}", msgs); headerFooterFiles := hf |}
       = Returned e' /\
       variables e = variables e' /\ lit "X" ∈ variables e).
Proof.
  split_and!.
  - intros doc e He. unfold extractTextAndVariables in He.
    destruct (rawText doc) as [[text messages] | msg]; [| done].
    injection He as <-. cbn [variables].
    assert (Forall (fun n => trim n = n) (addVariables [] text)
            /\ NoDup (addVariables [] text)) as H0.
    { split; [by apply addVariables_trimmed | apply addVariables_NoDup].
      apply NoDup_nil_2. }
    destruct (headerFooterFiles doc) as [files | msg]; [| done].
    apply (scanParts_invariant
             (fun vs => Forall (fun n => trim n = n) vs /\ NoDup vs));
      [| done].
    intros vars t [Ht Hd].
    split; [by apply addVariables_trimmed | by apply addVariables_NoDup].
  - intros s cap rest H.
    apply matchHere_variable_shape in H as (body & E & _ & Hb & Ht & _).
    by exists body.
  - intros items msgs H. unfold extractTextAndVariables.
    cbn [rawText headerFooterFiles scanParts]. by rewrite addVariables_names.
  - intros items items' msgs msgs' hf H H' Hsame.
    unfold extractTextAndVariables. cbn [rawText headerFooterFiles].
    eexists _, _. split_and!; [reflexivity | reflexivity |]. cbn [variables].
    rewrite !addVariables_names by done.
    by rewrite (names_sameUpToBlanks _ _ Hsame).
  - intros msgs hf. unfold extractTextAndVariables. cbn [rawText headerFooterFiles].
    eexists _, _. split_and!; [reflexivity | reflexivity | |]; cbn [variables].
    + by assert (addVariables [] (lit "{{ X }}") = addVariables [] (lit "{{X}}"))
        as -> by by vm_compute.
    + assert (addVariables [] (lit "{{ X }}") = [lit "X"]) as -> by by vm_compute.
      destruct hf as [files | msg]; [| by left].
      apply (scanParts_invariant (fun vs => lit "X" ∈ vs)); [| by left].
      intros vars t Hx. rewrite addVariables_fmap.
      apply elem_of_foldl_setAdd. by left.
Qed.

(** the replacement text of a key whose value is falsy *)
Lemma replacement_falsy (variables : ValueMap) (k : str) :
  truthy (getProp variables k) = false -> replacement variables k = [].
Proof. intros H. unfold replacement, jsOr. by rewrite H. Qed.

(** Falsy values in text mode, where the pattern is the placeholder
    of the key: [variables[variableName] || ''] is the empty string for
    every falsy value, so on valid placeholder text the turn of a key
    that the pattern takes literally deletes every placeholder of that
    key and copies the rest; template mode only turns [null] and
    [undefined] into the empty string. *)
Theorem falsy_values_substitute_empty :
  (forall v, truthy v = false <->
     v = JStr [] \/ v = JNum zero \/ v = JBool false \/ v = JNaN
     \/ v = JNull \/ v = JUndefined) /\
  (forall variables items k,
     plainName k -> Forall strictItem items ->
     truthy (getProp variables k) = false ->
     replaceOne variables (render items) k
     = Some (Returned (render (substKey k [] <$> items)))) /\
  (forall variables : ValueMap,
     Forall2 (fun kv kv' =>
                kv'.1 = kv.1 /\
                ((kv.2 = JNull \/ kv.2 = JUndefined) /\ kv'.2 = JStr []
                 \/ kv.2 <> JNull /\ kv.2 <> JUndefined /\ kv'.2 = kv.2))
             variables (safeVariables (Some variables))).
Proof.
  split_and!.
  - intros v. split.
    + destruct v as [| | [] | | [z Hz] | [| c s]]; simpl; try done; try tauto.
      destruct (Z.eqb_spec z 0) as [-> |]; [| done].
      intros _. right. left. unfold zero. do 2 f_equal. apply proof_irrel.
    + intros [-> | [-> | [-> | [-> | [-> | ->]]]]]; done.
  - intros variables items k [Hk Hplain] Hitems Hv.
    unfold replaceOne. rewrite compile_plain by done.
    change (toString (jsOr (getProp variables k) (JStr [])))
      with (replacement variables k).
    rewrite replacement_falsy by done. do 2 f_equal.
    unfold replaceAll. apply replace_items; [done | | done].
    split; constructor.
  - intros variables. unfold safeVariables. cbn [default from_option id].
    induction variables as [| [k v] m IH]; [constructor |].
    rewrite fmap_cons. constructor; [| exact IH].
    split; [done |]. destruct v; simpl; try (right; done); left; tauto.
Qed.

(** C10: a falsy value is handed to [replace] as the empty string,
    but the key is spliced into the pattern without escaping it: for
    the key [a+b] the pattern is not the placeholder of the key, and
    the placeholder of a key mapped to a falsy value stays in the
    text; for the key [+] the pattern is invalid and the call throws. *)
Theorem falsy_value_keeps_unescaped_key (v : JsValue) :
  truthy v = false ->
  toString (jsOr v (JStr [])) = [] /\
  replaceVariables (lit "n={{a+b}}.") [(lit "a+b", v)]
  = Some (Returned (lit "n={{a+b}}.")) /\
  (exists msg,
     replaceVariables (lit "n={{+}}.") [(lit "+", v)] = Some (Thrown msg)) /\
  replaceVariables (lit "n={{count}}, m={{ count }}.") [(lit "count", v)]
  = Some (Returned (lit "n=, m=.")).
Proof.
  intros Hv.
  assert (toString (jsOr v (JStr [])) = []) as Hs by (unfold jsOr; by rewrite Hv).
  split; [done |].
  unfold replaceVariables, replaceOne.
  cbn [keys fmap list_fmap fst foldl getProp].
  unfold str_eqb. rewrite !bool_decide_eq_true_2 by done. rewrite Hs.
  split_and!; [by vm_compute | eexists; by vm_compute | by vm_compute].
Qed.

(** the names of the header and footer parts are added part by part,
    up to the first part that cannot be read *)
Lemma scanParts_read (files : list (outcome str)) (vars : list str) :
  scanParts vars files
  = foldl (fun vs xml => addVariables vs (replaceAll tagRegex [] xml))
          vars (partsRead files).
Proof.
  revert vars. induction files as [| [xml | msg] files IH]; intros vars;
    [done | | done].
  cbn [scanParts partsRead foldl]. apply IH.
Qed.

(** C8, as the code has it: when the body text was extracted,
    extraction returns, whatever happens to the header and footer
    regions; its variables are the names of the body text followed by
    the names of the regions read before the first failure, hence the
    names of the body text alone when the archive or its first region
    cannot be read. *)
Theorem header_footer_failure_not_fatal
    (doc : DocxFile) (body : str) (msgs : list str) :
  rawText doc = Returned (body, msgs) ->
  extractTextAndVariables doc
  = Returned {| text := body;
                variables :=
                  foldl (fun vs xml => addVariables vs (replaceAll tagRegex [] xml))
                        (addVariables [] body)
                        (regionsRead (headerFooterFiles doc));
                messages := msgs |} /\
  (regionsUnread (headerFooterFiles doc) ->
   extractTextAndVariables doc
   = Returned {| text := body; variables := addVariables [] body;
                 messages := msgs |}).
Proof.
  intros Hraw. unfold extractTextAndVariables. rewrite Hraw. split.
  - destruct (headerFooterFiles doc) as [files | msg]; [| done].
    cbn [regionsRead]. by rewrite scanParts_read.
  - destruct (headerFooterFiles doc) as [[| [xml | msg] files] | msg];
      simpl; done.
Qed.

End VariableEngine.

Section VariableEngineInstances.

Lemma unmapped_placeholder_kept_witness :
  exists a b,
    replaceVariables
      (render [Lit (lit "Dear "); Ph [] (lit "Name") []; Lit (lit ", meeting at ")])
      [(lit "Name", JStr (lit "Alice"))] = Some (Returned a) /\
    replaceVariables (render [Lit (lit ".")]) [(lit "Name", JStr (lit "Alice"))]
    = Some (Returned b) /\
    replaceVariables
      (render ([Lit (lit "Dear "); Ph [] (lit "Name") []; Lit (lit ", meeting at ")]
                 ++ Ph [] (lit "Location") [] :: [Lit (lit ".")]))
      [(lit "Name", JStr (lit "Alice"))]
    = Some (Returned (a ++ renderItem (Ph [] (lit "Location") []) ++ b)).
Proof. apply unmapped_placeholder_kept; by_evaluation. Defined.

(** C1 as stated fails: the placeholder of a name that is no key is
    left in the text. *)
Lemma missing_key_counterexample :
  replaceVariables (lit "Dear {{Name}}, meeting at {{Location}}.")
    [(lit "Name", JStr (lit "Alice"))]
  = Some (Returned (lit "Dear Alice, meeting at {{Location}}.")) /\
  replaceVariables (lit "Dear {{Name}}, meeting at {{Location}}.")
    [(lit "Name", JStr (lit "Alice"))]
  <> Some (Returned (lit "Dear Alice, meeting at .")).
Proof. split; [by vm_compute | vm_compute; discriminate]. Qed.

(** a key that is no valid pattern makes [replaceVariables] throw *)
Example replaceVariables_can_throw :
  replaceVariables (lit "{{+}}") [(lit "+", JStr (lit "plus"))]
  = Some (Thrown (lit "Nothing to repeat")).
Proof. by vm_compute. Qed.

Example roundtrip_on_plain_names :
  exists out,
    replaceVariables
      (render [Lit (lit "Dear "); Ph (lit " ") (lit "First Name") [];
               Lit (lit ", see "); Ph [] (lit "Place") (lit " ")])
      [(lit "Place", JStr (lit "Room 4")); (lit "First Name", JStr (lit "Alice"))]
    = Some (Returned out) /\
    addVariables [] out = [].
Proof. apply roundtrip_valid_text; by_evaluation. Qed.

Lemma extracted_names_normalised_witness :
  (exists e e',
     extractTextAndVariables
       {| rawText :=
            Returned (render [Lit (lit "Dear "); Ph (lit "  ") (lit "X") (lit " ")], []);
          headerFooterFiles := Thrown (lit "Can't find end of central directory") |}
     = Returned e /\
     extractTextAndVariables
       {| rawText := Returned (render [Lit (lit "Dear "); Ph [] (lit "X") []], []);
          headerFooterFiles := Thrown (lit "Can't find end of central directory") |}
     = Returned e' /\
     variables e = variables e') /\
  extractTextAndVariables
    {| rawText :=
         Returned (render [Ph [] (lit "b") []; Lit (lit " and ");
                           Ph (lit " ") (lit "a") []; Ph [] (lit "b") (lit " ")], []);
       headerFooterFiles := Returned [] |}
  = Returned
      {| text := render [Ph [] (lit "b") []; Lit (lit " and ");
                         Ph (lit " ") (lit "a") []; Ph [] (lit "b") (lit " ")];
         variables :=
           foldl (fun vs n => setAdd n vs) []
             (names [Ph [] (lit "b") []; Lit (lit " and ");
                     Ph (lit " ") (lit "a") []; Ph [] (lit "b") (lit " ")]);
         messages := [] |}.
Proof.
  split.
  - apply (proj1 (proj2 (proj2 (proj2 extracted_names_normalised))));
      [by_evaluation | by_evaluation | by repeat constructor].
  - apply (proj1 (proj2 (proj2 extracted_names_normalised))). by_evaluation.
Defined.

(** C7 as stated fails: [{{ }}] and [{{}}] differ only in the white
    space between the delimiters, yet the first yields the empty name
    and the second yields nothing. *)
Lemma blank_name_counterexample :
  (exists e e',
     extractTextAndVariables
       {| rawText := Returned (lit "{{ }}", []); headerFooterFiles := Returned [] |}
     = Returned e /\
     extractTextAndVariables
       {| rawText := Returned (lit "{{}}", []); headerFooterFiles := Returned [] |}
     = Returned e' /\
     variables e = [[]] /\ variables e' = [] /\ variables e <> variables e').
Proof. eexists _, _. split_and!; [reflexivity | reflexivity | by vm_compute ..]. Qed.

Lemma falsy_value_keeps_unescaped_key_witness :
  toString (jsOr (JNum zero) (JStr [])) = [] /\
  replaceVariables (lit "n={{a+b}}.") [(lit "a+b", JNum zero)]
  = Some (Returned (lit "n={{a+b}}.")) /\
  (exists msg,
     replaceVariables (lit "n={{+}}.") [(lit "+", JNum zero)] = Some (Thrown msg)) /\
  replaceVariables (lit "n={{count}}, m={{ count }}.") [(lit "count", JNum zero)]
  = Some (Returned (lit "n=, m=.")).
Proof. apply falsy_value_keeps_unescaped_key. reflexivity. Defined.

Lemma header_footer_failure_not_fatal_witness :
  extractTextAndVariables
    {| rawText := Returned (lit "Dear {{ Name }}", []);
       headerFooterFiles := Thrown (lit "Can't find end of central directory") |}
  = Returned
      {| text := lit "Dear {{ Name }}";
         variables :=
           foldl (fun vs xml => addVariables vs (replaceAll tagRegex [] xml))
                 (addVariables [] (lit "Dear {{ Name }}"))
                 (regionsRead (Thrown (lit "Can't find end of central directory")));
         messages := [] |} /\
  (regionsUnread (Thrown (lit "Can't find end of central directory")) ->
   extractTextAndVariables
     {| rawText := Returned (lit "Dear {{ Name }}", []);
        headerFooterFiles := Thrown (lit "Can't find end of central directory") |}
   = Returned {| text := lit "Dear {{ Name }}";
                 variables := addVariables [] (lit "Dear {{ Name }}");
                 messages := [] |}).
Proof. apply header_footer_failure_not_fatal. reflexivity. Defined.

(** C8 as stated fails: when the second header part cannot be read,
    the names of the first one stay in the result, which is not the
    set of the body text alone. *)
Lemma later_region_counterexample :
  extractTextAndVariables
    {| rawText := Returned (lit "Dear {{Name}}", []);
       headerFooterFiles :=
         Returned [Returned (lit "<w:t>{{H}}</w:t>");
                   Thrown (lit "Corrupted zip: can't read the data")] |}
  = Returned {| text := lit "Dear {{Name}}";
                variables := [lit "Name"; lit "H"];
                messages := [] |} /\
  addVariables [] (lit "Dear {{Name}}") = [lit "Name"] /\
  [lit "Name"; lit "H"] <> addVariables [] (lit "Dear {{Name}}").
Proof. split_and!; [by vm_compute | by vm_compute | vm_compute; discriminate]. Qed.

End VariableEngineInstances.

(** ** Properties of the classifier and of the assembler *)

Section ClassifierAndAssembler.

Import AdvancedPdfToWordConverter.

(** C5: a line that equals its upper-case form and is longer than 3
    and shorter than 100 characters is a heading, whatever later rules
    it also satisfies. *)
Theorem upper_case_line_is_heading (toUpperCase : str -> str) (line : str) :
  toUpperCase line = line ->
  3 < length line -> length line < 100 ->
  classify toUpperCase line = Heading /\
  (trim line = line -> processLine toUpperCase line = lit "# " ++ line).
Proof.
  intros Hup Hlo Hhi.
  assert (classify toUpperCase line = Heading) as Hc.
  { unfold classify, isHeader, str_eqb.
    rewrite bool_decide_eq_false_2 by (intros ->; simpl in Hlo; lia).
    rewrite Hup, bool_decide_eq_true_2 by done.
    destruct (Nat.ltb_spec 3 (length line)); [| lia].
    destruct (Nat.ltb_spec (length line) 100); [done | lia]. }
  split; [done |]. intros Ht. unfold processLine. by rewrite Ht, Hc.
Qed.

Lemma upper_case_line_is_heading_witness :
  classify asciiUpper (lit "REVENUE GROWTH") = Heading /\
  (trim (lit "REVENUE GROWTH") = lit "REVENUE GROWTH" ->
   processLine asciiUpper (lit "REVENUE GROWTH") = lit "# " ++ lit "REVENUE GROWTH").
Proof.
  apply upper_case_line_is_heading; [reflexivity | vm_compute; lia ..].
Defined.

(** an upper-case line that ends with a colon and holds a run of two
    spaces satisfies rules 1, 2 and 3, and is a heading *)
Example heading_wins_the_tie :
  isSubHeader (lit "TOTAL  DUE:") = true /\
  isTableRow (lit "TOTAL  DUE:") = true /\
  classify asciiUpper (lit "TOTAL  DUE:") = Heading.
Proof. by vm_compute. Qed.

(** the other reconstruction routine, [enhanceExtractedText], tests
    for a table row first *)
Example enhanceLine_prefers_table_row :
  PdfToWordConverter.enhanceLine asciiUpper (lit "TOTAL  DUE")
  = lit "TOTAL" ++ ["009"%char] ++ lit "DUE".
Proof. by vm_compute. Qed.

(** C6: a line that looks like a table row but splits into fewer than
    two cells makes the callback of either assembler end without a
    value: the array of children holds [undefined] at its place, not a
    monospace paragraph. *)
Theorem short_table_row_is_undefined (paragraph : str) :
  startsWith (lit "#") paragraph = false ->
  looksLikeTableRow paragraph = true ->
  length (cellsOf paragraph) < 2 ->
  textParagraph paragraph = Returned None /\
  (startsWith (lit "**") paragraph && endsWith (lit "**") paragraph = false ->
   advancedParagraph paragraph = Returned None).
Proof.
  intros Hhash Hrow Hcells.
  assert (commonParagraph paragraph = Returned None) as Hc.
  { unfold commonParagraph. rewrite Hrow.
    destruct (Nat.ltb_spec 1 (length (cellsOf paragraph))); [lia | done]. }
  split.
  - unfold textParagraph. by rewrite Hhash.
  - intros Hem. unfold advancedParagraph. by rewrite Hhash, Hem.
Qed.

Lemma short_table_row_is_undefined_witness :
  textParagraph (lit "   Total due") = Returned None /\
  (startsWith (lit "**") (lit "   Total due")
     && endsWith (lit "**") (lit "   Total due") = false ->
   advancedParagraph (lit "   Total due") = Returned None).
Proof.
  apply short_table_row_is_undefined; [reflexivity | reflexivity | vm_compute; lia].
Defined.

(** the children built for a text whose second line is indented *)
Example indented_line_gives_undefined_child :
  exists p,
    sectionChildren (lit "Invoice" ++ ["010"%char] ++ lit "   Total due")
    = Returned [Some p; None].
Proof. eexists. by vm_compute. Qed.

(** with two cells or more the line becomes a monospace paragraph *)
Example table_row_gives_monospace_paragraph :
  textParagraph (lit "Item  Price")
  = Returned (Some
      {| paragraphText := None;
         children := [ {| runText := lit "Item  Price"; size := 24;
                          font := Some (lit "Courier New"); bold := false |} ];
         heading := None; numbering := None; bullet := None;
         spacing := (120, 120) |}).
Proof. by vm_compute. Qed.

End ClassifierAndAssembler.

(** ** Properties of the conversion cascade *)

Section CascadeFacts.

Import PdfToWordConverter.

Lemma invocations_app (a b : list event) :
  invocations (a ++ b) = invocations a ++ invocations b.
Proof. unfold invocations. apply bind_app. Qed.

Lemma invocations_lines (l : list str) : invocations (Line <$> l) = [].
Proof. by induction l. Qed.

Lemma consoleLines_app (a b : list event) :
  consoleLines (a ++ b) = consoleLines a ++ consoleLines b.
Proof. unfold consoleLines. apply bind_app. Qed.

Lemma consoleLines_lines (l : list str) : consoleLines (Line <$> l) = l.
Proof. induction l as [| x l IH]; [done |]. cbn. by f_equal. Qed.

Lemma run_eval {A : Type} (m : M str A) (fs f : gmap str str)
    (r : outcome A) (o : list str) :
  m fs = (r, o, f) -> run m fs = (r, Line <$> o, f).
Proof. intros H. unfold run. by rewrite H. Qed.

Lemma run_inv {A : Type} (m : M str A) (fs f : gmap str str)
    (r : outcome A) (trace : list event) :
  run m fs = (r, trace, f) -> exists o, m fs = (r, o, f) /\ trace = Line <$> o.
Proof.
  unfold run. destruct (m fs) as [[r' o] f']. intros [= -> <- ->]. eauto.
Qed.

Lemma attempt_returns (n : nat) (intro failed : str) (s next : M event str)
    (fs f : gmap str str) (p : str) (o : list event) :
  s fs = (Returned p, o, f) ->
  attempt n intro failed s next fs
  = (Returned p, Line intro :: Invoke n :: o, f).
Proof.
  intros H. unfold attempt, tryCatch, mbind, M_bind, bind, run, consoleLog, mark.
  by rewrite H.
Qed.

Lemma attempt_throws (n : nat) (intro failed : str) (s next : M event str)
    (fs f : gmap str str) (e : str) (o : list event) :
  s fs = (Thrown e, o, f) ->
  attempt n intro failed s next fs
  = (let '(r, out, f') := next f in
     (r, Line intro :: Invoke n :: o
           ++ Line (failed ++ lit " " ++ e) :: out, f')).
Proof.
  intros H.
  unfold attempt, tryCatch, mbind, M_bind, bind, run, consoleLog2, consoleLog, mark.
  rewrite H. cbn. by destruct (next f) as [[r out] f'].
Qed.

End CascadeFacts.

(** ** The strategies of the cascade *)

Section StrategyFacts.

Import PdfToWordConverter.

Lemma bind_returns {E A B : Type} (m : M E A) (k : A -> M E B)
    (fs fs' : gmap str str) (b : B) (out : list E) :
  (m ≫= k) fs = (Returned b, out, fs') ->
  exists a o1 f1 o2,
    m fs = (Returned a, o1, f1) /\ k a f1 = (Returned b, o2, fs').
Proof.
  unfold mbind, M_bind, bind.
  destruct (m fs) as [[[a | e] o1] f1]; [| done].
  destruct (k a f1) as [[r o2] f2] eqn:Hk. intros [= -> _ ->].
  by exists a, o1, f1, o2.
Qed.

Lemma tryCatch_returns {E A : Type} (m : M E A) (h : str -> M E A)
    (fs fs' : gmap str str) (a : A) (out : list E) :
  tryCatch m h fs = (Returned a, out, fs') ->
  m fs = (Returned a, out, fs') \/
  exists e o1 f1 o2, m fs = (Thrown e, o1, f1) /\ h e f1 = (Returned a, o2, fs').
Proof.
  unfold tryCatch. destruct (m fs) as [[[a' | e] o1] f1]; [by left |].
  destruct (h e f1) as [[r o2] f2] eqn:Hh. intros [= -> _ ->].
  right. by exists e, o1, f1, o2.
Qed.

End StrategyFacts.

(** ** Further facts about strings *)

Section TrimFacts.

Lemma trim_blank (s : str) : blank s -> trim s = [].
Proof. intros H. unfold trim. by rewrite trimStart_blank. Qed.

Lemma trim_nil (s : str) : trim s = [] -> blank s.
Proof.
  unfold trim. intros H.
  destruct (trimEnd_split (trimStart s)) as (w & Hw & Hs).
  rewrite H in Hs. simpl in Hs.
  destruct (trimStart_head s) as [H0 | (c & t & Hc & Hx)].
  - by apply trimStart_nil.
  - rewrite Hc in Hs. subst w. inversion Hw; congruence.
Qed.

Lemma blank_app_inv (a b : str) : blank (a ++ b) -> blank a /\ blank b.
Proof. apply Forall_app. Qed.

Lemma trim_app_l (a b : str) : trim a <> [] -> trim (a ++ b) <> [].
Proof.
  intros Ha Hab. apply Ha, trim_blank.
  by destruct (blank_app_inv _ _ (trim_nil _ Hab)).
Qed.

Lemma trim_app_r (a b : str) : trim b <> [] -> trim (a ++ b) <> [].
Proof.
  intros Hb Hab. apply Hb, trim_blank.
  by destruct (blank_app_inv _ _ (trim_nil _ Hab)).
Qed.

Lemma trim_solid (y : ascii) : isSpace y = false -> trim [y] <> [].
Proof.
  intros Hy H. apply trim_nil in H. inversion H; congruence.
Qed.

(** a trimmed text is left alone by [trimStart] *)
Lemma trimmed_trimStart (s : str) : trim s = s -> trimStart s = s.
Proof.
  intros H.
  destruct (trimStart_split s) as (w & Hw & Hs).
  destruct (trimEnd_split (trimStart s)) as (w' & Hw' & Hs').
  fold (trim s) in Hs'. rewrite H in Hs'.
  assert (length w = 0) as Hl.
  { apply (f_equal length) in Hs, Hs'.
    rewrite length_app in Hs, Hs'. lia. }
  destruct w; [| discriminate Hl]. done.
Qed.

Lemma trimStart_trim (s : str) : trimStart (trim s) = trim s.
Proof. apply trimmed_trimStart, trim_idem. Qed.

Lemma trimmed_head (s : str) :
  trim s = s -> s <> [] -> exists x t, s = x :: t /\ isSpace x = false.
Proof.
  intros H Hs. apply trimmed_trimStart in H.
  destruct (trimStart_head s) as [H0 | (c & t & Hc & Hx)]; [congruence |].
  rewrite H in Hc. eauto.
Qed.

Lemma trimmed_last (s : str) :
  trim s = s -> s <> [] -> exists t y, s = t ++ [y] /\ isSpace y = false.
Proof.
  intros H Hs.
  assert (trimStart (rev s) = rev s) as Hr.
  { pose proof (trimmed_trimStart _ H) as H1.
    unfold trim in H. rewrite H1 in H. unfold trimEnd in H.
    apply (f_equal (@rev ascii)) in H. by rewrite rev_involutive in H. }
  destruct (trimStart_head (rev s)) as [H0 | (c & t & Hc & Hx)].
  - rewrite Hr in H0. apply (f_equal (@rev ascii)) in H0.
    rewrite rev_involutive in H0. done.
  - rewrite Hr in Hc. apply (f_equal (@rev ascii)) in Hc.
    rewrite rev_involutive in Hc. simpl in Hc. eauto.
Qed.

Lemma trim_fixed (x y : ascii) (t t' : str) :
  isSpace x = false -> isSpace y = false ->
  x :: t = t' ++ [y] -> trim (x :: t) = x :: t.
Proof.
  intros Hx Hy E. unfold trim. rewrite trimStart_fixed by done.
  unfold trimEnd. rewrite E, rev_app_distr. simpl.
  rewrite Hy. simpl. by rewrite rev_involutive.
Qed.

(** [trim] keeps a property that holds of every character *)
Lemma Forall_trim (P : ascii -> Prop) (s : str) :
  Forall P s -> Forall P (trim s).
Proof.
  intros H.
  destruct (trimStart_split s) as (w & _ & Hs).
  destruct (trimEnd_split (trimStart s)) as (w' & _ & Hs').
  fold (trim s) in Hs'. rewrite Hs' in Hs. rewrite Hs in H.
  apply Forall_app in H as [_ H]. by apply Forall_app in H as [H _].
Qed.

Lemma startsWith_app (p s : str) :
  startsWith p s = true <-> exists t, s = p ++ t.
Proof.
  revert s. induction p as [| a p IH]; intros s; simpl.
  - split; [eauto | done].
  - destruct s as [| b s]; [split; [done | by intros (t & ?)] |].
    rewrite andb_true_iff, IH. split.
    + intros [Hab (t & ->)]. apply Ascii.eqb_eq in Hab as ->. eauto.
    + intros (t & E). injection E as -> ->. split; [apply Ascii.eqb_refl | eauto].
Qed.

Lemma includes_cons (p : str) (c : ascii) (s : str) :
  includes p (c :: s) = startsWith p (c :: s) || includes p s.
Proof. done. Qed.

(** a text that does not include [p] has no suffix that starts with it *)
Lemma includes_suffix (p s v1 v2 : str) :
  includes p s = false -> s = v1 ++ v2 -> startsWith p v2 = false.
Proof.
  revert s. induction v1 as [| c v1 IH]; intros s H ->; simpl in H.
  - destruct v2; simpl in H; by apply orb_false_iff in H as [H _].
  - apply orb_false_iff in H as [_ H]. by eapply IH.
Qed.

Lemma includes_elem (c : ascii) (s : str) :
  includes [c] s = true <-> c ∈ s.
Proof.
  induction s as [| x s IH]; simpl.
  - split; [done | by intros ?%elem_of_nil].
  - by rewrite orb_true_iff, andb_true_r, IH, elem_of_cons, Ascii.eqb_eq.
Qed.

Lemma replaceFirst_absent (p r s : str) :
  includes p s = false -> replaceFirst p r s = s.
Proof.
  induction s as [| c s IH]; simpl; intros H.
  - apply orb_false_iff in H as [-> _]. done.
  - apply orb_false_iff in H as [-> H]. by rewrite IH.
Qed.

End TrimFacts.

(** ** Lines: [split('\n')] and [join('\n')] *)

Section LineFacts.

Variable c : ascii.

Lemma splitOn_nonempty (s : str) : splitOn c s <> [].
Proof.
  induction s as [| x s IH]; simpl; [done |].
  destruct (Ascii.eqb x c); [done |]. by destruct (splitOn c s).
Qed.

Lemma splitOn_without (s : str) : Forall (without c) (splitOn c s).
Proof.
  induction s as [| x s IH]; simpl; [by repeat constructor |].
  destruct (Ascii.eqb x c) eqn:Hx; [constructor; [constructor | done] |].
  apply Ascii.eqb_neq in Hx.
  destruct (splitOn c s) as [| cur more]; [by repeat constructor |].
  inversion IH; subst. constructor; [by constructor | done].
Qed.

Lemma splitOn_plain (x : str) : without c x -> splitOn c x = [x].
Proof.
  induction 1 as [| a x Ha _ IH]; simpl; [done |].
  apply Ascii.eqb_neq in Ha. by rewrite Ha, IH.
Qed.

Lemma splitOn_app (x s : str) :
  without c x -> splitOn c (x ++ c :: s) = x :: splitOn c s.
Proof.
  induction 1 as [| a x Ha _ IH]; simpl.
  - by rewrite Ascii.eqb_refl.
  - apply Ascii.eqb_neq in Ha. by rewrite Ha, IH.
Qed.

Lemma join_cons (x y : str) (l : list str) :
  join [c] (x :: y :: l) = x ++ c :: join [c] (y :: l).
Proof. done. Qed.

(** splitting the joined lines gives the lines back *)
Lemma splitOn_join (ls : list str) :
  ls <> [] -> Forall (without c) ls -> splitOn c (join [c] ls) = ls.
Proof.
  intros Hne H. induction H as [| x ls Hx Hls IH]; [done |].
  destruct ls as [| y ls].
  - simpl. by apply splitOn_plain.
  - rewrite join_cons, splitOn_app by done. by rewrite IH.
Qed.

Lemma join_splitOn (s : str) : join [c] (splitOn c s) = s.
Proof.
  induction s as [| x s IH]; simpl; [done |].
  destruct (Ascii.eqb x c) eqn:Hx.
  - apply Ascii.eqb_eq in Hx as ->.
    pose proof (splitOn_nonempty s) as Hne.
    destruct (splitOn c s) as [| y l]; [done |].
    change (join [c] ([] :: y :: l)) with (c :: join [c] (y :: l)).
    by rewrite IH.
  - destruct (splitOn c s) as [| y l] eqn:E; [by destruct (splitOn_nonempty s) |].
    destruct l as [| z l]; simpl in *; by rewrite <- IH.
Qed.

Lemma length_splitOn (s : list ascii) :
  length (splitOn c s) = S (length (filter (fun x => x = c) s)).
Proof.
  induction s as [| x s IH]; [done |].
  rewrite filter_cons. cbn [splitOn].
  destruct (Ascii.eqb x c) eqn:Hx.
  - apply Ascii.eqb_eq in Hx as ->.
    rewrite decide_True by done. simpl. by rewrite IH.
  - apply Ascii.eqb_neq in Hx. rewrite decide_False by done.
    rewrite <- IH. destruct (splitOn c s) eqn:E; [| done].
    by destruct (splitOn_nonempty s).
Qed.

End LineFacts.

(** ** Greedy iteration over one class of characters *)

Section GreedyFacts.

Lemma head_Some_elem {A : Type} (l : list A) (x : A) : head l = Some x -> x ∈ l.
Proof. destruct l; [done |]. simpl. intros [= ->]. left. Qed.

Lemma head_app_Some {A : Type} (l k : list A) (x : A) :
  head l = Some x -> head (l ++ k) = Some x.
Proof. by destruct l. Qed.

Lemma head_bind {A B : Type} (l : list A) (f : A -> list B) (x : A) (y : B) :
  head l = Some x -> head (f x) = Some y -> head (l ≫= f) = Some y.
Proof.
  destruct l; [done |]. intros [= ->] H. rewrite bind_cons.
  by apply head_app_Some.
Qed.

Lemma rmatch_seq (r1 r2 : regex) (st : mstate) :
  rmatch (Seq r1 r2) st = rmatch r1 st ≫= rmatch r2.
Proof. done. Qed.

Lemma rmatch_star (r : regex) (st : mstate) :
  rmatch (Star r) st = star (rmatch r) (length st.2) st.
Proof. done. Qed.

Lemma star_succ (step : mstate -> list mstate) (n : nat) (st : mstate) :
  star step (S n) st
  = (step st ≫= fun st' : mstate =>
       if length st'.2 <? length st.2 then star step n st' else [])
    ++ [st].
Proof. done. Qed.

Variable step : mstate -> list mstate.
Variable p : ascii -> bool.
Hypothesis step_cons : forall (cap : option str) (x : ascii) (t : str),
  step (cap, x :: t) = if p x then [(cap, t)] else [].
Hypothesis step_nil : forall cap : option str, step (cap, []) = [].

(** the first result of a greedy iteration takes the longest run *)
Lemma star_run (w rest : str) (cap : option str) :
  Forall (fun c => p c = true) w ->
  (forall c t, rest = c :: t -> p c = false) ->
  forall n, length (w ++ rest) <= n ->
    head (star step n (cap, w ++ rest)) = Some (cap, rest).
Proof.
  intros Hw Hrest. induction Hw as [| x w Hx _ IH]; intros n Hn.
  - destruct n as [| n]; [done |]. rewrite star_succ.
    assert (step (cap, [] ++ rest) = []) as ->; [| done].
    simpl. destruct rest as [| c t]; [apply step_nil |].
    by rewrite step_cons, (Hrest c t).
  - destruct n as [| n]; [simpl in Hn; lia |].
    rewrite star_succ. change ((x :: w) ++ rest) with (x :: (w ++ rest)).
    rewrite step_cons, Hx, bind_singleton.
    apply head_app_Some. cbn [snd].
    assert ((length (w ++ rest) <? length (x :: w ++ rest)) = true) as ->
      by (apply Nat.ltb_lt; simpl; lia).
    apply IH. simpl in Hn. lia.
Qed.

End GreedyFacts.

Section HeadingFacts.

Lemma star_run_cls (p : ascii -> bool) (w rest : str) (cap : option str) :
  Forall (fun c => p c = true) w ->
  (forall c t, rest = c :: t -> p c = false) ->
  head (rmatch (Star (Cls p)) (cap, w ++ rest)) = Some (cap, rest).
Proof.
  intros Hw Hrest. rewrite rmatch_star.
  by apply (star_run (rmatch (Cls p)) p).
Qed.

Lemma star_run_chr (c : ascii) (k : nat) (rest : str) (cap : option str) :
  (forall x t, rest = x :: t -> x <> c) ->
  head (rmatch (Star (Chr c)) (cap, replicate k c ++ rest)) = Some (cap, rest).
Proof.
  intros Hrest. rewrite rmatch_star.
  apply (star_run (rmatch (Chr c)) (fun x => Ascii.eqb x c)); [done | done | | | done].
  - apply Forall_forall. intros x ->%elem_of_replicate_inv. apply Ascii.eqb_refl.
  - intros x t E. apply Ascii.eqb_neq. by eapply Hrest.
Qed.

Lemma rmatch_plus_chr (c : ascii) (k : nat) (rest : str) (cap : option str) :
  (forall x t, rest = x :: t -> x <> c) ->
  head (rmatch (Plus (Chr c)) (cap, replicate (S k) c ++ rest))
  = Some (cap, rest).
Proof.
  intros Hrest. unfold Plus. rewrite rmatch_seq.
  change (rmatch (Chr c) (cap, replicate (S k) c ++ rest))
    with (if Ascii.eqb c c then [(cap, replicate k c ++ rest)] else []).
  rewrite Ascii.eqb_refl, bind_singleton.
  by apply star_run_chr.
Qed.

(** [/^#+/] takes all the leading hashes *)
Lemma matchAtStart_hashes (k : nat) (rest : str) :
  (forall x t, rest = x :: t -> x <> "#"%char) ->
  matchAtStart hashes (replicate (S k) "#"%char ++ rest)
  = Some (replicate (S k) "#"%char).
Proof.
  intros Hrest. unfold matchAtStart, matchHere, hashes.
  rewrite rmatch_plus_chr by done. by rewrite take_consumed.
Qed.

(** [/^#+\s*/] takes the hashes and the white space after them *)
Lemma replaceAtStart_hashesAndSpace (k : nat) (rest : str) :
  (forall x t, rest = x :: t -> x <> "#"%char) ->
  replaceAtStart hashesAndSpace [] (replicate (S k) "#"%char ++ rest)
  = trimStart rest.
Proof.
  intros Hrest. unfold replaceAtStart, matchHere, hashesAndSpace.
  rewrite rmatch_seq.
  pose proof (rmatch_plus_chr "#" k rest None Hrest) as Hh.
  destruct (trimStart_split rest) as (w & Hw & Hs).
  assert (head (rmatch (Star (Cls isSpace)) (None, rest))
          = Some (None, trimStart rest)) as Hstar.
  { destruct (trimStart_head rest) as [H0 | (c & t & Hc & Hx)].
    - rewrite H0 in *. rewrite app_nil_r in Hs. subst w.
      rewrite <- (app_nil_r rest) at 1. by apply star_run_cls.
    - rewrite Hc in *. rewrite Hs at 1. apply star_run_cls; [done |].
      by intros ? ? [= -> ->]. }
  by erewrite head_bind; [| exact Hh | exact Hstar].
Qed.

End HeadingFacts.

(** ** Patterns that match runs of white space *)

Section SeparatorFacts.

Lemma den_spaceRun (st st' : mstate) :
  den (Seq (Cls isSpace) (Plus (Cls isSpace))) st st' <->
  exists a b w, isSpace a = true /\ isSpace b = true /\ blank w /\
    st.2 = a :: b :: w ++ st'.2 /\ st'.1 = st.1.
Proof.
  change (den (Seq (Cls isSpace) (Plus (Cls isSpace))) st st')
    with (exists m, den (Cls isSpace) st m /\ den (Plus (Cls isSpace)) m st').
  split.
  - intros (m & (a & Ha & E1 & C1) & Hp).
    apply den_plus_cls in Hp as (w & Hne & Hw & E2 & C2).
    destruct w as [| b w]; [done |]. inversion Hw; subst.
    exists a, b, w. rewrite E1, E2. split_and!; try done. congruence.
  - intros (a & b & w & Ha & Hb & Hw & E & C).
    exists (st.1, b :: w ++ st'.2). split.
    + exists a. done.
    + apply den_plus_cls. exists (b :: w). split_and!; try done.
      by constructor.
Qed.

Lemma matchHere_elem (r : regex) (s : str) (st' : mstate) :
  matchHere r s = Some st' -> den r (None, s) st'.
Proof. intros H. by apply rmatch_den, head_Some_elem. Qed.

Lemma matchHere_possible (r : regex) (s : str) (st' : mstate) :
  den r (None, s) st' -> matchHere r s <> None.
Proof.
  intros H%rmatch_den. unfold matchHere.
  destruct (rmatch r (None, s)); [by apply elem_of_nil in H | done].
Qed.

(** what [/\s{2,}/] consumes *)
Lemma spaceRun_consumes (s : str) (cap : option str) (rest : str) :
  matchHere (Seq (Cls isSpace) (Plus (Cls isSpace))) s = Some (cap, rest) ->
  exists m, m <> [] /\ blank m /\ s = m ++ rest.
Proof.
  intros H%matchHere_elem%den_spaceRun.
  destruct H as (a & b & w & Ha & Hb & Hw & E & _). simpl in E.
  exists (a :: b :: w). split_and!; [done | by repeat constructor | done].
Qed.

Lemma spaceRun_matches (a b : ascii) (t : str) :
  isSpace a = true -> isSpace b = true ->
  matchHere (Seq (Cls isSpace) (Plus (Cls isSpace))) (a :: b :: t) <> None.
Proof.
  intros Ha Hb. apply (matchHere_possible _ _ (None, t)), den_spaceRun.
  exists a, b, []. split_and!; try done. constructor.
Qed.

(** what [/\s{2,}|\t/] consumes *)
Lemma cellSeparator_consumes (s : str) (cap : option str) (rest : str) :
  matchHere cellSeparator s = Some (cap, rest) ->
  exists m, m <> [] /\ blank m /\ s = m ++ rest.
Proof.
  intros H%matchHere_elem.
  change (den (Seq (Cls isSpace) (Plus (Cls isSpace))) (None, s) (cap, rest)
          \/ den (Chr "009") (None, s) (cap, rest)) in H.
  destruct H as [H | [E _]].
  - apply den_spaceRun in H as (a & b & w & Ha & Hb & Hw & E & _). simpl in E.
    exists (a :: b :: w). split_and!; [done | by repeat constructor | done].
  - simpl in E. exists ["009"%char]. split_and!; [done | by repeat constructor | done].
Qed.

Lemma cellSeparator_matches_spaces (t : str) :
  matchHere cellSeparator (lit "  " ++ t) <> None.
Proof.
  apply (matchHere_possible _ _ (None, t)). left. apply den_spaceRun.
  exists " "%char, " "%char, []. split_and!; try done. constructor.
Qed.

Lemma cellSeparator_matches_tab (t : str) :
  matchHere cellSeparator ("009"%char :: t) <> None.
Proof. apply (matchHere_possible _ _ (None, t)). by right. Qed.

(** what [/\s+/] consumes *)
Lemma whitespaceRun_consumes (s : str) (cap : option str) (rest : str) :
  matchHere FileStats.whitespaceRun s = Some (cap, rest) ->
  exists m, m <> [] /\ blank m /\ s = m ++ rest.
Proof.
  intros H%matchHere_elem%den_plus_cls.
  destruct H as (w & Hne & Hw & E & _). by exists w.
Qed.

Lemma whitespaceRun_matches (c : ascii) (t : str) :
  isSpace c = true -> matchHere FileStats.whitespaceRun (c :: t) <> None.
Proof.
  intros Hc. apply (matchHere_possible _ _ (None, t)), den_plus_cls.
  exists [c]. split_and!; [done | by repeat constructor | done | done].
Qed.

End SeparatorFacts.

(** ** Scans and splits at runs of white space *)

Section PieceFacts.

Variable r : regex.

Lemma hits_cons_Found (h : hit) (l : list piece) :
  hits (Found h :: l) = h :: hits l.
Proof. done. Qed.

Lemma hits_cons_Plain (c : ascii) (l : list piece) :
  hits (Plain c :: l) = hits l.
Proof. done. Qed.

Lemma elem_of_hits (h : hit) (l : list piece) : h ∈ hits l <-> Found h ∈ l.
Proof.
  unfold hits. rewrite list_elem_of_bind. split.
  - intros ([c | h'] & Hin & Hl); [by apply elem_of_nil in Hin |].
    by apply list_elem_of_singleton in Hin as ->.
  - intros H. exists (Found h). split; [apply list_elem_of_singleton; done | done].
Qed.

Lemma scan_nil (bef : str) : matchHere r [] = None -> scan r bef [] 0 = [].
Proof. intros H. simpl. by rewrite H. Qed.

Lemma scan_some (bef : str) (c : ascii) (t : str) (cap : option str) (rest : str) :
  matchHere r (c :: t) = Some (cap, rest) ->
  exists h l, scan r bef (c :: t) 0 = Found h :: l.
Proof. intros H. cbn [scan]. rewrite H. eauto. Qed.

(** the characters a scan copies are characters of the subject *)
Lemma scan_chars (s : str) :
  forall (bef : str) (skip : nat) (c : ascii),
    Plain c ∈ scan r bef s skip -> c ∈ s.
Proof.
  induction s as [| x s IH]; intros bef skip c H.
  - simpl in H. destruct skip; [| by apply elem_of_nil in H].
    destruct (matchHere r []) as [[cap rest] |]; [| by apply elem_of_nil in H].
    apply list_elem_of_singleton in H. done.
  - destruct skip as [| k]; cbn [scan] in H.
    + destruct (matchHere r (x :: s)) as [[cap rest] |].
      * apply elem_of_cons in H as [H | H]; [done |].
        apply elem_of_app in H as [H | H].
        -- destruct (_ =? 0); [| by apply elem_of_nil in H].
           apply list_elem_of_singleton in H. injection H as ->. left.
        -- right. by eapply IH.
      * apply elem_of_cons in H as [H | H]; [injection H as ->; left |].
        right. by eapply IH.
    + right. by eapply IH.
Qed.

(** a scan that finds nothing copies the subject *)
Lemma scan_no_hits (s : str) :
  forall bef : str, hits (scan r bef s 0) = [] -> scan r bef s 0 = Plain <$> s.
Proof.
  induction s as [| x s IH]; intros bef H.
  - simpl in *. by destruct (matchHere r []) as [[cap rest] |].
  - destruct (matchHere r (x :: s)) as [[cap rest] |] eqn:E.
    + destruct (scan_some bef _ _ _ _ E) as (h & l & Hs).
      rewrite Hs in H. done.
    + rewrite scan_none in * by done. rewrite hits_cons_Plain in H.
      simpl. f_equal. by apply IH.
Qed.

(** a match at some position makes the scan find something *)
Lemma scan_finds (v1 v2 : str) :
  matchHere r v2 <> None ->
  forall bef : str, hits (scan r bef (v1 ++ v2) 0) <> [].
Proof.
  intros Hm. induction v1 as [| c v1 IH]; intros bef.
  - simpl. destruct v2 as [| c t].
    + simpl. by destruct (matchHere r []) as [[cap rest] |].
    + destruct (matchHere r (c :: t)) as [[cap rest] |] eqn:E; [| done].
      destruct (scan_some bef _ _ _ _ E) as (h & l & ->). done.
  - change ((c :: v1) ++ v2) with (c :: (v1 ++ v2)).
    destruct (matchHere r (c :: v1 ++ v2)) as [[cap rest] |] eqn:E.
    + destruct (scan_some bef _ _ _ _ E) as (h & l & ->). done.
    + rewrite scan_none by done. rewrite hits_cons_Plain. apply IH.
Qed.

Lemma splitGo_none (c : ascii) (t cur : str) :
  matchHere r (c :: t) = None ->
  splitGo r (c :: t) 0 cur = splitGo r t 0 (cur ++ [c]).
Proof. intros H. cbn [splitGo]. by rewrite H. Qed.

Lemma splitGo_skip (u rest cur : str) :
  splitGo r (u ++ rest) (length u) cur = splitGo r rest 0 cur.
Proof. induction u as [| c u IH]; [done | exact IH]. Qed.

Lemma splitGo_hit (m : str) (cap : option str) (rest cur : str) :
  m <> [] ->
  matchHere r (m ++ rest) = Some (cap, rest) ->
  splitGo r (m ++ rest) 0 cur = cur :: splitGo r rest 0 [].
Proof.
  intros Hm H. destruct m as [| c m]; [done |].
  change ((c :: m) ++ rest) with (c :: (m ++ rest)) in *.
  cbn [splitGo]. rewrite H.
  replace (length (c :: m ++ rest) - length rest) with (S (length m))
    by (simpl; rewrite length_app; lia).
  simpl. rewrite Nat.sub_0_r. by rewrite splitGo_skip.
Qed.

Hypothesis consumes : forall (s : str) (cap : option str) (rest : str),
  matchHere r s = Some (cap, rest) ->
  exists m, m <> [] /\ blank m /\ s = m ++ rest.

Lemma consumes_nil : matchHere r [] = None.
Proof.
  destruct (matchHere r []) as [[cap rest] |] eqn:E; [| done].
  destruct (consumes _ _ _ E) as (m & Hm & _ & Hs). by destruct m.
Qed.

Lemma consumes_solid (x : ascii) (t : str) :
  isSpace x = false -> matchHere r (x :: t) = None.
Proof.
  intros Hx. destruct (matchHere r (x :: t)) as [[cap rest] |] eqn:E; [| done].
  destruct (consumes _ _ _ E) as (m & Hm & Hb & Hs).
  destruct m as [| c m]; [done |]. injection Hs as <- _.
  inversion Hb; congruence.
Qed.

(** a match inside a text that ends with a solid character leaves a
    shorter text that ends with it *)
Lemma consumes_before_last (s' : str) (y : ascii) (cap : option str) (rest : str) :
  isSpace y = false ->
  matchHere r (s' ++ [y]) = Some (cap, rest) ->
  exists m rest', m <> [] /\ blank m /\ s' = m ++ rest' /\ rest = rest' ++ [y].
Proof.
  intros Hy E. destruct (consumes _ _ _ E) as (m & Hm & Hb & Hs).
  destruct rest as [| z rest'] using rev_ind.
  - rewrite app_nil_r in Hs. subst m.
    apply Forall_app in Hb as [_ Hb]. inversion Hb; congruence.
  - clear IHrest'. rewrite app_assoc in Hs.
    apply app_inj_tail in Hs as [-> ->]. by exists m, rest'.
Qed.

(** the scan of a text that ends with a solid character ends with it *)
Lemma scan_last (y : ascii) (n : nat) :
  isSpace y = false ->
  forall s' bef : str, length s' <= n ->
    exists ps, scan r bef (s' ++ [y]) 0 = ps ++ [Plain y].
Proof.
  intros Hy. induction n as [n IH] using lt_wf_ind. intros s' bef Hn.
  destruct s' as [| c s'].
  - exists []. simpl app. rewrite scan_none by by apply consumes_solid.
    by rewrite scan_nil by apply consumes_nil.
  - destruct (matchHere r ((c :: s') ++ [y])) as [[cap rest] |] eqn:E.
    + destruct (consumes_before_last _ _ _ _ Hy E)
        as (m & rest' & Hm & Hb & Hs & ->).
      rewrite Hs in *. rewrite <- app_assoc in *.
      rewrite (scan_hit r m cap bef _ Hm E).
      destruct (IH (length rest')) with (s' := rest') (bef := bef ++ m)
        as (ps & ->); [| done |].
      * rewrite length_app in Hn. destruct m; [done |]. simpl in Hn. lia.
      * by exists (Found (Hit m cap bef (rest' ++ [y])) :: ps).
    + change ((c :: s') ++ [y]) with (c :: (s' ++ [y])) in *.
      rewrite scan_none by done.
      destruct (IH (length s')) with (s' := s') (bef := bef ++ [c])
        as (ps & ->); [simpl in Hn; lia | done |].
      by exists (Plain c :: ps).
Qed.

(** the last cell of a text that ends with a solid character ends
    with it *)
Lemma splitGo_last (y : ascii) (n : nat) :
  isSpace y = false ->
  forall s' cur : str, length s' <= n ->
    exists init u, splitGo r (s' ++ [y]) 0 cur = init ++ [u ++ [y]].
Proof.
  intros Hy. induction n as [n IH] using lt_wf_ind. intros s' cur Hn.
  destruct s' as [| c s'].
  - exists [], cur. simpl app. by rewrite splitGo_none by by apply consumes_solid.
  - destruct (matchHere r ((c :: s') ++ [y])) as [[cap rest] |] eqn:E.
    + destruct (consumes_before_last _ _ _ _ Hy E)
        as (m & rest' & Hm & Hb & Hs & ->).
      rewrite Hs in *. rewrite <- app_assoc in *.
      rewrite (splitGo_hit m cap _ cur Hm E).
      destruct (IH (length rest')) with (s' := rest') (cur := @nil ascii)
        as (init & u & ->); [| done |].
      * rewrite length_app in Hn. destruct m; [done |]. simpl in Hn. lia.
      * by exists (cur :: init), u.
    + change ((c :: s') ++ [y]) with (c :: (s' ++ [y])) in *.
      rewrite splitGo_none by done.
      destruct (IH (length s')) with (s' := s') (cur := cur ++ [c])
        as (init & u & ->); [simpl in Hn; lia | done |].
      by exists init, u.
Qed.

(** the cells of a blank text are empty, for a pattern that matches at
    every white-space character *)
Lemma splitGo_blank (n : nat) :
  (forall c t, isSpace c = true -> matchHere r (c :: t) <> None) ->
  forall s : str, length s <= n -> blank s ->
    Forall (fun cell => cell = []) (splitGo r s 0 []).
Proof.
  intros Hsp. induction n as [n IH] using lt_wf_ind. intros s Hn Hs.
  destruct s as [| c s]; [by repeat constructor |].
  destruct (matchHere r (c :: s)) as [[cap rest] |] eqn:E.
  - destruct (consumes _ _ _ E) as (m & Hm & Hb & Hsplit).
    rewrite Hsplit in *. rewrite (splitGo_hit m cap rest [] Hm E).
    constructor; [done |].
    apply (IH (length rest)); [| done |].
    + rewrite length_app in Hn. destruct m; [done |]. simpl in Hn. lia.
    + by apply Forall_app in Hs as [_ Hs].
  - exfalso. inversion Hs; subst. by eapply Hsp.
Qed.

End PieceFacts.

(** ** The assembler on headings and on table rows *)

Section AssemblerFacts.

Lemma startsWith_hash (s : str) :
  startsWith (lit "#") s = false -> forall x t, s = x :: t -> x <> "#"%char.
Proof.
  intros H x t -> ->. done.
Qed.

Lemma startsWith_hash_cons (c : ascii) (s : str) :
  startsWith (lit "#") (c :: s) = Ascii.eqb "#" c.
Proof.
  change (startsWith (lit "#") (c :: s)) with (Ascii.eqb "#" c && true).
  apply andb_true_r.
Qed.

(** the leading hashes of a text *)
Lemma hashes_split (s : str) :
  exists k rest, s = replicate k "#"%char ++ rest /\
                 startsWith (lit "#") rest = false.
Proof.
  induction s as [| c s (k & rest & -> & Hr)]; [by exists 0, [] |].
  destruct (Ascii.eqb "#" c) eqn:E.
  - apply Ascii.eqb_eq in E as <-. by exists (S k), rest.
  - exists 0, (c :: replicate k "#"%char ++ rest). split; [done |].
    by rewrite startsWith_hash_cons.
Qed.

Lemma heading_shape (s : str) :
  startsWith (lit "#") s = true ->
  exists k rest, s = replicate (S k) "#"%char ++ rest /\
                 startsWith (lit "#") rest = false.
Proof.
  intros H. destruct (hashes_split s) as (k & rest & -> & Hr).
  destruct k as [| k]; [| eauto].
  change (replicate 0 "#"%char ++ rest) with rest in H. congruence.
Qed.

Lemma headingParagraph_hashes (k : nat) (rest : str) :
  startsWith (lit "#") rest = false ->
  headingParagraph (replicate (S k) "#"%char ++ rest)
  = Returned (Some (headingOf (S k) (trimStart rest))).
Proof.
  intros H. pose proof (startsWith_hash _ H) as Hrest.
  unfold headingParagraph.
  rewrite matchAtStart_hashes, replaceAtStart_hashesAndSpace by done.
  by rewrite length_replicate.
Qed.

Lemma looksLikeTableRow_cons (c : ascii) (s : str) :
  looksLikeTableRow (c :: s) = true ->
  matchHere cellSeparator (c :: s) = None ->
  looksLikeTableRow s = true.
Proof.
  unfold looksLikeTableRow. rewrite !includes_cons. intros H Hm.
  destruct (startsWith (lit "  ") (c :: s)) eqn:E1.
  { apply startsWith_app in E1 as (t & E). rewrite E in Hm.
    by destruct (cellSeparator_matches_spaces t). }
  destruct (startsWith ["009"%char] (c :: s)) eqn:E2.
  { apply startsWith_app in E2 as (t & E). rewrite E in Hm.
    by destruct (cellSeparator_matches_tab t). }
  exact H.
Qed.

Lemma looksLikeTableRow_single (y : ascii) :
  isSpace y = false -> looksLikeTableRow [y] = false.
Proof.
  intros Hy. unfold looksLikeTableRow. rewrite !includes_cons.
  destruct (startsWith (lit "  ") [y]) eqn:E1.
  { by apply startsWith_app in E1 as (t & E). }
  destruct (startsWith ["009"%char] [y]) eqn:E2; [| done].
  apply startsWith_app in E2 as (t & E). injection E as -> _. done.
Qed.

Lemma looksLikeTableRow_nil : looksLikeTableRow [] = false.
Proof. done. Qed.

(** a text that starts with a cell, looks like a table row and ends
    with a solid character has at least two cells *)
Lemma cells_two (y : ascii) (n : nat) :
  isSpace y = false ->
  forall s' cur : str, length s' <= n ->
    trim cur <> [] ->
    looksLikeTableRow (s' ++ [y]) = true ->
    2 <= length (filter (fun cell => trim cell <> [])
                   (splitGo cellSeparator (s' ++ [y]) 0 cur)).
Proof.
  intros Hy. induction n as [n IH] using lt_wf_ind. intros s' cur Hn Hcur Hrow.
  destruct s' as [| c s'].
  - simpl in Hrow. by rewrite looksLikeTableRow_single in Hrow.
  - destruct (matchHere cellSeparator ((c :: s') ++ [y])) as [[cap rest] |] eqn:E.
    + destruct (consumes_before_last _ cellSeparator_consumes _ _ _ _ Hy E)
        as (m & rest' & Hm & Hb & Hs & ->).
      rewrite Hs in *. rewrite <- app_assoc in *.
      rewrite (splitGo_hit _ m cap _ cur Hm E).
      destruct (splitGo_last _ cellSeparator_consumes y (length rest') Hy rest' [])
        as (init & u & ->); [done |].
      rewrite filter_cons_True by done.
      rewrite filter_app, filter_cons_True
        by (apply trim_app_r; by apply trim_solid).
      rewrite length_cons, length_app, length_cons. lia.
    + change ((c :: s') ++ [y]) with (c :: (s' ++ [y])) in *.
      rewrite splitGo_none by done.
      apply (IH (length s')); [simpl in Hn; lia | done | by apply trim_app_l |].
      by eapply looksLikeTableRow_cons.
Qed.

(** a trimmed line that looks like a table row has two cells or more *)
Lemma trimmed_row_cells (paragraph : str) :
  trim paragraph = paragraph ->
  looksLikeTableRow paragraph = true ->
  2 <= length (cellsOf paragraph).
Proof.
  intros Ht Hrow.
  assert (paragraph <> []) as Hne by (intros ->; done).
  destruct (trimmed_head _ Ht Hne) as (x & t & -> & Hx).
  destruct (trimmed_last _ Ht Hne) as (t' & y & E & Hy).
  pose proof (consumes_solid _ cellSeparator_consumes x t Hx) as Hm.
  pose proof (looksLikeTableRow_cons _ _ Hrow Hm) as Hrow'.
  unfold cellsOf, split. rewrite splitGo_none by done.
  destruct t' as [| x' t']; simpl in E; injection E as E1 E2; subst t.
  { by rewrite looksLikeTableRow_nil in Hrow'. }
  apply (cells_two y (length t')); [done | done | by apply trim_solid | done].
Qed.

End AssemblerFacts.

Section AssemblerProperties.

(** Headings.  A paragraph that starts with [k] hashes, [k >= 1],
    becomes a heading of level [min k 4] whose text is the rest of the
    paragraph without its leading white space; the level cannot fail
    to be read. *)
Theorem heading_level_and_text (k : nat) (rest : str) :
  startsWith (lit "#") rest = false ->
  textParagraph (replicate (S k) "#"%char ++ rest)
  = Returned (Some (headingOf (S k) (trimStart rest)))
  /\ heading (headingOf (S k) (trimStart rest))
     = Some (match k with
             | 0 => HEADING_1 | 1 => HEADING_2 | 2 => HEADING_3
             | _ => HEADING_4
             end).
Proof.
  intros H. split.
  - unfold textParagraph.
    change (startsWith (lit "#") (replicate (S k) "#"%char ++ rest)) with true.
    by apply headingParagraph_hashes.
  - by destruct k as [| [| [| k]]].
Qed.

(** Table rows.  A trimmed paragraph that does not start with a hash
    and holds two spaces in a row or a tab always becomes the monospace
    paragraph, in both assemblers: the value [undefined] can only come
    from a paragraph with white space at an end. *)
Theorem trimmed_table_row_is_monospace (paragraph : str) :
  trim paragraph = paragraph ->
  startsWith (lit "#") paragraph = false ->
  looksLikeTableRow paragraph = true ->
  textParagraph paragraph = Returned (Some (monospaceParagraph paragraph)) /\
  (startsWith (lit "**") paragraph && endsWith (lit "**") paragraph = false ->
   advancedParagraph paragraph
   = Returned (Some (monospaceParagraph paragraph))).
Proof.
  intros Ht Hh Hrow.
  pose proof (trimmed_row_cells _ Ht Hrow) as Hc.
  assert (commonParagraph paragraph
          = Returned (Some (monospaceParagraph paragraph))) as Hcommon.
  { unfold commonParagraph. rewrite Hrow.
    by rewrite (proj2 (Nat.ltb_lt 1 (length (cellsOf paragraph)))) by lia. }
  split.
  - unfold textParagraph. by rewrite Hh.
  - intros Hs. unfold advancedParagraph. by rewrite Hh, Hs.
Qed.

(** The advanced assembler.  A paragraph that starts with a hash, or
    that starts and ends with two asterisks, makes the callback of
    [createDocxFromTextAdvanced] throw the ReferenceError; every other
    paragraph is treated as by [createDocxFromText]. *)
Theorem advanced_paragraph_outcome (paragraph : str) :
  (startsWith (lit "#") paragraph
   || startsWith (lit "**") paragraph && endsWith (lit "**") paragraph = true ->
   advancedParagraph paragraph = Thrown (lit "AlignmentType is not defined")) /\
  (startsWith (lit "#") paragraph
   || startsWith (lit "**") paragraph && endsWith (lit "**") paragraph = false ->
   advancedParagraph paragraph = textParagraph paragraph).
Proof.
  unfold advancedParagraph, textParagraph. split; intros H.
  - destruct (startsWith (lit "#") paragraph) eqn:Hh.
    + destruct (heading_shape _ Hh) as (k & rest & -> & Hr).
      by rewrite matchAtStart_hashes by by apply startsWith_hash.
    + rewrite orb_false_l in H. by rewrite H.
  - apply orb_false_iff in H as [-> ->]. done.
Qed.

End AssemblerProperties.

Section AssemblerInstances.

Lemma heading_level_and_text_witness :
  textParagraph (replicate 5 "#"%char ++ lit "  Annex")
  = Returned (Some (headingOf 5 (trimStart (lit "  Annex"))))
  /\ heading (headingOf 5 (trimStart (lit "  Annex"))) = Some HEADING_4.
Proof. apply (heading_level_and_text 4 (lit "  Annex")). by_evaluation. Defined.

Lemma trimmed_table_row_is_monospace_witness :
  textParagraph (lit "Item  Qty  Price")
  = Returned (Some (monospaceParagraph (lit "Item  Qty  Price"))) /\
  (startsWith (lit "**") (lit "Item  Qty  Price")
     && endsWith (lit "**") (lit "Item  Qty  Price") = false ->
   advancedParagraph (lit "Item  Qty  Price")
   = Returned (Some (monospaceParagraph (lit "Item  Qty  Price")))).
Proof. apply trimmed_table_row_is_monospace; by_evaluation. Defined.

Lemma advanced_paragraph_outcome_witness :
  (startsWith (lit "#") (lit "## 1. Scope")
   || startsWith (lit "**") (lit "## 1. Scope")
      && endsWith (lit "**") (lit "## 1. Scope") = true ->
   advancedParagraph (lit "## 1. Scope")
   = Thrown (lit "AlignmentType is not defined")) /\
  (startsWith (lit "#") (lit "## 1. Scope")
   || startsWith (lit "**") (lit "## 1. Scope")
      && endsWith (lit "**") (lit "## 1. Scope") = false ->
   advancedParagraph (lit "## 1. Scope") = textParagraph (lit "## 1. Scope")).
Proof. apply advanced_paragraph_outcome. Defined.

End AssemblerInstances.

(** ** The line classifier of [enhanceExtractedText] and the assembler *)

Section EnhancedLineFacts.

Import PdfToWordConverter.

Lemma includes_app (p s : str) :
  includes p s = true -> exists v1 v2, s = v1 ++ p ++ v2.
Proof.
  induction s as [| c s IH].
  - simpl. rewrite orb_false_r. intros (t & ->)%startsWith_app. by exists [], t.
  - rewrite includes_cons. intros [H | H]%orb_true_iff.
    + apply startsWith_app in H as (t & ->). by exists [], t.
    + destruct (IH H) as (v1 & v2 & ->). by exists (c :: v1), v2.
Qed.

Lemma matchHere_tab (t : str) : matchHere (Chr "009") ("009"%char :: t) <> None.
Proof. by apply (matchHere_possible _ _ (None, t)). Qed.

(** a line the assembler takes for a table row is one for [isTableRow] *)
Lemma looksLikeTableRow_isTableRow (line : str) :
  looksLikeTableRow line = true -> isTableRow line = true.
Proof.
  unfold looksLikeTableRow, isTableRow.
  intros [H | H]%orb_true_iff; apply includes_app in H as (v1 & v2 & ->);
    apply orb_true_iff; [left | right]; apply Nat.ltb_lt.
  - pose proof (scan_finds spaceRun v1 (lit "  " ++ v2)
                  (spaceRun_matches " " " " v2 eq_refl eq_refl) []) as Hf.
    destruct (hits _); [done | simpl; lia].
  - pose proof (scan_finds (Chr "009") v1 (["009"%char] ++ v2)
                  (matchHere_tab v2) []) as Hf.
    destruct (hits _); [done | simpl; lia].
Qed.

Lemma emit_tab (p : piece) (x : ascii) :
  x ∈ emit ["009"%char] p -> x = "009"%char \/ p = Plain x.
Proof.
  destruct p as [c | h]; simpl; intros H%list_elem_of_singleton; subst; eauto.
Qed.

(** the characters of a formatted row are its characters and tabs *)
Lemma formatTableRow_chars (P : ascii -> Prop) (line : str) :
  P "009"%char -> Forall P line -> Forall P (formatTableRow line).
Proof.
  intros Htab Hl. apply Forall_forall. intros x Hx.
  apply list_elem_of_bind in Hx as (p & Hx & Hp).
  apply emit_tab in Hx as [-> | ->]; [done |].
  apply scan_chars in Hp. by eapply Forall_forall in Hl.
Qed.

Lemma formatTableRow_head (x : ascii) (t : str) :
  isSpace x = false -> exists t', formatTableRow (x :: t) = x :: t'.
Proof.
  intros Hx. unfold formatTableRow, replaceAll.
  rewrite scan_none by by apply (consumes_solid _ spaceRun_consumes).
  rewrite bind_cons. simpl. eauto.
Qed.

Lemma formatTableRow_last (t : str) (y : ascii) :
  isSpace y = false -> exists t', formatTableRow (t ++ [y]) = t' ++ [y].
Proof.
  intros Hy. unfold formatTableRow, replaceAll.
  destruct (scan_last spaceRun spaceRun_consumes y (length t) Hy t []) as (ps & ->);
    [done |].
  rewrite bind_app, bind_singleton. simpl. eauto.
Qed.

(** a formatted row holds a tab *)
Lemma formatTableRow_tab (line : str) :
  isTableRow line = true -> "009"%char ∈ formatTableRow line.
Proof.
  unfold isTableRow, formatTableRow, replaceAll. intros H.
  destruct (hits (scan spaceRun [] line 0)) as [| h l] eqn:E.
  - rewrite (scan_no_hits _ _ _ E), emit_plain.
    simpl in H. apply Nat.ltb_lt in H.
    destruct (decide ("009"%char ∈ line)) as [| Hn]; [done |]. exfalso.
    assert (scan (Chr "009") [] (line ++ []) 0
            = (Plain <$> line) ++ scan (Chr "009") ([] ++ line) [] 0) as Hq.
    { apply scan_quiet. intros v1 v2 -> Hv2.
      destruct v2 as [| c v2]; [done |].
      destruct (matchHere (Chr "009") ((c :: v2) ++ [])) as [[cap rest] |] eqn:Em;
        [| done].
      apply matchHere_elem in Em as [Em _]. simpl in Em. injection Em as -> _.
      destruct Hn. apply elem_of_app. right. left. }
    rewrite app_nil_r in Hq. rewrite Hq, hits_app, hits_plain in H.
    simpl in H. lia.
  - assert (Found h ∈ scan spaceRun [] line 0) as Hin
      by (apply elem_of_hits; rewrite E; left).
    apply list_elem_of_bind. exists (Found h). split; [left | done].
Qed.

(** a formatted row of a trimmed line is a table row for the assembler *)
Lemma formatTableRow_row (line : str) :
  trim line = line -> line <> [] -> isTableRow line = true ->
  trim (formatTableRow line) = formatTableRow line /\
  looksLikeTableRow (formatTableRow line) = true.
Proof.
  intros Ht Hne Hrow. split.
  - destruct (trimmed_head _ Ht Hne) as (x & t & E & Hx).
    destruct (trimmed_last _ Ht Hne) as (t' & y & E' & Hy).
    destruct (formatTableRow_head x t Hx) as (u & Hu).
    destruct (formatTableRow_last t' y Hy) as (u' & Hu').
    rewrite <- E in Hu. rewrite <- E' in Hu'. rewrite Hu.
    apply (trim_fixed x y u u'); [done | done | congruence].
  - unfold looksLikeTableRow. apply orb_true_iff. right.
    by apply includes_elem, formatTableRow_tab.
Qed.

Lemma textParagraph_hash (paragraph : str) :
  startsWith (lit "#") paragraph = true ->
  exists k text, textParagraph paragraph = Returned (Some (headingOf k text)).
Proof.
  intros H. destruct (heading_shape _ H) as (k & rest & -> & Hr).
  unfold textParagraph.
  change (startsWith (lit "#") (replicate (S k) "#"%char ++ rest)) with true.
  rewrite headingParagraph_hashes by done. eauto.
Qed.

Variable toUpperCase : str -> str.

Lemma enhanceLine_without (c : ascii) (raw : str) :
  c <> "009"%char -> c <> "#"%char -> c <> " "%char ->
  without c raw -> without c (enhanceLine toUpperCase raw).
Proof.
  intros H1 H2 H3 Hraw. pose proof (Forall_trim _ _ Hraw) as Hl.
  unfold enhanceLine.
  case_bool_decide; [constructor |].
  destruct (isTableRow (trim raw)); [by apply formatTableRow_chars |].
  destruct (isHeader toUpperCase (trim raw)); [by repeat constructor |].
  destruct (isNumberedList (trim raw)); [by repeat constructor |].
  destruct (isBulletPoint (trim raw)); [by repeat constructor | done].
Qed.

(** every line [enhanceExtractedText] produces, unless blank, gives a
    paragraph without list options *)
Lemma enhanceLine_paragraph (raw : str) :
  trim (enhanceLine toUpperCase raw) <> [] ->
  exists p, textParagraph (enhanceLine toUpperCase raw) = Returned (Some p)
            /\ unlisted p.
Proof.
  unfold enhanceLine. pose proof (trim_idem raw) as Ht.
  case_bool_decide as Hne; [done |]. intros _.
  assert (forall o, startsWith (lit "#") o = true ->
            exists p, textParagraph o = Returned (Some p) /\ unlisted p) as Hhash.
  { intros o Ho. destruct (textParagraph_hash _ Ho) as (k & text & ->).
    by eexists. }
  destruct (isTableRow (trim raw)) eqn:Hrow.
  { destruct (formatTableRow_row _ Ht Hne Hrow) as [Hf Hl].
    destruct (startsWith (lit "#") (formatTableRow (trim raw))) eqn:Hh;
      [by apply Hhash |].
    exists (monospaceParagraph (formatTableRow (trim raw))). split; [| done].
    unfold textParagraph. rewrite Hh. unfold commonParagraph. rewrite Hl.
    pose proof (trimmed_row_cells _ Hf Hl) as Hc.
    by rewrite (proj2 (Nat.ltb_lt 1 _)) by lia. }
  destruct (isHeader toUpperCase (trim raw)); [by apply Hhash |].
  destruct (isNumberedList (trim raw)) eqn:Hnum; [by apply Hhash |].
  destruct (isBulletPoint (trim raw)) eqn:Hbul; [by apply Hhash |].
  destruct (startsWith (lit "#") (trim raw)) eqn:Hh; [by apply Hhash |].
  unfold textParagraph. rewrite Hh. unfold commonParagraph.
  destruct (looksLikeTableRow (trim raw)) eqn:Hl.
  { apply looksLikeTableRow_isTableRow in Hl. congruence. }
  unfold isNumberedList in Hnum. unfold isBulletPoint in Hbul.
  rewrite Hnum, Hbul. by eexists.
Qed.

Lemma mapOutcome_defined {A B : Type} (f : A -> outcome (option B))
    (Q : B -> Prop) (l : list A) :
  Forall (fun x => exists p, f x = Returned (Some p) /\ Q p) l ->
  exists ps, mapOutcome f l = Returned (Some <$> ps) /\ Forall Q ps.
Proof.
  induction 1 as [| x l (p & Hp & Hq) _ (ps & IH & Hps)]; [by exists [] |].
  exists (p :: ps). simpl. rewrite Hp, IH. split; [done | by constructor].
Qed.

Lemma enhanced_lines (text : str) :
  text <> [] ->
  splitOn "010" (enhanceExtractedText toUpperCase text)
  = enhanceLine toUpperCase <$> splitOn "010" (normalizeText text).
Proof.
  intros Hne. destruct text as [| c text]; [done |].
  unfold enhanceExtractedText. apply splitOn_join.
  - pose proof (splitOn_nonempty "010" (normalizeText (c :: text))) as H.
    by destruct (splitOn _ _).
  - apply Forall_fmap. eapply Forall_impl; [apply splitOn_without |].
    intros raw Hraw. by apply enhanceLine_without.
Qed.

Lemma enhanced_children (text : str) :
  exists ps,
    sectionChildren (enhanceExtractedText toUpperCase text)
    = Returned (Some <$> ps) /\
    Forall unlisted ps.
Proof.
  unfold sectionChildren, paragraphsOf.
  destruct text as [| c text]; [by exists [] |].
  rewrite enhanced_lines by done.
  apply mapOutcome_defined, Forall_forall.
  intros o [Ho (raw & -> & _)%list_elem_of_fmap]%list_elem_of_filter.
  by apply enhanceLine_paragraph.
Qed.

End EnhancedLineFacts.

Section EnhancedTextProperties.

Import PdfToWordConverter.

(** Lists become headings.  On the text-extraction path a header line
    reaches the assembler as a level-1 heading, a numbered item as a
    level-2 heading and a bullet item as a level-3 heading, each with
    the trimmed line as its text. *)
Theorem enhanced_lists_become_headings (toUpperCase : str -> str) (raw : str) :
  isTableRow (trim raw) = false ->
  (isHeader toUpperCase (trim raw) = true ->
   textParagraph (enhanceLine toUpperCase raw)
   = Returned (Some (headingOf 1 (trim raw)))) /\
  (isHeader toUpperCase (trim raw) = false ->
   isNumberedList (trim raw) = true ->
   textParagraph (enhanceLine toUpperCase raw)
   = Returned (Some (headingOf 2 (trim raw)))) /\
  (isHeader toUpperCase (trim raw) = false ->
   isNumberedList (trim raw) = false ->
   isBulletPoint (trim raw) = true ->
   textParagraph (enhanceLine toUpperCase raw)
   = Returned (Some (headingOf 3 (trim raw)))).
Proof.
  intros Hrow.
  assert (forall k, textParagraph (replicate (S k) "#"%char ++ " "%char :: trim raw)
                    = Returned (Some (headingOf (S k) (trim raw)))) as Hh.
  { intros k. unfold textParagraph.
    change (startsWith (lit "#") (replicate (S k) "#"%char ++ " "%char :: trim raw))
      with true.
    rewrite headingParagraph_hashes by done.
    change (trimStart (" "%char :: trim raw)) with (trimStart (trim raw)).
    by rewrite trimStart_trim. }
  unfold enhanceLine. rewrite Hrow. split_and!.
  - intros Hhead. rewrite Hhead. case_bool_decide as Hne; [| apply (Hh 0)].
    rewrite Hne in Hhead. unfold isHeader in Hhead. simpl in Hhead.
    by rewrite andb_false_r in Hhead.
  - intros -> Hnum. rewrite Hnum. case_bool_decide as Hne; [| apply (Hh 1)].
    by rewrite Hne in Hnum.
  - intros -> -> Hbul. rewrite Hbul. case_bool_decide as Hne; [| apply (Hh 2)].
    by rewrite Hne in Hbul.
Qed.

(** No hole on the text-extraction path.  For every extracted text,
    the assembler run on [enhanceExtractedText text] returns a paragraph
    for every line (no [undefined] child), and none of them uses the
    numbering or the bullet option. *)
Theorem enhanced_text_has_no_undefined_child
    (toUpperCase : str -> str) (text : str) :
  exists ps,
    sectionChildren (enhanceExtractedText toUpperCase text)
    = Returned (Some <$> ps) /\
    Forall unlisted ps.
Proof. apply enhanced_children. Qed.

(** Line structure.  [enhanceExtractedText] maps the lines of the
    normalised text one to one: line [i] of its result is the enhanced
    form of line [i], so the number of lines is kept. *)
Theorem enhanced_text_keeps_lines (toUpperCase : str -> str) (text : str) :
  text <> [] ->
  splitOn "010" (enhanceExtractedText toUpperCase text)
  = enhanceLine toUpperCase <$> splitOn "010" (normalizeText text)
  /\ length (splitOn "010" (enhanceExtractedText toUpperCase text))
     = length (splitOn "010" (normalizeText text)).
Proof.
  intros H. rewrite enhanced_lines by done. by rewrite length_fmap.
Qed.

End EnhancedTextProperties.

Section EnhancedTextInstances.

Import PdfToWordConverter AdvancedPdfToWordConverter.

Lemma enhanced_lists_become_headings_witness :
  (PdfToWordConverter.isHeader asciiUpper (trim (lit " 1. Scope of work ")) = true ->
   textParagraph (enhanceLine asciiUpper (lit " 1. Scope of work "))
   = Returned (Some (headingOf 1 (trim (lit " 1. Scope of work "))))) /\
  (PdfToWordConverter.isHeader asciiUpper (trim (lit " 1. Scope of work ")) = false ->
   PdfToWordConverter.isNumberedList (trim (lit " 1. Scope of work ")) = true ->
   textParagraph (enhanceLine asciiUpper (lit " 1. Scope of work "))
   = Returned (Some (headingOf 2 (trim (lit " 1. Scope of work "))))) /\
  (PdfToWordConverter.isHeader asciiUpper (trim (lit " 1. Scope of work ")) = false ->
   PdfToWordConverter.isNumberedList (trim (lit " 1. Scope of work ")) = false ->
   PdfToWordConverter.isBulletPoint (trim (lit " 1. Scope of work ")) = true ->
   textParagraph (enhanceLine asciiUpper (lit " 1. Scope of work "))
   = Returned (Some (headingOf 3 (trim (lit " 1. Scope of work "))))).
Proof. apply enhanced_lists_become_headings. by_evaluation. Defined.

Lemma enhanced_text_keeps_lines_witness :
  splitOn "010"
    (enhanceExtractedText asciiUpper
       (lit "TOTAL" ++ "010"%char :: lit " 1. Scope"))
  = enhanceLine asciiUpper
      <$> splitOn "010"
            (PdfToWordConverter.normalizeText
               (lit "TOTAL" ++ "010"%char :: lit " 1. Scope"))
  /\ length (splitOn "010"
               (enhanceExtractedText asciiUpper
                  (lit "TOTAL" ++ "010"%char :: lit " 1. Scope")))
     = length (splitOn "010"
                 (PdfToWordConverter.normalizeText
                    (lit "TOTAL" ++ "010"%char :: lit " 1. Scope"))).
Proof. apply enhanced_text_keeps_lines. by_evaluation. Defined.

End EnhancedTextInstances.

(** ** Text without placeholders *)

Section QuietTextFacts.

Lemma quiet_scan (r' : regex) (text bef : str) :
  includes (lit "{{") text = false ->
  scan (Seq (Chr "{") (Seq (Chr "{") r')) bef text 0 = Plain <$> text.
Proof.
  intros H. rewrite <- (app_nil_r text) at 1.
  rewrite scan_quiet.
  - rewrite scan_nil by apply matchHere_empty. apply app_nil_r.
  - intros v1 v2 E Hv. apply no_opening. intros t Et.
    rewrite app_nil_r in Et.
    pose proof (includes_suffix _ _ _ _ H E) as Hs.
    assert (startsWith (lit "{{") v2 = true) by (apply startsWith_app; by exists t).
    congruence.
Qed.

(** the turn of a key without syntax characters copies a text that
    holds no opening [{{] *)
Lemma replaceOne_quiet (variables : ValueMap) (text k : str) :
  includes (lit "{{") text = false ->
  Forall (fun c => isSyntaxChar c = false) k ->
  replaceOne variables text k = Some (Returned text).
Proof.
  intros H Hk. unfold replaceOne. rewrite compile_plain by done.
  unfold replaceAll, nameRegex. by rewrite quiet_scan, emit_plain.
Qed.

Lemma replaceStep_quiet (variables : ValueMap) (text : str) (ks : list str) :
  includes (lit "{{") text = false ->
  Forall (Forall (fun c => isSyntaxChar c = false)) ks ->
  foldl (replaceStep variables) (Some (Returned text)) ks = Some (Returned text).
Proof.
  intros H. induction 1 as [| k ks Hk _ IH]; [done |].
  cbn [foldl replaceStep]. by rewrite replaceOne_quiet.
Qed.

End QuietTextFacts.

Section QuietTextProperties.

(** Text without an opening [{{].  Extraction finds no variable in
    it, and substitution returns it unchanged for every ValueMap whose
    keys hold no syntax character of patterns, whatever the values.
    (A key with such a character gives another pattern: the one of the
    key [a|b] matches [b}}], which needs no opening braces.) *)
Theorem text_without_placeholders_is_kept (text : str) :
  includes (lit "{{") text = false ->
  (forall vars, addVariables vars text = vars) /\
  (forall variables,
     Forall (Forall (fun c => isSyntaxChar c = false)) (keys variables) ->
     replaceVariables text variables = Some (Returned text)).
Proof.
  intros H. split.
  - intros vars. unfold addVariables, variableRegex.
    by rewrite quiet_scan, hits_plain.
  - intros variables Hks. by apply (replaceStep_quiet variables text).
Qed.

End QuietTextProperties.

(** ** Tags in header and footer XML *)

Section TagFacts.

Lemma tagRegex_spec (cap : option str) (s : str) (st' : mstate) :
  st' ∈ rmatch tagRegex (cap, s) <->
  exists body, body <> [] /\ without ">" body /\
    s = "<"%char :: body ++ ">"%char :: st'.2 /\ st'.1 = cap.
Proof.
  rewrite rmatch_den.
  change (den tagRegex (cap, s) st')
    with (exists m1, den (Chr "<") (cap, s) m1 /\
          exists m2, den (Plus (Cls (notChar ">"))) m1 m2 /\
                     den (Chr ">") m2 st').
  split.
  - intros ([c1 s1] & [E1 C1] & [c2 s2] & Hp & [E2 C2]).
    apply den_plus_cls in Hp as (w & Hne & Hw & E & C). simpl in *. subst.
    exists w. split_and!; [done | by apply without_notChar | done | done].
  - intros (body & Hne & Hb & -> & C).
    exists (cap, body ++ ">"%char :: st'.2). split; [done |].
    exists (cap, ">"%char :: st'.2). split; [| done].
    apply den_plus_cls. exists body.
    split_and!; [done | by apply without_notChar | done | done].
Qed.

Lemma matchHere_tag (body rest : str) :
  body <> [] -> without ">" body ->
  matchHere tagRegex ("<"%char :: body ++ ">"%char :: rest) = Some (None, rest).
Proof.
  intros Hne Hb. apply head_unique.
  - apply tagRegex_spec. by exists body.
  - intros [c t] (body' & Hne' & Hb' & E & C)%tagRegex_spec. simpl in *.
    injection E as E. destruct (first_occurrence _ _ _ _ _ Hb Hb' E) as [_ ->].
    by subst.
Qed.

Lemma matchHere_no_tag (s : str) :
  (forall t, s <> "<"%char :: t) -> matchHere tagRegex s = None.
Proof.
  intros H. apply head_absent. intros [c t] (body & _ & _ & E & _)%tagRegex_spec.
  by eapply H.
Qed.

Lemma renderXml_cons (p : xmlPiece) (pieces : list xmlPiece) :
  renderXml (p :: pieces) = renderPiece p ++ renderXml pieces.
Proof. done. Qed.

Lemma charData_cons (p : xmlPiece) (pieces : list xmlPiece) :
  charData (p :: pieces)
  = match p with CharData s => s | Tag _ => [] end ++ charData pieces.
Proof. done. Qed.

Lemma strip_pieces (pieces : list xmlPiece) :
  Forall wellFormed pieces ->
  forall bef : str,
    scan tagRegex bef (renderXml pieces) 0 ≫= emit [] = charData pieces.
Proof.
  induction 1 as [| p pieces Hp _ IH]; intros bef.
  - by rewrite scan_nil by by apply matchHere_no_tag.
  - rewrite renderXml_cons, charData_cons. destruct p as [s | body].
    + simpl in Hp. cbn [renderPiece]. rewrite scan_quiet.
      * by rewrite bind_app, emit_plain, IH.
      * intros v1 v2 -> Hv. apply matchHere_no_tag. intros t Et.
        destruct v2 as [| c v2]; [done |]. injection Et as -> _.
        apply Forall_app in Hp as [_ Hp]. by inversion Hp.
    + destruct Hp as [Hne Hb].
      change (renderPiece (Tag body) ++ renderXml pieces)
        with (("<"%char :: body ++ [">"%char]) ++ renderXml pieces).
      pose proof (matchHere_tag body (renderXml pieces) Hne Hb) as Hm.
      assert ("<"%char :: body ++ ">"%char :: renderXml pieces
              = ("<"%char :: body ++ [">"%char]) ++ renderXml pieces) as E
        by (simpl; by rewrite <- app_assoc).
      rewrite E in Hm.
      rewrite (scan_hit _ ("<"%char :: body ++ [">"%char]) _ bef _ ltac:(done) Hm).
      rewrite bind_cons. cbn [emit getSubstitution]. by rewrite IH.
Qed.

End TagFacts.

Section TagProperties.

(** Tag stripping.  On header or footer XML made of character data
    (without [<]) and tags (non-empty, without [>]) the replacement by
    the tag pattern leaves exactly the character data, so the names
    collected from the part are those of its character data with the
    tags taken out: a placeholder split over several runs is found. *)
Theorem tags_are_stripped (pieces : list xmlPiece) (vars : list str) :
  Forall wellFormed pieces ->
  replaceAll tagRegex [] (renderXml pieces) = charData pieces /\
  scanParts vars [Returned (renderXml pieces)]
  = addVariables vars (charData pieces).
Proof.
  intros H.
  assert (replaceAll tagRegex [] (renderXml pieces) = charData pieces) as E
    by by apply strip_pieces.
  split; [done |]. simpl. by rewrite E.
Qed.

End TagProperties.

(** ** File statistics *)

Section StatsFacts.

Import FileStats.

Lemma filter_blank (m : list ascii) :
  blank m -> filter (fun c => isSpace c = false) m = [].
Proof.
  induction 1 as [| c m Hc _ IH]; [done |].
  rewrite filter_cons_False by congruence. done.
Qed.

(** the cells of a split at white space hold the solid characters of
    the text, in order, and nothing else *)
Lemma splitGo_solid (n : nat) :
  forall (s : list ascii) (cur : str), length s <= n ->
    Forall (fun c => isSpace c = false) cur ->
    Forall (Forall (fun c => isSpace c = false)) (splitGo whitespaceRun s 0 cur)
    /\ concat (splitGo whitespaceRun s 0 cur)
       = cur ++ filter (fun c => isSpace c = false) s.
Proof.
  induction n as [n IH] using lt_wf_ind. intros s cur Hn Hcur.
  destruct s as [| c s].
  - simpl. rewrite !app_nil_r. by repeat constructor.
  - destruct (matchHere whitespaceRun (c :: s)) as [[cap rest] |] eqn:E.
    + destruct (whitespaceRun_consumes _ _ _ E) as (m & Hm & Hb & Hs).
      rewrite Hs in *. rewrite (splitGo_hit _ m cap rest cur Hm E).
      destruct (IH (length rest)) with (s := rest) (cur := @nil ascii)
        as [IH1 IH2]; [| done | constructor |].
      * rewrite length_app in Hn. destruct m; [done |]. simpl in Hn. lia.
      * split; [by constructor |].
        simpl. by rewrite IH2, filter_app, (filter_blank m Hb).
    + destruct (isSpace c) eqn:Hc.
      { by destruct (whitespaceRun_matches c s Hc). }
      rewrite splitGo_none by done.
      destruct (IH (length s)) with (s := s) (cur := cur ++ [c])
        as [IH1 IH2]; [simpl in Hn; lia | done | |].
      * apply Forall_app. split; [done | by repeat constructor].
      * split; [done |]. rewrite IH2, filter_cons_True by done.
        by rewrite <- app_assoc.
Qed.

Lemma concat_filter_nonempty (l : list str) :
  concat (filter (fun word : str => 0 < length word) l) = concat l.
Proof.
  induction l as [| w l IH]; [done |].
  rewrite filter_cons. destruct (decide (0 < length w)) as [H | H]; simpl.
  - by rewrite IH.
  - destruct w; [done | simpl in H; lia].
Qed.

Lemma wordsOf_solid (text : list ascii) :
  Forall (fun word => word <> [] /\ Forall (fun c => isSpace c = false) word)
         (wordsOf text)
  /\ concat (wordsOf text) = filter (fun c => isSpace c = false) text.
Proof.
  unfold wordsOf, split. destruct text as [| c text].
  - destruct (matchHere whitespaceRun []); [done |].
    rewrite filter_cons_False by (simpl; lia). done.
  - destruct (splitGo_solid (length (c :: text)) (c :: text) [])
      as [H1 H2]; [done | constructor |].
    split.
    + apply Forall_forall. intros w [Hw Hin]%list_elem_of_filter. split.
      * intros ->. simpl in Hw. lia.
      * by eapply Forall_forall in H1.
    + by rewrite concat_filter_nonempty, H2.
Qed.

Lemma length_concat_nonempty (l : list str) :
  Forall (fun w => w <> []) l -> length l <= length (concat l).
Proof.
  induction 1 as [| w l Hw _ IH]; [done |].
  simpl. rewrite length_app. destruct w; [done |]. simpl. lia.
Qed.

Lemma setAdd_extends (x : str) (l : list str) : exists more, setAdd x l = l ++ more.
Proof.
  unfold setAdd. case_bool_decide; [exists []; by rewrite app_nil_r | by eexists].
Qed.

Lemma addVariables_extends (vars : list str) (text : str) :
  exists more, addVariables vars text = vars ++ more.
Proof.
  unfold addVariables. generalize (hits (scan variableRegex [] text 0)).
  intros hs. revert vars. induction hs as [| h hs IH]; intros vars.
  - exists []. by rewrite app_nil_r.
  - simpl. destruct (setAdd_extends (trim (group1 h)) vars) as (m1 & ->).
    destruct (IH (vars ++ m1)) as (m2 & ->).
    exists (m1 ++ m2). by rewrite app_assoc.
Qed.

Lemma scanParts_extends (files : list (outcome str)) :
  forall vars, exists more, scanParts vars files = vars ++ more.
Proof.
  induction files as [| [xml | e] files IH]; intros vars.
  - exists []. by rewrite app_nil_r.
  - simpl. destruct (addVariables_extends vars (replaceAll tagRegex [] xml))
      as (m1 & ->).
    destruct (IH (vars ++ m1)) as (m2 & ->).
    exists (m1 ++ m2). by rewrite app_assoc.
  - exists []. by rewrite app_nil_r.
Qed.

End StatsFacts.

Section StatsProperties.

Import FileStats.

(** Counts.  For a readable document the statistics are returned;
    the line count is one more than the number of line feeds, the words
    are non-empty, hold no white space and together hold exactly the
    characters of the text that are no white space, so the word count
    is zero exactly for a blank text and never exceeds the character
    count. *)
Theorem stats_counts (doc : DocxFile) (body : list ascii) (msgs : list str) :
  rawText doc = Returned (body, msgs) ->
  exists st,
    getFileStats doc = Returned st /\
    characterCount st = length body /\
    lineCount st = S (length (filter (fun c => c = "010"%char) body)) /\
    wordCount st = length (wordsOf body) /\
    Forall (fun word => word <> [] /\ Forall (fun c => isSpace c = false) word)
           (wordsOf body) /\
    concat (wordsOf body) = filter (fun c => isSpace c = false) body /\
    (wordCount st = 0 <-> blank body) /\
    wordCount st <= characterCount st.
Proof.
  intros H. unfold getFileStats. rewrite H. eexists. split; [done |].
  destruct (wordsOf_solid body) as [Hw Hc]. cbn [characterCount lineCount wordCount].
  split_and!; [done | apply length_splitOn | done | done | done | |].
  - split.
    + intros H0. apply length_zero_iff_nil in H0. rewrite H0 in Hc. simpl in Hc.
      apply Forall_forall. intros c Hin.
      destruct (isSpace c) eqn:Hs; [done |].
      assert (c ∈ filter (fun c => isSpace c = false) body) as Hf
        by by apply list_elem_of_filter.
      rewrite <- Hc in Hf. by apply elem_of_nil in Hf.
    + intros Hb. rewrite filter_blank in Hc by done.
      destruct (wordsOf body) as [| w ws]; [done |].
      apply Forall_cons in Hw as [[Hne _] _]. simpl in Hc.
      by apply app_eq_nil in Hc as [-> _].
  - etrans; [apply length_concat_nonempty |].
    + eapply Forall_impl; [exact Hw |]. by intros w [? _].
    + rewrite Hc. apply length_filter.
Qed.

(** Variables in the statistics.  The statistics report the names of
    the body text only: they are the first names of the list that
    extraction reports for the same document, which adds the names found
    only in headers and footers after them. *)
Theorem stats_variables_are_body_names (doc : DocxFile) (st : Stats)
    (e : Extraction) :
  getFileStats doc = Returned st ->
  extractTextAndVariables doc = Returned e ->
  variableCount st = length (FileStats.variables st) /\
  characterCount st = length (text e) /\
  FileStats.variables st = addVariables [] (text e) /\
  exists more, DocxProcessor.variables e = FileStats.variables st ++ more.
Proof.
  unfold getFileStats, extractTextAndVariables.
  destruct (rawText doc) as [[body msgs] | msg]; [| done].
  intros [= <-] [= <-]. simpl. split_and!; try done.
  destruct (headerFooterFiles doc) as [files | msg].
  - apply scanParts_extends.
  - exists []. by rewrite app_nil_r.
Qed.

End StatsProperties.

Section VariableExtrasInstances.

Import FileStats.

Lemma text_without_placeholders_is_kept_witness :
  (forall vars, addVariables vars (lit "Total: {5} units") = vars) /\
  (forall variables,
     Forall (Forall (fun c => isSyntaxChar c = false)) (keys variables) ->
     replaceVariables (lit "Total: {5} units") variables
     = Some (Returned (lit "Total: {5} units"))).
Proof. apply text_without_placeholders_is_kept. by_evaluation. Defined.

Lemma tags_are_stripped_witness :
  replaceAll tagRegex []
    (renderXml [Tag (lit "w:t"); CharData (lit "Ref {{Na"); Tag (lit "/w:t");
                Tag (lit "w:t"); CharData (lit "me}}"); Tag (lit "/w:t")])
  = charData [Tag (lit "w:t"); CharData (lit "Ref {{Na"); Tag (lit "/w:t");
              Tag (lit "w:t"); CharData (lit "me}}"); Tag (lit "/w:t")] /\
  scanParts []
    [Returned (renderXml [Tag (lit "w:t"); CharData (lit "Ref {{Na");
                          Tag (lit "/w:t"); Tag (lit "w:t");
                          CharData (lit "me}}"); Tag (lit "/w:t")])]
  = addVariables []
      (charData [Tag (lit "w:t"); CharData (lit "Ref {{Na"); Tag (lit "/w:t");
                 Tag (lit "w:t"); CharData (lit "me}}"); Tag (lit "/w:t")]).
Proof. apply tags_are_stripped. by_evaluation. Defined.

Lemma stats_counts_witness :
  exists st,
    getFileStats {| rawText := Returned (lit "Dear {{Name}}", []);
                    headerFooterFiles := Returned [] |} = Returned st /\
    characterCount st = length (lit "Dear {{Name}}") /\
    lineCount st
    = S (length (filter (fun c => c = "010"%char) (lit "Dear {{Name}}"))) /\
    wordCount st = length (wordsOf (lit "Dear {{Name}}")) /\
    Forall (fun word => word <> [] /\ Forall (fun c => isSpace c = false) word)
           (wordsOf (lit "Dear {{Name}}")) /\
    concat (wordsOf (lit "Dear {{Name}}"))
    = filter (fun c => isSpace c = false) (lit "Dear {{Name}}") /\
    (wordCount st = 0 <-> blank (lit "Dear {{Name}}")) /\
    wordCount st <= characterCount st.
Proof.
  apply (stats_counts
           {| rawText := Returned (lit "Dear {{Name}}", []);
              headerFooterFiles := Returned [] |} (lit "Dear {{Name}}") []).
  reflexivity.
Defined.

Lemma stats_variables_are_body_names_witness :
  let doc := {| rawText := Returned (lit "Dear {{Name}}", []);
                headerFooterFiles := Returned [Returned (lit "<w:t>{{Ref}}</w:t>")] |} in
  let st := {| wordCount := 2; characterCount := 13; lineCount := 1;
               variableCount := 1; FileStats.variables := [lit "Name"] |} in
  let e := {| text := lit "Dear {{Name}}";
              DocxProcessor.variables := [lit "Name"; lit "Ref"];
              messages := [] |} in
  variableCount st = length (FileStats.variables st) /\
  characterCount st = length (text e) /\
  FileStats.variables st = addVariables [] (text e) /\
  exists more, DocxProcessor.variables e = FileStats.variables st ++ more.
Proof.
  intros doc st e. apply (stats_variables_are_body_names doc st e); reflexivity.
Defined.

End VariableExtrasInstances.

(** ** Running effectful code *)

Section MonadFacts.

Import PdfToWordConverter.

Lemma bind_eval {E A B : Type} (m : M E A) (k : A -> M E B)
    (fs f1 f2 : gmap str str) (a : A) (r : outcome B) (o1 o2 : list E) :
  m fs = (Returned a, o1, f1) -> k a f1 = (r, o2, f2) ->
  (m ≫= k) fs = (r, o1 ++ o2, f2).
Proof. intros H1 H2. unfold mbind, M_bind, bind. by rewrite H1, H2. Qed.

Lemma bind_throw {E A B : Type} (m : M E A) (k : A -> M E B)
    (fs f1 : gmap str str) (e : str) (o1 : list E) :
  m fs = (Thrown e, o1, f1) -> (m ≫= k) fs = (Thrown e, o1, f1).
Proof. intros H1. unfold mbind, M_bind, bind. by rewrite H1. Qed.

Lemma tryCatch_throws {E A : Type} (m : M E A) (h : str -> M E A)
    (fs fs' : gmap str str) (e : str) (out : list E) :
  tryCatch m h fs = (Thrown e, out, fs') ->
  exists e0 o1 f1 o2,
    m fs = (Thrown e0, o1, f1) /\ h e0 f1 = (Thrown e, o2, fs')
    /\ out = o1 ++ o2.
Proof.
  unfold tryCatch. destruct (m fs) as [[[a | e0] o1] f1]; [done |].
  destruct (h e0 f1) as [[r o2] f2] eqn:Hh. intros [= -> <- ->].
  by exists e0, o1, f1, o2.
Qed.

Lemma tryCatch_eval {E A : Type} (m : M E A) (h : str -> M E A)
    (fs f1 : gmap str str) (a : A) (o1 : list E) :
  m fs = (Returned a, o1, f1) -> tryCatch m h fs = (Returned a, o1, f1).
Proof. intros H. unfold tryCatch. by rewrite H. Qed.

Lemma tryCatch_caught {E A : Type} (m : M E A) (h : str -> M E A)
    (fs f1 f2 : gmap str str) (e : str) (r : outcome A) (o1 o2 : list E) :
  m fs = (Thrown e, o1, f1) -> h e f1 = (r, o2, f2) ->
  tryCatch m h fs = (r, o1 ++ o2, f2).
Proof. intros H1 H2. unfold tryCatch. by rewrite H1, H2. Qed.

Lemma consoleLog_run (l : str) (fs : gmap str str) :
  consoleLog l fs = (Returned tt, [l], fs).
Proof. done. Qed.

Lemma consoleLog2_run (a b : str) (fs : gmap str str) :
  consoleLog2 a b fs = (Returned tt, [a ++ lit " " ++ b], fs).
Proof. done. Qed.

End MonadFacts.

(** ** The text-extraction strategy *)

Section ExtractionFacts.

Import PdfToWordConverter.

Variable requirePdfParse : outcome unit.
Variable pdfParse : str -> outcome str.
Variable pack : list (option Paragraph) -> outcome str.
Variable writeError : str -> gmap str str -> option str.
Variable toUpperCase : str -> str.
Variables input output : str.


Lemma enhanced_extraction_run (fs : gmap str str) :
  convertWithEnhancedTextExtraction requirePdfParse pdfParse pack writeError
    toUpperCase input output fs
  = match requirePdfParse with
    | Thrown e => (Thrown e, [], fs)
    | Returned _ =>
        match fs !! input with
        | None => (Thrown (noSuchFile input), [], fs)
        | Some dataBuffer =>
            match pdfParse dataBuffer with
            | Thrown e => (Thrown e, [], fs)
            | Returned text =>
                match createDocxFromText pack writeError
                        (enhanceExtractedText toUpperCase text) output fs with
                | (Returned _, o, f) =>
                    (Returned output,
                     o ++ [lit "Enhanced text extraction conversion successful"],
                     f)
                | (Thrown e, o, f) => (Thrown e, o, f)
                end
            end
        end
    end.
Proof.
  unfold convertWithEnhancedTextExtraction, mbind, M_bind, bind, readFile,
    pure, consoleLog, ret.
  destruct requirePdfParse as [[] | e]; [| done].
  destruct (fs !! input) as [dataBuffer |]; [| done].
  destruct (pdfParse dataBuffer) as [text | e]; [| done].
  destruct (createDocxFromText _ _ _ _ _) as [[[p | e] o] f]; [| done].
  by rewrite app_nil_r.
Qed.

Lemma enhanced_extraction_returns (fs f : gmap str str) (p : str) (o : list str) :
  convertWithEnhancedTextExtraction requirePdfParse pdfParse pack writeError
    toUpperCase input output fs
  = (Returned p, o, f) -> p = output.
Proof.
  rewrite enhanced_extraction_run.
  destruct requirePdfParse as [[] | e']; [| done].
  destruct (fs !! input) as [dataBuffer |]; [| done].
  destruct (pdfParse dataBuffer) as [text | e']; [| done].
  destruct (createDocxFromText _ _ _ _ _) as [[[p' | e] o'] f']; [| done].
  by intros [= <- _ _].
Qed.

Variable dirname : str -> str.
Variable pdf2pic : str -> str -> gmap str str -> outcome unit * gmap str str.

(** Whatever strategy 3 does, it has called the method of strategy 4,
    once or twice, and its outcome is the outcome of the last of these
    calls. *)
Lemma alternative_parsing_outcome (fs f : gmap str str) (r : outcome str)
    (o : list event) :
  convertWithAlternativeParsing dirname requirePdfParse pdfParse pdf2pic pack
    writeError toUpperCase input output fs = (r, o, f) ->
  (invocations o = [4] \/ invocations o = [4; 4]) /\
  exists g o4,
    convertWithEnhancedTextExtraction requirePdfParse pdfParse pack writeError
      toUpperCase input output g = (r, o4, f).
Proof.
  unfold convertWithAlternativeParsing, callEnhancedTextExtraction, tryCatch,
    mbind, M_bind, bind, run, lift, mark, consoleLog2, consoleLog.
  destruct (pdf2pic input (dirname output) fs) as [[[] | e] g].
  - destruct (convertWithEnhancedTextExtraction _ _ _ _ _ _ _ g)
      as [[[p | e] o1] g1] eqn:H1.
    + intros [= <- <- <-]. split; [| by eauto]. left.
      cbn. by rewrite invocations_lines.
    + destruct (convertWithEnhancedTextExtraction _ _ _ _ _ _ _ g1)
        as [[r2 o2] g2] eqn:H2.
      intros [= <- <- <-]. split; [| by eauto]. right.
      cbn. rewrite invocations_app, invocations_lines. cbn.
      by rewrite invocations_lines.
  - destruct (convertWithEnhancedTextExtraction _ _ _ _ _ _ _ g)
      as [[r1 o1] g1] eqn:H1.
    intros [= <- <- <-]. split; [| by eauto]. left.
    cbn. by rewrite invocations_lines.
Qed.

End ExtractionFacts.

(** ** Four guarded attempts in a row *)

Section ChainFacts.

Import PdfToWordConverter.

Variables start last i1 x1 i2 x2 i3 x3 : str.
Variables s1 s2 s3 s4 : M event str.

Lemma invocations_cons_line (l : str) (t : list event) :
  invocations (Line l :: t) = invocations t.
Proof. done. Qed.

Lemma invocations_cons_mark (n : nat) (t : list event) :
  invocations (Invoke n :: t) = n :: invocations t.
Proof. done. Qed.

Lemma consoleLines_cons_line (l : str) (t : list event) :
  consoleLines (Line l :: t) = l :: consoleLines t.
Proof. done. Qed.

Lemma consoleLines_cons_mark (n : nat) (t : list event) :
  consoleLines (Invoke n :: t) = consoleLines t.
Proof. done. Qed.

Lemma last_step (f : gmap str str) :
  (run (consoleLog last) ;; mark 4 ;; s4) f
  = (let '(r, o, f') := s4 f in (r, Line last :: Invoke 4 :: o, f')).
Proof.
  unfold mbind, M_bind, bind, run, consoleLog, mark. cbn.
  by destruct (s4 f) as [[[? | ?] ?] ?].
Qed.

(** The possible runs of a cascade: it ends at the first strategy that
    returns, or with the outcome of the fourth strategy. *)
Lemma chain_result (fs f' : gmap str str) (r : outcome str) (trace : list event) :
  (run (consoleLog start) ;;
   attempt 1 i1 x1 s1 (attempt 2 i2 x2 s2 (attempt 3 i3 x3 s3
     (run (consoleLog last) ;; mark 4 ;; s4)))) fs = (r, trace, f') ->
  (exists p o1, s1 fs = (Returned p, o1, f') /\ r = Returned p
                /\ trace = Line start :: Line i1 :: Invoke 1 :: o1) \/
  (exists e1 o1 f1 p o2,
     s1 fs = (Thrown e1, o1, f1) /\ s2 f1 = (Returned p, o2, f')
     /\ r = Returned p
     /\ trace = Line start :: Line i1 :: Invoke 1 :: o1
                  ++ Line (x1 ++ lit " " ++ e1) :: Line i2 :: Invoke 2 :: o2) \/
  (exists e1 o1 f1 e2 o2 f2 p o3,
     s1 fs = (Thrown e1, o1, f1) /\ s2 f1 = (Thrown e2, o2, f2)
     /\ s3 f2 = (Returned p, o3, f')
     /\ r = Returned p
     /\ trace = Line start :: Line i1 :: Invoke 1 :: o1
                  ++ Line (x1 ++ lit " " ++ e1) :: Line i2 :: Invoke 2 :: o2
                  ++ Line (x2 ++ lit " " ++ e2) :: Line i3 :: Invoke 3 :: o3) \/
  (exists e1 o1 f1 e2 o2 f2 e3 o3 f3 o4,
     s1 fs = (Thrown e1, o1, f1) /\ s2 f1 = (Thrown e2, o2, f2)
     /\ s3 f2 = (Thrown e3, o3, f3) /\ s4 f3 = (r, o4, f')
     /\ trace = Line start :: Line i1 :: Invoke 1 :: o1
                  ++ Line (x1 ++ lit " " ++ e1) :: Line i2 :: Invoke 2 :: o2
                  ++ Line (x2 ++ lit " " ++ e2) :: Line i3 :: Invoke 3 :: o3
                  ++ Line (x3 ++ lit " " ++ e3) :: Line last :: Invoke 4 :: o4).
Proof.
  unfold mbind at 1. unfold M_bind, bind at 1.
  unfold run at 1, consoleLog at 1. cbn [fmap list_fmap].
  destruct (s1 fs) as [[[p1 | e1] o1] f1] eqn:H1.
  { rewrite (attempt_returns _ _ _ _ _ _ _ _ _ H1). intros [= <- <- <-].
    left. by exists p1, o1. }
  rewrite (attempt_throws _ _ _ _ _ _ _ _ _ H1).
  destruct (s2 f1) as [[[p2 | e2] o2] f2] eqn:H2.
  { rewrite (attempt_returns _ _ _ _ _ _ _ _ _ H2). intros [= <- <- <-].
    right. left. by exists e1, o1, f1, p2, o2. }
  rewrite (attempt_throws _ _ _ _ _ _ _ _ _ H2).
  destruct (s3 f2) as [[[p3 | e3] o3] f3] eqn:H3.
  { rewrite (attempt_returns _ _ _ _ _ _ _ _ _ H3). intros [= <- <- <-].
    right. right. left. by exists e1, o1, f1, e2, o2, f2, p3, o3. }
  rewrite (attempt_throws _ _ _ _ _ _ _ _ _ H3).
  rewrite last_step.
  destruct (s4 f3) as [[r4 o4] f4] eqn:H4.
  intros [= <- <- <-]. right. right. right.
  by exists e1, o1, f1, e2, o2, f2, e3, o3, f3, o4.
Qed.

(** the run of a cascade, from what its strategies do *)
Lemma chain_first (fs f1 : gmap str str) (p : str) (o1 : list event) :
  s1 fs = (Returned p, o1, f1) ->
  (run (consoleLog start) ;;
   attempt 1 i1 x1 s1 (attempt 2 i2 x2 s2 (attempt 3 i3 x3 s3
     (run (consoleLog last) ;; mark 4 ;; s4)))) fs
  = (Returned p, Line start :: Line i1 :: Invoke 1 :: o1, f1).
Proof.
  intros H1. unfold mbind at 1. unfold M_bind, bind at 1.
  unfold run at 1, consoleLog at 1. cbn [fmap list_fmap].
  by rewrite (attempt_returns _ _ _ _ _ _ _ _ _ H1).
Qed.

Lemma chain_second (fs f1 f2 : gmap str str) (e1 p : str) (o1 o2 : list event) :
  s1 fs = (Thrown e1, o1, f1) -> s2 f1 = (Returned p, o2, f2) ->
  (run (consoleLog start) ;;
   attempt 1 i1 x1 s1 (attempt 2 i2 x2 s2 (attempt 3 i3 x3 s3
     (run (consoleLog last) ;; mark 4 ;; s4)))) fs
  = (Returned p,
     Line start :: Line i1 :: Invoke 1 :: o1
       ++ Line (x1 ++ lit " " ++ e1) :: Line i2 :: Invoke 2 :: o2, f2).
Proof.
  intros H1 H2. unfold mbind at 1. unfold M_bind, bind at 1.
  unfold run at 1, consoleLog at 1. cbn [fmap list_fmap].
  by rewrite (attempt_throws _ _ _ _ _ _ _ _ _ H1),
    (attempt_returns _ _ _ _ _ _ _ _ _ H2).
Qed.

Lemma chain_third (fs f1 f2 f3 : gmap str str) (e1 e2 p : str)
    (o1 o2 o3 : list event) :
  s1 fs = (Thrown e1, o1, f1) -> s2 f1 = (Thrown e2, o2, f2) ->
  s3 f2 = (Returned p, o3, f3) ->
  (run (consoleLog start) ;;
   attempt 1 i1 x1 s1 (attempt 2 i2 x2 s2 (attempt 3 i3 x3 s3
     (run (consoleLog last) ;; mark 4 ;; s4)))) fs
  = (Returned p,
     Line start :: Line i1 :: Invoke 1 :: o1
       ++ Line (x1 ++ lit " " ++ e1) :: Line i2 :: Invoke 2 :: o2
       ++ Line (x2 ++ lit " " ++ e2) :: Line i3 :: Invoke 3 :: o3, f3).
Proof.
  intros H1 H2 H3. unfold mbind at 1. unfold M_bind, bind at 1.
  unfold run at 1, consoleLog at 1. cbn [fmap list_fmap].
  by rewrite (attempt_throws _ _ _ _ _ _ _ _ _ H1),
    (attempt_throws _ _ _ _ _ _ _ _ _ H2),
    (attempt_returns _ _ _ _ _ _ _ _ _ H3).
Qed.

Lemma chain_fourth (fs f1 f2 f3 f4 : gmap str str) (e1 e2 e3 : str)
    (r : outcome str) (o1 o2 o3 o4 : list event) :
  s1 fs = (Thrown e1, o1, f1) -> s2 f1 = (Thrown e2, o2, f2) ->
  s3 f2 = (Thrown e3, o3, f3) -> s4 f3 = (r, o4, f4) ->
  (run (consoleLog start) ;;
   attempt 1 i1 x1 s1 (attempt 2 i2 x2 s2 (attempt 3 i3 x3 s3
     (run (consoleLog last) ;; mark 4 ;; s4)))) fs
  = (r,
     Line start :: Line i1 :: Invoke 1 :: o1
       ++ Line (x1 ++ lit " " ++ e1) :: Line i2 :: Invoke 2 :: o2
       ++ Line (x2 ++ lit " " ++ e2) :: Line i3 :: Invoke 3 :: o3
       ++ Line (x3 ++ lit " " ++ e3) :: Line last :: Invoke 4 :: o4, f4).
Proof.
  intros H1 H2 H3 H4. unfold mbind at 1. unfold M_bind, bind at 1.
  unfold run at 1, consoleLog at 1. cbn [fmap list_fmap].
  by rewrite (attempt_throws _ _ _ _ _ _ _ _ _ H1),
    (attempt_throws _ _ _ _ _ _ _ _ _ H2),
    (attempt_throws _ _ _ _ _ _ _ _ _ H3), last_step, H4.
Qed.

End ChainFacts.

(** ** The LibreOffice strategy of [PdfToWordConverter] *)

Section LibreOfficeFacts.

Import PdfToWordConverter.

Lemma existsSync_run {E : Type} (path : str) (fs : gmap str str) :
  existsSync (E := E) path fs
  = (Returned (bool_decide (is_Some (fs !! path))), [], fs).
Proof. done. Qed.

Lemma move_run {E : Type} (src dest content : str) (fs : gmap str str) :
  src <> dest -> fs !! src = Some content ->
  move (E := E) src dest fs
  = (Returned tt, [], <[dest := content]> (delete src fs)).
Proof.
  intros Hne Hs. unfold move, str_eqb.
  by rewrite bool_decide_eq_false_2, Hs by done.
Qed.

Lemma move_inv {E : Type} (src dest : str) (fs fs' : gmap str str)
    (out : list E) :
  move src dest fs = (Returned tt, out, fs') ->
  src <> dest /\ exists content,
    fs !! src = Some content /\ fs' = <[dest := content]> (delete src fs).
Proof.
  unfold move, str_eqb. case_bool_decide as Hne; [done |].
  destruct (fs !! src) as [content |]; [| done].
  intros [= _ <-]. eauto.
Qed.

Lemma stderr_run (stderr : str) (fs : gmap str str) :
  (if bool_decide (stderr = []) then ret tt
   else consoleLog2 (lit "LibreOffice stderr:") stderr) fs
  = (Returned tt,
     if bool_decide (stderr = []) then []
     else [lit "LibreOffice stderr:" ++ lit " " ++ stderr], fs).
Proof. by case_bool_decide. Qed.

Variable execAsync : str -> gmap str str -> outcome (str * str) * gmap str str.

Lemma lift_run (command : str) (fs g : gmap str str) (io : str * str) :
  execAsync command fs = (Returned io, g) ->
  lift (execAsync command) fs = (Returned io, [], g).
Proof. intros H. unfold lift. by rewrite H. Qed.

(** the [try] block of one turn, when the command returns and leaves
    a file at the expected path *)
Lemma libreOfficeTry_moves (input output : str) (i : nat) (command : str)
    (fs g : gmap str str) (io : str * str) (c : str) :
  execAsync command fs = (Returned io, g) ->
  g !! replaceFirst (lit ".pdf") (lit ".docx") input = Some c ->
  replaceFirst (lit ".pdf") (lit ".docx") input <> output ->
  exists lines,
    libreOfficeTry execAsync input output i command fs
    = (Returned (Some output), lines,
       <[output := c]> (delete (replaceFirst (lit ".pdf") (lit ".docx") input) g)).
Proof.
  intros Hex Hc Hne. unfold libreOfficeTry. eexists.
  eapply bind_eval; [apply consoleLog2_run | cbv beta].
  eapply bind_eval; [by apply lift_run | cbv beta].
  eapply bind_eval; [apply stderr_run | cbv beta].
  eapply bind_eval; [apply consoleLog2_run | cbv beta].
  eapply bind_eval; [apply existsSync_run | cbv beta].
  rewrite bool_decide_eq_true_2 by (rewrite Hc; by eexists).
  eapply bind_eval; [by apply move_run | cbv beta].
  eapply bind_eval; [apply consoleLog_run | cbv beta].
  reflexivity.
Qed.

(** the [try] block of one turn, when it reports a converted file *)
Lemma libreOfficeTry_moved (input output : str) (i : nat) (command : str)
    (fs fs' : gmap str str) (p : str) (lines : list str) :
  libreOfficeTry execAsync input output i command fs
  = (Returned (Some p), lines, fs') ->
  p = output /\
  replaceFirst (lit ".pdf") (lit ".docx") input <> output /\
  exists c,
    (execAsync command fs).2 !! replaceFirst (lit ".pdf") (lit ".docx") input
    = Some c /\
    fs' = <[output := c]>
            (delete (replaceFirst (lit ".pdf") (lit ".docx") input)
                    (execAsync command fs).2).
Proof.
  unfold libreOfficeTry. intros H.
  apply bind_returns in H as (? & ? & f1 & ? & H0 & H).
  apply bind_returns in H as (io & ? & f2 & ? & H1 & H).
  apply bind_returns in H as (? & ? & f3 & ? & H2 & H).
  apply bind_returns in H as (? & ? & f4 & ? & H3 & H).
  apply bind_returns in H as ([] & ? & f5 & ? & H4 & H); [| done].
  apply bind_returns in H as ([] & ? & f6 & o6 & Hmove & H).
  apply bind_returns in H as (? & ? & f7 & o7 & Hlog & H).
  rewrite consoleLog2_run in H0, H3. rewrite consoleLog_run in Hlog.
  rewrite stderr_run in H2. rewrite existsSync_run in H4.
  unfold lift in H1. unfold ret in H.
  destruct (execAsync command f1) as [[io' | e] g] eqn:Hex; [| done].
  apply move_inv in Hmove as (Hne & c & Hc & Hf).
  simplify_eq. rewrite Hex. cbn [snd]. split_and!; [done | done |].
  by exists c.
Qed.

Lemma libreOfficeLoop_moved (input output : str) (commands : list str) :
  forall (i : nat) (fs fs' : gmap str str) (p : str) (lines : list str),
    libreOfficeLoop execAsync input output i commands fs
    = (Returned p, lines, fs') ->
    p = output /\
    replaceFirst (lit ".pdf") (lit ".docx") input <> output /\
    exists command f c,
      command ∈ commands /\
      (execAsync command f).2 !! replaceFirst (lit ".pdf") (lit ".docx") input
      = Some c /\
      fs' = <[output := c]>
              (delete (replaceFirst (lit ".pdf") (lit ".docx") input)
                      (execAsync command f).2).
Proof.
  induction commands as [| command more IH]; intros i fs fs' p lines H; [done |].
  cbn [libreOfficeLoop] in H.
  apply bind_returns in H as ([path |] & o1 & f1 & o2 & Htry & H).
  - injection H as <- _ <-.
    apply tryCatch_returns in Htry as [Htry | (e & o3 & f3 & o4 & _ & Hh)].
    + apply libreOfficeTry_moved in Htry as (-> & Hne & c & Hc & ->).
      split_and!; [done | done |]. exists command, fs, c.
      split_and!; [left | done | done].
    + apply bind_returns in Hh as (? & ? & f5 & ? & ? & Hh).
      by destruct more.
  - destruct (IH _ _ _ _ _ H) as (-> & Hne & command' & f & c & Hin & Hc & ->).
    split_and!; [done | done |]. exists command', f, c.
    split_and!; [by right | done | done].
Qed.



End LibreOfficeFacts.

Section StrategyProperties.

Import PdfToWordConverter.

(** The LibreOffice strategy.  When it returns, the file at the output
    path is the file that one of its commands left at the expected path
    (the input path with its first [.pdf] replaced by [.docx]), which
    is gone from there.  An input path without [.pdf] is its own
    expected path: when the first command returns and leaves the input
    in place, the strategy moves the PDF itself to the output path and
    reports success. *)
Theorem libre_office_moves_the_expected_file
    (dirname : str -> str)
    (execAsync : str -> gmap str str -> outcome (str * str) * gmap str str)
    (input output : str) :
  (forall fs p lines fs',
     convertWithLibreOffice dirname execAsync input output fs
     = (Returned p, lines, fs') ->
     replaceFirst (lit ".pdf") (lit ".docx") input <> output /\
     exists command f c,
       command ∈ conversionMethods dirname input output /\
       (execAsync command f).2 !! replaceFirst (lit ".pdf") (lit ".docx") input
       = Some c /\
       fs' = <[output := c]>
               (delete (replaceFirst (lit ".pdf") (lit ".docx") input)
                       (execAsync command f).2)) /\
  (forall fs command more io g c,
     includes (lit ".pdf") input = false -> input <> output ->
     conversionMethods dirname input output = command :: more ->
     execAsync command fs = (Returned io, g) -> g !! input = Some c ->
     exists lines,
       convertWithLibreOffice dirname execAsync input output fs
       = (Returned output, lines, <[output := c]> (delete input g))).
Proof.
  split.
  - intros fs p lines fs' H.
    apply libreOfficeLoop_moved in H as (_ & Hne & H). done.
  - intros fs command more io g c Hpdf Hne Hcm Hex Hc.
    unfold convertWithLibreOffice. rewrite Hcm. cbn [libreOfficeLoop].
    pose proof (replaceFirst_absent _ (lit ".docx") _ Hpdf) as Hexp.
    destruct (libreOfficeTry_moves execAsync input output 0 command fs g io c)
      as (lines & Htry); [done | by rewrite Hexp | by rewrite Hexp |].
    rewrite Hexp in Htry. eexists.
    eapply bind_eval; [apply tryCatch_eval, Htry | reflexivity].
Qed.


End StrategyProperties.

(** ** Properties of the conversion cascade *)

Section CascadeProperties.

Import PdfToWordConverter.

Variable dirname : str -> str.
Variable execAsync : str -> gmap str str -> outcome (str * str) * gmap str str.
Variable pdf2docx : str -> str -> gmap str str -> outcome unit * gmap str str.
Variable requirePdfParse : outcome unit.
Variable pdfParse : str -> outcome str.
Variable pdf2pic : str -> str -> gmap str str -> outcome unit * gmap str str.
Variable pack : list (option Paragraph) -> outcome str.
Variable writeError : str -> gmap str str -> option str.
Variable toUpperCase : str -> str.
Variables input output : str.

Lemma pdf2docx_returns (fs f : gmap str str) (p : str) (o : list str) :
  convertWithPdf2Docx pdf2docx input output fs = (Returned p, o, f) ->
  p = output.
Proof.
  unfold convertWithPdf2Docx. intros H.
  apply bind_returns in H as (? & ? & ? & ? & _ & H).
  apply bind_returns in H as (? & ? & ? & ? & _ & H).
  by injection H.
Qed.

(** C2, as the code has it: when all four strategies throw, the
    cascade throws the error of its last call, the call of the method
    of strategy 4, unchanged; no list of reasons is built.  The reason
    of each of the first three strategies is written to the console by
    the cascade, in one line after the lines the strategy wrote, in
    strategy order.  The reason of strategy 3 is itself an error of the
    method of strategy 4, which strategy 3 calls. *)
Theorem cascade_exhausted (fs f1 f2 f3 f4 : gmap str str)
    (e1 e2 e3 e4 : str) (o1 o2 o4 : list str) (o3 : list event) :
  convertWithLibreOffice dirname execAsync input output fs = (Thrown e1, o1, f1) ->
  convertWithPdf2Docx pdf2docx input output f1 = (Thrown e2, o2, f2) ->
  convertWithAlternativeParsing dirname requirePdfParse pdfParse pdf2pic pack
    writeError toUpperCase input output f2 = (Thrown e3, o3, f3) ->
  convertWithEnhancedTextExtraction requirePdfParse pdfParse pack writeError
    toUpperCase input output f3 = (Thrown e4, o4, f4) ->
  exists trace,
    convertPdfToWord dirname execAsync pdf2docx requirePdfParse pdfParse pdf2pic
      pack writeError toUpperCase input output fs
    = (Thrown e4, trace, f4) /\
    consoleLines trace
    = [lit "Starting enhanced PDF to Word conversion...";
       lit "Attempting LibreOffice conversion with enhanced formatting..."]
      ++ o1
      ++ [lit "LibreOffice conversion failed: " ++ e1;
          lit "Attempting pdf2docx conversion with enhanced formatting..."]
      ++ o2
      ++ [lit "pdf2docx conversion failed: " ++ e2;
          lit "Attempting alternative parsing methods..."]
      ++ consoleLines o3
      ++ [lit "Alternative parsing failed: " ++ e3;
          lit "Falling back to enhanced text extraction..."]
      ++ o4 /\
    invocations trace = [1; 2; 3] ++ invocations o3 ++ [4] /\
    exists g o,
      convertWithEnhancedTextExtraction requirePdfParse pdfParse pack writeError
        toUpperCase input output g = (Thrown e3, o, f3).
Proof.
  intros H1 H2 H3 H4. eexists. split.
  - unfold convertPdfToWord, cascade.
    eapply chain_fourth;
      [apply run_eval, H1 | apply run_eval, H2 | exact H3 | apply run_eval, H4].
  - split_and!.
    + repeat first [rewrite consoleLines_cons_line | rewrite consoleLines_cons_mark
                   | rewrite consoleLines_app | rewrite consoleLines_lines].
      cbn. by rewrite <- ?app_assoc.
    + repeat first [rewrite invocations_cons_line | rewrite invocations_cons_mark
                   | rewrite invocations_app | rewrite invocations_lines].
      done.
    + by apply alternative_parsing_outcome in H3 as [_ ?].
Qed.

(** C3, as the code has it: the cascade calls its strategies in
    declared order and returns the path of the first one that returns,
    without calling a later one itself, so that no later strategy is
    invoked when strategy 1 or strategy 2 succeeds.  Strategy 3 calls
    the method of strategy 4 itself and returns what it returns: when
    strategy 3 succeeds, strategy 4 has been invoked, once or twice.
    Whatever a run does, its calls are 1; 1, 2; or 1, 2, 3 followed by
    one, two or three calls of strategy 4, and a path it returns is
    the requested output path. *)
Theorem cascade_short_circuits (fs : gmap str str) :
  (forall p o1 f1,
     convertWithLibreOffice dirname execAsync input output fs
     = (Returned p, o1, f1) ->
     exists trace,
       convertPdfToWord dirname execAsync pdf2docx requirePdfParse pdfParse
         pdf2pic pack writeError toUpperCase input output fs
       = (Returned p, trace, f1)
       /\ invocations trace = [1]) /\
  (forall e1 o1 f1 p o2 f2,
     convertWithLibreOffice dirname execAsync input output fs
     = (Thrown e1, o1, f1) ->
     convertWithPdf2Docx pdf2docx input output f1 = (Returned p, o2, f2) ->
     exists trace,
       convertPdfToWord dirname execAsync pdf2docx requirePdfParse pdfParse
         pdf2pic pack writeError toUpperCase input output fs
       = (Returned p, trace, f2)
       /\ invocations trace = [1; 2]) /\
  (forall e1 o1 f1 e2 o2 f2 p o3 f3,
     convertWithLibreOffice dirname execAsync input output fs
     = (Thrown e1, o1, f1) ->
     convertWithPdf2Docx pdf2docx input output f1 = (Thrown e2, o2, f2) ->
     convertWithAlternativeParsing dirname requirePdfParse pdfParse pdf2pic pack
       writeError toUpperCase input output f2 = (Returned p, o3, f3) ->
     exists trace,
       convertPdfToWord dirname execAsync pdf2docx requirePdfParse pdfParse
         pdf2pic pack writeError toUpperCase input output fs
       = (Returned p, trace, f3)
       /\ (invocations trace = [1; 2; 3; 4] \/ invocations trace = [1; 2; 3; 4; 4])
       /\ exists g o4,
            convertWithEnhancedTextExtraction requirePdfParse pdfParse pack
              writeError toUpperCase input output g = (Returned p, o4, f3)) /\
  (forall r trace fs',
     convertPdfToWord dirname execAsync pdf2docx requirePdfParse pdfParse
       pdf2pic pack writeError toUpperCase input output fs
     = (r, trace, fs') ->
     invocations trace
       ∈ [[1]; [1; 2]; [1; 2; 3; 4]; [1; 2; 3; 4; 4]; [1; 2; 3; 4; 4; 4]]
     /\ forall p, r = Returned p -> p = output).
Proof.
  split_and!.
  - intros p o1 f1 H1. eexists. split.
    + unfold convertPdfToWord, cascade. eapply chain_first. apply run_eval, H1.
    + repeat first [rewrite invocations_cons_line | rewrite invocations_cons_mark
                   | rewrite invocations_app | rewrite invocations_lines].
      done.
  - intros e1 o1 f1 p o2 f2 H1 H2. eexists. split.
    + unfold convertPdfToWord, cascade.
      eapply chain_second; [apply run_eval, H1 | apply run_eval, H2].
    + repeat first [rewrite invocations_cons_line | rewrite invocations_cons_mark
                   | rewrite invocations_app | rewrite invocations_lines].
      done.
  - intros e1 o1 f1 e2 o2 f2 p o3 f3 H1 H2 H3.
    destruct (alternative_parsing_outcome _ _ _ _ _ _ _ _ _ _ _ _ _ H3)
      as (Hcalls & Henh).
    eexists. split_and!; [| | exact Henh].
    + unfold convertPdfToWord, cascade.
      eapply chain_third; [apply run_eval, H1 | apply run_eval, H2 | exact H3].
    + repeat first [rewrite invocations_cons_line | rewrite invocations_cons_mark
                   | rewrite invocations_app | rewrite invocations_lines].
      destruct Hcalls as [-> | ->]; [by left | by right].
  - intros r trace fs' H. unfold convertPdfToWord, cascade in H.
    apply chain_result in H
      as [(p & o & H1 & -> & ->)
         | [(e1 & o1 & f1 & p & o & H1 & H2 & -> & ->)
           | [(e1 & o1 & f1 & e2 & o2 & f2 & p & o & H1 & H2 & H3 & -> & ->)
             | (e1 & o1 & f1 & e2 & o2 & f2 & e3 & o3 & f3 & o4
                & H1 & H2 & H3 & H4 & ->)]]];
      apply run_inv in H1 as (l1 & H1 & ->);
      try (apply run_inv in H2 as (l2 & H2 & ->));
      try (apply run_inv in H4 as (l4 & H4 & ->));
      repeat first [rewrite invocations_cons_line | rewrite invocations_cons_mark
                   | rewrite invocations_app | rewrite invocations_lines].
    + split; [by left |]. intros ? [= <-].
      by apply libreOfficeLoop_moved in H1 as (? & _).
    + split; [right; by left |]. intros ? [= <-]. by eapply pdf2docx_returns.
    + destruct (alternative_parsing_outcome _ _ _ _ _ _ _ _ _ _ _ _ _ H3)
        as ([-> | ->] & g & o4 & Henh).
      * split; [do 2 right; by left |]. intros ? [= <-].
        by eapply enhanced_extraction_returns.
      * split; [do 3 right; by left |]. intros ? [= <-].
        by eapply enhanced_extraction_returns.
    + destruct (alternative_parsing_outcome _ _ _ _ _ _ _ _ _ _ _ _ _ H3)
        as ([-> | ->] & _).
      * split; [do 3 right; by left |]. intros ? ->.
        by eapply enhanced_extraction_returns.
      * split; [do 4 right; by left |]. intros ? ->.
        by eapply enhanced_extraction_returns.
Qed.


End CascadeProperties.

Section StrategyInstances.

Import PdfToWordConverter Scenario.

Lemma libre_office_moves_the_expected_file_witness :
  exists lines,
    convertWithLibreOffice tmpDir
      (fun command fs => (Returned ([], []), <[lit "/tmp/scan.docx" := lit "PK"]> fs))
      (lit "/tmp/scan.PDF") outputDocx {[lit "/tmp/scan.PDF" := lit "%PDF"]}
    = (Returned outputDocx, lines,
       <[outputDocx := lit "%PDF"]>
         (delete (lit "/tmp/scan.PDF")
            (<[lit "/tmp/scan.docx" := lit "PK"]>
               {[lit "/tmp/scan.PDF" := lit "%PDF"]}))).
Proof.
  eapply (proj2 (libre_office_moves_the_expected_file tmpDir _
                   (lit "/tmp/scan.PDF") outputDocx));
    [by_evaluation | by_evaluation | reflexivity | reflexivity | by_evaluation].
Defined.


End StrategyInstances.

Section CascadeInstances.

Import PdfToWordConverter Scenario.

Lemma cascade_exhausted_witness :
  exists trace,
    convertPdfToWord tmpDir sofficeAbsent pdf2docxMissing (Returned tt)
      pdfParseFails pdf2picFails packBytes writable (fun s => s)
      inputPdf outputDocx {[inputPdf := lit "%PDF"]}
    = (Thrown (lit "Invalid PDF structure"), trace, {[inputPdf := lit "%PDF"]}) /\
    consoleLines trace
    = [lit "Starting enhanced PDF to Word conversion...";
       lit "Attempting LibreOffice conversion with enhanced formatting..."]
      ++ (convertWithLibreOffice tmpDir sofficeAbsent inputPdf outputDocx
            {[inputPdf := lit "%PDF"]}).1.2
      ++ [lit "LibreOffice conversion failed: " ++ lit "spawn soffice ENOENT";
          lit "Attempting pdf2docx conversion with enhanced formatting..."]
      ++ []
      ++ [lit "pdf2docx conversion failed: "
            ++ lit "Cannot find module 'pdf2docx'";
          lit "Attempting alternative parsing methods..."]
      ++ consoleLines
           [Line (lit "Alternative parsing failed, using enhanced text extraction: "
                    ++ lit "gm: command not found");
            Invoke 4]
      ++ [lit "Alternative parsing failed: " ++ lit "Invalid PDF structure";
          lit "Falling back to enhanced text extraction..."]
      ++ [] /\
    invocations trace
    = [1; 2; 3]
        ++ invocations
             [Line (lit "Alternative parsing failed, using enhanced text extraction: "
                      ++ lit "gm: command not found");
              Invoke 4]
        ++ [4] /\
    exists g o,
      convertWithEnhancedTextExtraction (Returned tt) pdfParseFails packBytes
        writable (fun s => s) inputPdf outputDocx g
      = (Thrown (lit "Invalid PDF structure"), o, {[inputPdf := lit "%PDF"]}).
Proof.
  apply (cascade_exhausted tmpDir sofficeAbsent pdf2docxMissing (Returned tt)
           pdfParseFails pdf2picFails packBytes writable (fun s => s)
           inputPdf outputDocx
           {[inputPdf := lit "%PDF"]} {[inputPdf := lit "%PDF"]}
           {[inputPdf := lit "%PDF"]} {[inputPdf := lit "%PDF"]}
           {[inputPdf := lit "%PDF"]});
    reflexivity.
Defined.

(** C2 as stated fails: with an office suite that is not installed, a
    pdf2docx module that is missing and a PDF that pdf-parse rejects,
    all four strategies fail, and the error of the cascade is the one
    of pdf-parse alone; the reasons of strategies 1 and 2 are on the
    console and not in it. *)
Lemma cascade_exhausted_counterexample :
  (let r := convertPdfToWord tmpDir sofficeAbsent pdf2docxMissing (Returned tt)
              pdfParseFails pdf2picFails packBytes writable (fun s => s)
              inputPdf outputDocx {[inputPdf := lit "%PDF"]} in
   r.1.1 = Thrown (lit "Invalid PDF structure") /\
   invocations r.1.2 = [1; 2; 3; 4; 4] /\
   Line (lit "LibreOffice conversion failed: spawn soffice ENOENT") ∈ r.1.2 /\
   Line (lit "pdf2docx conversion failed: Cannot find module 'pdf2docx'") ∈ r.1.2) /\
  includes (lit "spawn soffice ENOENT") (lit "Invalid PDF structure") = false /\
  includes (lit "Cannot find module 'pdf2docx'") (lit "Invalid PDF structure")
  = false.
Proof.
  split; [cbv zeta; split_and! | split; by vm_compute];
    [by vm_compute | by vm_compute | by_evaluation | by_evaluation].
Qed.

Lemma cascade_short_circuits_witness :
  (exists trace,
     convertPdfToWord tmpDir sofficeTimesOut pdf2docxWrites (Returned tt)
       pdfParseLine pdf2picFails packBytes writable (fun s => s)
       inputPdf outputDocx {[inputPdf := lit "%PDF"]}
     = (Returned outputDocx, trace,
        <[outputDocx := lit "PK"]> {[inputPdf := lit "%PDF"]})
     /\ invocations trace = [1; 2]) /\
  (exists trace,
     convertPdfToWord tmpDir sofficeAbsent pdf2docxMissing (Returned tt)
       pdfParseLine pdf2picFails packBytes writable (fun s => s)
       inputPdf outputDocx {[inputPdf := lit "%PDF"]}
     = (Returned outputDocx, trace,
        <[outputDocx := lit "PK"]> {[inputPdf := lit "%PDF"]})
     /\ (invocations trace = [1; 2; 3; 4] \/ invocations trace = [1; 2; 3; 4; 4])
     /\ exists g o4,
          convertWithEnhancedTextExtraction (Returned tt) pdfParseLine packBytes
            writable (fun s => s) inputPdf outputDocx g
          = (Returned outputDocx, o4,
             <[outputDocx := lit "PK"]> {[inputPdf := lit "%PDF"]})).
Proof.
  split.
  - eapply (proj1 (proj2 (cascade_short_circuits tmpDir sofficeTimesOut
                            pdf2docxWrites (Returned tt) pdfParseLine pdf2picFails
                            packBytes writable (fun s => s) inputPdf outputDocx
                            {[inputPdf := lit "%PDF"]})));
      reflexivity.
  - eapply (proj1 (proj2 (proj2 (cascade_short_circuits tmpDir sofficeAbsent
                                   pdf2docxMissing (Returned tt) pdfParseLine
                                   pdf2picFails packBytes writable (fun s => s)
                                   inputPdf outputDocx
                                   {[inputPdf := lit "%PDF"]}))));
      reflexivity.
Defined.

(** C3 as stated fails at strategy 3: in a run that strategy 3 ends
    with success, with or without a page image from pdf2pic, the
    method of strategy 4 has been called; the cascade itself did not
    fall back to it. *)
Lemma cascade_short_circuits_counterexample :
  (let r := convertPdfToWord tmpDir sofficeAbsent pdf2docxMissing (Returned tt)
              pdfParseLine pdf2picFails packBytes writable (fun s => s)
              inputPdf outputDocx {[inputPdf := lit "%PDF"]} in
   r.1.1 = Returned outputDocx /\ invocations r.1.2 = [1; 2; 3; 4] /\
   (Line (lit "Falling back to enhanced text extraction...") ∉ r.1.2) /\
   (convertWithAlternativeParsing tmpDir (Returned tt) pdfParseLine pdf2picFails
      packBytes writable (fun s => s) inputPdf outputDocx
      {[inputPdf := lit "%PDF"]}).1.1
   = Returned outputDocx) /\
  (let r := convertPdfToWord tmpDir sofficeAbsent pdf2docxMissing (Returned tt)
              pdfParseLine pdf2picPage packBytes writable (fun s => s)
              inputPdf outputDocx {[inputPdf := lit "%PDF"]} in
   r.1.1 = Returned outputDocx /\ invocations r.1.2 = [1; 2; 3; 4] /\
   (Line (lit "Falling back to enhanced text extraction...") ∉ r.1.2)).
Proof.
  split; cbv zeta; split_and!;
    [by vm_compute | by vm_compute | by_evaluation | by vm_compute
    | by vm_compute | by vm_compute | by_evaluation].
Qed.



End CascadeInstances.

(** ** The advanced converter: marked-up lines and the assembler *)

Section AdvancedLineFacts.

Import AdvancedPdfToWordConverter.

Lemma trim_solid_head (x : ascii) (t : str) :
  isSpace x = false -> trim (x :: t) <> [].
Proof.
  intros Hx H. apply trim_nil in H. inversion H; congruence.
Qed.

Lemma advancedParagraph_hash (paragraph : str) :
  startsWith (lit "#") paragraph = true ->
  advancedParagraph paragraph = Thrown (lit "AlignmentType is not defined").
Proof.
  intros Hh. unfold advancedParagraph. rewrite Hh.
  destruct (heading_shape _ Hh) as (k & rest & -> & Hr).
  by rewrite matchAtStart_hashes by by apply startsWith_hash.
Qed.

Lemma endsWith_stars (line : str) :
  endsWith (lit "**") (lit "**" ++ line ++ lit "**") = true.
Proof.
  unfold endsWith. rewrite !rev_app_distr. apply startsWith_app.
  exists (rev line ++ rev (lit "**")). by rewrite <- app_assoc.
Qed.

Lemma advancedParagraph_stars (line : str) :
  advancedParagraph (lit "**" ++ line ++ lit "**")
  = Thrown (lit "AlignmentType is not defined").
Proof.
  unfold advancedParagraph.
  change (startsWith (lit "#") (lit "**" ++ line ++ lit "**")) with false.
  change (startsWith (lit "**") (lit "**" ++ line ++ lit "**")) with true.
  by rewrite endsWith_stars.
Qed.

Lemma commonParagraph_returns (paragraph : str) :
  exists y, commonParagraph paragraph = Returned y.
Proof.
  unfold commonParagraph.
  destruct (looksLikeTableRow paragraph);
    [destruct (1 <? _); eauto |].
  destruct (testAtStart numberedItem paragraph); [eauto |].
  destruct (testAtStart bulletItem paragraph); eauto.
Qed.


(** the callback of [createDocxFromTextAdvanced] throws the
    ReferenceError or returns *)
Lemma advancedParagraph_cases (paragraph : str) :
  advancedParagraph paragraph = Thrown (lit "AlignmentType is not defined") \/
  exists y, advancedParagraph paragraph = Returned y.
Proof.
  destruct (startsWith (lit "#") paragraph) eqn:Hh;
    [left; by apply advancedParagraph_hash |].
  unfold advancedParagraph. rewrite Hh.
  destruct (_ && _); [by left | right; apply commonParagraph_returns].
Qed.


Lemma mapOutcome_throws {A B : Type} (f : A -> outcome B) (m : str)
    (l : list A) :
  Forall (fun x => f x = Thrown m \/ exists y, f x = Returned y) l ->
  Exists (fun x => f x = Thrown m) l ->
  mapOutcome f l = Thrown m.
Proof.
  induction 1 as [| x l Hx _ IH]; intros Hex; [by inversion Hex |].
  simpl. destruct Hx as [-> | (y & Hy)]; [done |]. rewrite Hy.
  inversion Hex as [? ? Hx | ? ? Hl]; subst; [congruence |].
  by rewrite (IH Hl).
Qed.

Variable toUpperCase : str -> str.

(** the lines that get a mark-up which the advanced assembler cannot
    build *)
Lemma markup_throws (kind : BlockKind) (line : str) :
  kind ∈ [Heading; SubHeading; NumberedItem; BulletItem; Emphasized] ->
  advancedParagraph (markup kind line)
  = Thrown (lit "AlignmentType is not defined")
  /\ trim (markup kind line) <> [].
Proof.
  intros Hk.
  repeat (apply elem_of_cons in Hk as [-> | Hk]);
    [| | | | | by apply elem_of_nil in Hk];
    (split; [| by apply trim_solid_head]);
    first [by apply advancedParagraph_hash | apply advancedParagraph_stars].
Qed.

Lemma processLine_without (c : ascii) (raw : str) :
  c <> "009"%char -> c <> "#"%char -> c <> " "%char -> c <> "*"%char ->
  without c raw -> without c (processLine toUpperCase raw).
Proof.
  intros H1 H2 H3 H4 Hraw. pose proof (Forall_trim _ _ Hraw) as Hl.
  unfold processLine.
  destruct (classify toUpperCase (trim raw)); cbn [markup];
    try (by repeat constructor).
  - by apply formatTableRow_chars.
  - apply Forall_app. split; [by repeat constructor |].
    apply Forall_app. split; [done | by repeat constructor].
Qed.

Lemma processed_lines (text : str) :
  text <> [] ->
  splitOn "010" (processTextWithAdvancedFormatting toUpperCase text)
  = processLine toUpperCase <$> splitOn "010" (normalizeText text).
Proof.
  intros Hne. destruct text as [| c text]; [done |].
  unfold processTextWithAdvancedFormatting. apply splitOn_join.
  - pose proof (splitOn_nonempty "010" (normalizeText (c :: text))) as H.
    by destruct (splitOn _ _).
  - apply Forall_fmap. eapply Forall_impl; [apply splitOn_without |].
    intros raw Hraw. by apply processLine_without.
Qed.

Lemma advanced_children_throw (text : str) (raw : str) :
  text <> [] ->
  raw ∈ splitOn "010" (normalizeText text) ->
  classify toUpperCase (trim raw)
    ∈ [Heading; SubHeading; NumberedItem; BulletItem; Emphasized] ->
  sectionChildrenAdvanced (processTextWithAdvancedFormatting toUpperCase text)
  = Thrown (lit "AlignmentType is not defined").
Proof.
  intros Hne Hraw Hk. unfold sectionChildrenAdvanced, paragraphsOf.
  rewrite processed_lines by done.
  destruct (markup_throws _ (trim raw) Hk) as [Ht Hb].
  apply mapOutcome_throws.
  - apply Forall_forall. intros p _. apply advancedParagraph_cases.
  - apply Exists_exists. exists (processLine toUpperCase raw). split; [| done].
    apply list_elem_of_filter. split; [done |]. by apply list_elem_of_fmap_2.
Qed.

End AdvancedLineFacts.

(** ** The advanced converter: strategies *)

Section AdvancedStrategyFacts.

Import PdfToWordConverter AdvancedStrategies.

Variable dirname : str -> str.
Variable execAsync : str -> gmap str str -> outcome (str * str) * gmap str str.
Variable pdf2docx : str -> str -> gmap str str -> outcome unit * gmap str str.
Variable pdfParseWithOptions : str -> outcome str.
Variable pdfParse : str -> outcome str.
Variable pack : list (option Paragraph) -> outcome str.
Variable writeError : str -> gmap str str -> option str.
Variable toUpperCase : str -> str.
Variables input output : str.

Lemma findConverted_run (fs : gmap str str) :
  findConverted input possibleExtensions fs
  = (Returned
       (if bool_decide (is_Some (fs !! replaceFirst (lit ".pdf") (lit ".docx") input))
        then Some (replaceFirst (lit ".pdf") (lit ".docx") input)
        else if bool_decide
                  (is_Some (fs !! replaceFirst (lit ".pdf") (lit ".rtf") input))
        then Some (replaceFirst (lit ".pdf") (lit ".rtf") input)
        else None),
     [], fs).
Proof.
  unfold possibleExtensions, findConverted, mbind, M_bind, bind, existsSync, ret.
  by repeat case_bool_decide.
Qed.

(** the [try] block of one turn, when it reports a converted file *)
Lemma advancedTry_moved (i : nat) (command : str)
    (fs fs' : gmap str str) (p : str) (lines : list str) :
  libreOfficeTry execAsync input output i command fs
  = (Returned (Some p), lines, fs') ->
  p = output /\
  exists ext c,
    ext ∈ possibleExtensions /\
    replaceFirst (lit ".pdf") ext input <> output /\
    (execAsync command fs).2 !! replaceFirst (lit ".pdf") ext input = Some c /\
    (ext = lit ".rtf" ->
     (execAsync command fs).2 !! replaceFirst (lit ".pdf") (lit ".docx") input
     = None) /\
    fs' = <[output := c]>
            (delete (replaceFirst (lit ".pdf") ext input)
                    (execAsync command fs).2).
Proof.
  unfold libreOfficeTry. intros H.
  apply bind_returns in H as (? & ? & f1 & ? & H0 & H).
  apply bind_returns in H as (io & ? & f2 & ? & H1 & H).
  apply bind_returns in H as (? & ? & f3 & ? & H2 & H).
  apply bind_returns in H as (? & ? & f4 & ? & H3 & H).
  apply bind_returns in H as (found & ? & f5 & ? & H4 & H).
  rewrite consoleLog2_run in H0, H3. rewrite stderr_run in H2.
  rewrite findConverted_run in H4. unfold lift in H1.
  destruct (execAsync command f1) as [[io' | e] g] eqn:Hex; [| done].
  destruct found as [path |]; [| done].
  destruct (truthy (JStr path)); [| done].
  apply bind_returns in H as ([] & ? & f6 & o6 & Hmove & H).
  apply bind_returns in H as (? & ? & f7 & o7 & Hlog & H).
  rewrite consoleLog_run in Hlog. unfold ret in H.
  apply move_inv in Hmove as (Hne & c & Hc & Hf).
  simplify_eq. rewrite Hex. cbn [snd]. split; [done |].
  match goal with
  | Hf : (if ?b then _ else _) = Some _ |- _ =>
      destruct b eqn:Hd; [| case_bool_decide as Hr]; simplify_eq
  end.
  - exists (lit ".docx"), c. split_and!; [left | done | done | done | done].
  - exists (lit ".rtf"), c.
    split_and!; [right; left | done | done | | done].
    intros _. apply bool_decide_eq_false in Hd.
    by apply eq_None_not_Some.
Qed.

Lemma advancedLoop_moved (commands : list str) :
  forall (i : nat) (fs fs' : gmap str str) (p : str) (lines : list str),
    libreOfficeLoop execAsync input output i commands fs
    = (Returned p, lines, fs') ->
    p = output /\
    exists command f ext c,
      command ∈ commands /\ ext ∈ possibleExtensions /\
      replaceFirst (lit ".pdf") ext input <> output /\
      (execAsync command f).2 !! replaceFirst (lit ".pdf") ext input = Some c /\
      (ext = lit ".rtf" ->
       (execAsync command f).2 !! replaceFirst (lit ".pdf") (lit ".docx") input
       = None) /\
      fs' = <[output := c]>
              (delete (replaceFirst (lit ".pdf") ext input)
                      (execAsync command f).2).
Proof.
  induction commands as [| command more IH]; intros i fs fs' p lines H; [done |].
  cbn [libreOfficeLoop] in H.
  apply bind_returns in H as ([path |] & o1 & f1 & o2 & Htry & H).
  - injection H as <- _ <-.
    apply tryCatch_returns in Htry as [Htry | (e & o3 & f3 & o4 & _ & Hh)].
    + apply advancedTry_moved in Htry
        as (-> & ext & c & Hext & Hne & Hc & Hrtf & ->).
      split; [done |]. exists command, fs, ext, c.
      split_and!; [left | done | done | done | done | done].
    + apply bind_returns in Hh as (? & ? & f5 & ? & ? & Hh).
      by destruct more.
  - destruct (IH _ _ _ _ _ H)
      as (-> & command' & f & ext & c & Hin & Hext & Hne & Hc & Hrtf & ->).
    split; [done |]. exists command', f, ext, c.
    split_and!; [by right | done | done | done | done | done].
Qed.

(** the [try] block of one turn on an input path without [.pdf] *)
Lemma advancedTry_moves_input (i : nat) (command : str)
    (fs g : gmap str str) (io : str * str) (c : str) :
  includes (lit ".pdf") input = false -> input <> [] -> input <> output ->
  execAsync command fs = (Returned io, g) -> g !! input = Some c ->
  exists lines,
    libreOfficeTry execAsync input output i command fs
    = (Returned (Some output), lines, <[output := c]> (delete input g)).
Proof.
  intros Hpdf Hne Hio Hex Hc. unfold libreOfficeTry. eexists.
  eapply bind_eval; [apply consoleLog2_run | cbv beta].
  eapply bind_eval; [by apply lift_run | cbv beta].
  eapply bind_eval; [apply stderr_run | cbv beta].
  eapply bind_eval; [apply consoleLog2_run | cbv beta].
  eapply bind_eval; [apply findConverted_run | cbv beta].
  rewrite (replaceFirst_absent _ (lit ".docx") _ Hpdf).
  rewrite bool_decide_eq_true_2 by (rewrite Hc; by eexists).
  assert (truthy (JStr input) = true) as -> by by destruct input.
  eapply bind_eval; [by apply move_run | cbv beta].
  eapply bind_eval; [apply consoleLog_run | cbv beta].
  reflexivity.
Qed.

Lemma pdf2docxAdvanced_returns (fs f : gmap str str) (p : str) (o : list str) :
  convertWithPdf2DocxAdvanced pdf2docx input output fs = (Returned p, o, f) ->
  p = output.
Proof.
  unfold convertWithPdf2DocxAdvanced. intros H.
  apply tryCatch_returns in H as [H | (? & ? & ? & ? & _ & H)]; [| done].
  apply bind_returns in H as (? & ? & ? & ? & _ & H).
  apply bind_returns in H as (? & ? & ? & ? & _ & H).
  by injection H.
Qed.

Lemma pdfParseAdvanced_returns (fs f : gmap str str) (p : str) (o : list str) :
  convertWithPdfParseAdvanced pdfParseWithOptions pack writeError toUpperCase input output fs
  = (Returned p, o, f) -> p = output.
Proof.
  unfold convertWithPdfParseAdvanced. intros H.
  apply tryCatch_returns in H as [H | (? & ? & ? & ? & _ & H)]; [| done].
  apply bind_returns in H as (? & ? & ? & ? & _ & H).
  apply bind_returns in H as (? & ? & ? & ? & _ & H).
  apply bind_returns in H as (? & ? & ? & ? & _ & H).
  apply bind_returns in H as (? & ? & ? & ? & _ & H).
  by injection H.
Qed.

Lemma basicExtraction_returns (fs f : gmap str str) (p : str) (o : list str) :
  convertWithBasicExtraction pdfParse pack writeError input output fs
  = (Returned p, o, f) -> p = output.
Proof.
  unfold convertWithBasicExtraction. intros H.
  apply tryCatch_returns in H as [H | (? & ? & ? & ? & _ & H)]; [| done].
  apply bind_returns in H as (? & ? & ? & ? & _ & H).
  apply bind_returns in H as (? & ? & ? & ? & _ & H).
  apply bind_returns in H as (? & ? & ? & ? & _ & H).
  apply bind_returns in H as (? & ? & ? & ? & _ & H).
  by injection H.
Qed.

Lemma basicExtraction_throws (fs f : gmap str str) (e : str) (o : list str) :
  convertWithBasicExtraction pdfParse pack writeError input output fs = (Thrown e, o, f) ->
  exists reason, e = lit "Basic text extraction failed: " ++ reason.
Proof.
  unfold convertWithBasicExtraction. intros H.
  apply tryCatch_throws in H as (e0 & ? & ? & ? & _ & H & _).
  injection H as <- _ _. eauto.
Qed.

Lemma createDocxFromTextAdvanced_run (content : str) (fs : gmap str str) :
  createDocxFromTextAdvanced pack writeError content output fs
  = match sectionChildrenAdvanced content with
    | Thrown e => (Thrown (lit "Failed to create advanced DOCX: " ++ e), [], fs)
    | Returned children =>
        match pack children with
        | Thrown e =>
            (Thrown (lit "Failed to create advanced DOCX: " ++ e), [], fs)
        | Returned buffer =>
            match writeError output fs with
            | Some e =>
                (Thrown (lit "Failed to create advanced DOCX: " ++ e), [], fs)
            | None => (Returned output, [], <[output := buffer]> fs)
            end
        end
    end.
Proof.
  unfold createDocxFromTextAdvanced, tryCatch, mbind, M_bind, bind, pure,
    writeFile, throw, ret.
  destruct (sectionChildrenAdvanced content) as [children | e]; [| done].
  destruct (pack children) as [buffer | e]; [| done].
  by destruct (writeError output fs).
Qed.

Lemma pdfParseAdvanced_run (fs : gmap str str) (data text : str) :
  fs !! input = Some data -> pdfParseWithOptions data = Returned text ->
  convertWithPdfParseAdvanced pdfParseWithOptions pack writeError toUpperCase input output fs
  = match createDocxFromTextAdvanced pack writeError
            (AdvancedPdfToWordConverter.processTextWithAdvancedFormatting
               toUpperCase text) output fs with
    | (Returned _, o, f) =>
        (Returned output,
         o ++ [lit "Enhanced pdf-parse conversion successful"], f)
    | (Thrown e, o, f) =>
        (Thrown (lit "Enhanced pdf-parse conversion failed: " ++ e), o, f)
    end.
Proof.
  intros Hd Ht.
  unfold convertWithPdfParseAdvanced, tryCatch, mbind, M_bind, bind, readFile,
    pure, consoleLog, throw, ret.
  rewrite Hd, Ht.
  destruct (createDocxFromTextAdvanced _ _ _ _) as [[[p | e] o] f];
    by rewrite ?app_nil_r.
Qed.

End AdvancedStrategyFacts.

Section AdvancedProperties.

Import PdfToWordConverter AdvancedStrategies.

(** The advanced LibreOffice strategy.  When it returns, the file at
    the output path is the file a command left at the expected [.docx]
    path or, when there is none, at the expected [.rtf] path: in that
    case the output, whatever its name, holds the RTF file.  An input
    path without [.pdf] is its own expected path: the uploaded PDF is
    moved to the output path and reported as converted. *)
Theorem advanced_libre_office_moves_the_expected_file
    (dirname : str -> str)
    (execAsync : str -> gmap str str -> outcome (str * str) * gmap str str)
    (input output : str) :
  (forall fs p lines fs',
     convertWithLibreOfficeAdvanced dirname execAsync input output fs
     = (Returned p, lines, fs') ->
     p = output /\
     exists command f ext c,
       command ∈ conversionMethods dirname input output /\
       ext ∈ [lit ".docx"; lit ".rtf"] /\
       replaceFirst (lit ".pdf") ext input <> output /\
       (execAsync command f).2 !! replaceFirst (lit ".pdf") ext input = Some c /\
       (ext = lit ".rtf" ->
        (execAsync command f).2 !! replaceFirst (lit ".pdf") (lit ".docx") input
        = None) /\
       fs' = <[output := c]>
               (delete (replaceFirst (lit ".pdf") ext input)
                       (execAsync command f).2)) /\
  (forall fs command more io g c,
     includes (lit ".pdf") input = false -> input <> [] -> input <> output ->
     conversionMethods dirname input output = command :: more ->
     execAsync command fs = (Returned io, g) -> g !! input = Some c ->
     exists lines,
       convertWithLibreOfficeAdvanced dirname execAsync input output fs
       = (Returned output, lines, <[output := c]> (delete input g))).
Proof.
  split.
  - intros fs p lines fs' H. by apply advancedLoop_moved in H.
  - intros fs command more io g c Hpdf Hne Hio Hcm Hex Hc.
    unfold convertWithLibreOfficeAdvanced. rewrite Hcm. cbn [libreOfficeLoop].
    destruct (advancedTry_moves_input execAsync input output 0 command fs g io c)
      as (lines & Htry); [done | done | done | done | done |].
    eexists. eapply bind_eval; [apply tryCatch_eval, Htry | reflexivity].
Qed.

(** The enhanced pdf-parse strategy fails on marked-up text.  When
    the text of the PDF has a line that the classifier takes for a
    heading, a sub-heading, a numbered item, a bullet item or an
    emphasised line, the advanced assembler throws the ReferenceError,
    and the strategy throws with its two prefixes and leaves the files
    as they were. *)
Theorem advanced_parse_fails_on_marked_lines
    (pdfParseWithOptions : str -> outcome str)
    (pack : list (option Paragraph) -> outcome str)
    (writeError : str -> gmap str str -> option str)
    (toUpperCase : str -> str) (input output : str)
    (fs : gmap str str) (data text raw : str) :
  fs !! input = Some data ->
  pdfParseWithOptions data = Returned text ->
  text <> [] ->
  raw ∈ splitOn "010" (AdvancedPdfToWordConverter.normalizeText text) ->
  AdvancedPdfToWordConverter.classify toUpperCase (trim raw)
    ∈ [AdvancedPdfToWordConverter.Heading; AdvancedPdfToWordConverter.SubHeading;
       AdvancedPdfToWordConverter.NumberedItem;
       AdvancedPdfToWordConverter.BulletItem;
       AdvancedPdfToWordConverter.Emphasized] ->
  sectionChildrenAdvanced
    (AdvancedPdfToWordConverter.processTextWithAdvancedFormatting toUpperCase text)
  = Thrown (lit "AlignmentType is not defined") /\
  convertWithPdfParseAdvanced pdfParseWithOptions pack writeError toUpperCase input output fs
  = (Thrown (lit "Enhanced pdf-parse conversion failed: "
               ++ lit "Failed to create advanced DOCX: "
               ++ lit "AlignmentType is not defined"), [], fs).
Proof.
  intros Hd Ht Hne Hraw Hk.
  pose proof (advanced_children_throw toUpperCase text raw Hne Hraw Hk) as Hc.
  split; [done |].
  rewrite (pdfParseAdvanced_run _ _ _ _ _ _ _ _ _ Hd Ht).
  by rewrite createDocxFromTextAdvanced_run, Hc.
Qed.

(** The advanced cascade.  A run that returns returns the requested
    output path; a run that throws has tried all four strategies and
    throws the error of basic extraction, which starts with its
    prefix. *)
Theorem advanced_cascade_outcome
    (dirname : str -> str)
    (execAsync : str -> gmap str str -> outcome (str * str) * gmap str str)
    (pdf2docx : str -> str -> gmap str str -> outcome unit * gmap str str)
    (pdfParseWithOptions pdfParse : str -> outcome str)
    (pack : list (option Paragraph) -> outcome str)
    (writeError : str -> gmap str str -> option str)
    (toUpperCase : str -> str) (input output : str)
    (fs fs' : gmap str str) (r : outcome str) (trace : list event) :
  AdvancedStrategies.convertPdfToWord dirname execAsync pdf2docx
    pdfParseWithOptions pdfParse pack writeError toUpperCase input output fs
  = (r, trace, fs') ->
  (forall p, r = Returned p -> p = output) /\
  (forall e, r = Thrown e ->
     invocations trace = [1; 2; 3; 4] /\
     exists reason, e = lit "Basic text extraction failed: " ++ reason).
Proof.
  intros H. unfold AdvancedStrategies.convertPdfToWord, AdvancedStrategies.cascade in H.
  apply chain_result in H
    as [(p & o & H1 & -> & ->)
       | [(e1 & o1 & f1 & p & o & H1 & H2 & -> & ->)
         | [(e1 & o1 & f1 & e2 & o2 & f2 & p & o & H1 & H2 & H3 & -> & ->)
           | (e1 & o1 & f1 & e2 & o2 & f2 & e3 & o3 & f3 & o4
              & H1 & H2 & H3 & H4 & ->)]]];
    apply run_inv in H1 as (l1 & H1 & ->);
    try (apply run_inv in H2 as (l2 & H2 & ->));
    try (apply run_inv in H3 as (l3 & H3 & ->));
    try (apply run_inv in H4 as (l4 & H4 & ->)).
  - split; [| done]. intros ? [= <-]. by apply advancedLoop_moved in H1 as [? _].
  - split; [| done]. intros ? [= <-]. by eapply pdf2docxAdvanced_returns.
  - split; [| done]. intros ? [= <-]. by eapply pdfParseAdvanced_returns.
  - split.
    + intros p ->. by eapply basicExtraction_returns.
    + intros e ->. split; [| by eapply basicExtraction_throws].
      repeat first [rewrite invocations_cons_line | rewrite invocations_cons_mark
                   | rewrite invocations_app | rewrite invocations_lines].
      done.
Qed.

End AdvancedProperties.

(** ** The conversion endpoint *)

Section EndpointFacts.

Import PdfToWordConverter Server.

Variable convertPdfToWord : str -> str -> M event str.
Variable inTempDir : str -> str.
Variable uploadedPdfs : gmap str PdfUpload.

Lemma getUpload_Some (fileId : JsValue) (pdfFile : PdfUpload) :
  getUpload uploadedPdfs fileId = Some pdfFile ->
  exists s, fileId = JStr s /\ uploadedPdfs !! s = Some pdfFile.
Proof. destruct fileId; try done. simpl. eauto. Qed.

Lemma statSize_inv {E : Type} (path : str) (fs fs' : gmap str str)
    (size : nat) (out : list E) :
  statSize path fs = (Returned size, out, fs') ->
  fs' = fs /\ exists content, fs !! path = Some content /\ size = length content.
Proof.
  unfold statSize. destruct (fs !! path) as [content |]; [| done].
  intros [= <- _ <-]. eauto.
Qed.

Lemma statSize_run {E : Type} (path content : str) (fs : gmap str str) :
  fs !! path = Some content ->
  statSize (E := E) path fs = (Returned (length content), [], fs).
Proof. intros H. unfold statSize. by rewrite H. Qed.

Lemma run_returns {A : Type} (m : M str A) (fs fs' : gmap str str) (a : A)
    (out : list event) :
  run m fs = (Returned a, out, fs') -> exists o, m fs = (Returned a, o, fs').
Proof.
  unfold run. destruct (m fs) as [[r o] f]. intros [= -> _ ->]. eauto.
Qed.

(** a success response of the handler *)
Lemma handler_success (fileId : JsValue) (fs fs' : gmap str str)
    (url name msg : str) (trace : list event) :
  convertPdfToWordHandler convertPdfToWord inTempDir uploadedPdfs fileId fs
  = (Returned (Success url name msg), trace, fs') ->
  exists s pdfFile content,
    fileId = JStr s /\ uploadedPdfs !! s = Some pdfFile /\
    name = lit "converted-" ++ s ++ lit ".docx" /\
    url = lit "/api/download/" ++ name /\
    fs' !! inTempDir name = Some content /\ content <> [].
Proof.
  unfold convertPdfToWordHandler.
  destruct (truthy fileId); [| done]. cbn [negb].
  destruct (getUpload uploadedPdfs fileId) as [pdfFile |] eqn:Hget; [| done].
  destruct (getUpload_Some _ _ Hget) as (s & -> & Hs). cbn [toString].
  intros H. apply tryCatch_returns in H as [H | (? & ? & ? & ? & _ & H)];
    [| done].
  apply bind_returns in H as (? & ? & f1 & ? & _ & H).
  apply bind_returns in H as (? & ? & f2 & ? & _ & H).
  apply bind_returns in H as (created & ? & f3 & ? & Hex & H).
  apply bind_returns in H as (? & ? & f4 & ? & Hcreated & H).
  apply bind_returns in H as (size & ? & f5 & ? & Hsize & H).
  apply bind_returns in H as (? & ? & f6 & ? & Hlog & H).
  apply bind_returns in H as (? & ? & f7 & ? & Hzero & H).
  apply bind_returns in H as (? & ? & f8 & ? & Hlog' & H).
  rewrite existsSync_run in Hex. injection Hex as _ _ <-.
  assert (f4 = f2) as ->.
  { destruct created; unfold ret, throw in Hcreated; by simplify_eq. }
  apply statSize_inv in Hsize as (-> & content & Hc & ->).
  apply run_returns in Hlog as (? & Hlog). rewrite consoleLog2_run in Hlog.
  apply run_returns in Hlog' as (? & Hlog'). rewrite consoleLog2_run in Hlog'.
  destruct (length content =? 0) eqn:Hlen; unfold ret, throw in Hzero; [done |].
  unfold ret in H. simplify_eq.
  exists s, pdfFile, content. split_and!; [done | done | done | done | done |].
  intros ->. done.
Qed.

(** the handler always answers *)
Lemma handler_answers (fileId : JsValue) (fs : gmap str str) :
  exists resp trace fs',
    convertPdfToWordHandler convertPdfToWord inTempDir uploadedPdfs fileId fs
    = (Returned resp, trace, fs').
Proof.
  unfold convertPdfToWordHandler.
  destruct (negb (truthy fileId)); [by eexists _, _, _ |].
  destruct (getUpload uploadedPdfs fileId) as [pdfFile |]; [| by eexists _, _, _].
  unfold tryCatch.
  match goal with
  | |- context [match ?m fs with _ => _ end] =>
      destruct (m fs) as [[[resp | e] o] f]
  end; by eexists _, _, _.
Qed.

(** the handler when the converter returns *)
Lemma handler_after_conversion (s : str) (pdfFile : PdfUpload)
    (fs f : gmap str str) (p : str) (o : list event) :
  s <> [] -> uploadedPdfs !! s = Some pdfFile ->
  convertPdfToWord (originalFile pdfFile)
    (inTempDir (lit "converted-" ++ s ++ lit ".docx")) fs = (Returned p, o, f) ->
  exists trace,
    convertPdfToWordHandler convertPdfToWord inTempDir uploadedPdfs (JStr s) fs
    = (Returned
         match f !! inTempDir (lit "converted-" ++ s ++ lit ".docx") with
         | None =>
             Failure 500 (lit "Failed to convert PDF to Word: "
                            ++ lit "Converted file was not created")
         | Some content =>
             if length content =? 0 then
               Failure 500 (lit "Failed to convert PDF to Word: "
                              ++ lit "Converted file is empty")
             else
               Success (lit "/api/download/" ++ lit "converted-" ++ s ++ lit ".docx")
                       (lit "converted-" ++ s ++ lit ".docx")
                       (lit "PDF converted to Word successfully.")
         end, trace, f).
Proof.
  intros Hs Hup Hconv. unfold convertPdfToWordHandler.
  assert (truthy (JStr s) = true) as -> by by destruct s.
  cbn [negb getUpload toString]. rewrite Hup. cbv zeta.
  destruct (f !! inTempDir (lit "converted-" ++ s ++ lit ".docx"))
    as [content |] eqn:Hc.
  - destruct (length content =? 0) eqn:Hlen.
    + eexists. eapply tryCatch_caught; [| reflexivity].
      eapply bind_eval; [reflexivity | cbv beta].
      eapply bind_eval; [exact Hconv | cbv beta].
      eapply bind_eval; [apply existsSync_run | cbv beta].
      rewrite bool_decide_eq_true_2 by (exists content; exact Hc).
      eapply bind_eval; [reflexivity | cbv beta].
      eapply bind_eval; [apply statSize_run; exact Hc | cbv beta].
      eapply bind_eval; [reflexivity | cbv beta].
      rewrite Hlen. eapply bind_throw. reflexivity.
    + eexists. eapply tryCatch_eval.
      eapply bind_eval; [reflexivity | cbv beta].
      eapply bind_eval; [exact Hconv | cbv beta].
      eapply bind_eval; [apply existsSync_run | cbv beta].
      rewrite bool_decide_eq_true_2 by (exists content; exact Hc).
      eapply bind_eval; [reflexivity | cbv beta].
      eapply bind_eval; [apply statSize_run; exact Hc | cbv beta].
      eapply bind_eval; [reflexivity | cbv beta].
      rewrite Hlen.
      eapply bind_eval; [reflexivity | cbv beta].
      eapply bind_eval; [reflexivity | cbv beta].
      reflexivity.
  - eexists. eapply tryCatch_caught; [| reflexivity].
    eapply bind_eval; [reflexivity | cbv beta].
    eapply bind_eval; [exact Hconv | cbv beta].
    eapply bind_eval; [apply existsSync_run | cbv beta].
    rewrite bool_decide_eq_false_2 by (apply eq_None_not_Some; exact Hc).
    eapply bind_throw. reflexivity.
Qed.

End EndpointFacts.

Section EndpointProperties.

Import PdfToWordConverter Server.

(** The conversion endpoint.  The handler always answers.  It answers
    with success only for the id of an uploaded PDF and only when a
    file that is not empty lies at the path its download URL names;
    when the converter returns but left no file, or an empty one, it
    answers 500 with the reason. *)
Theorem conversion_endpoint_checks_the_artifact
    (convertPdfToWord : str -> str -> M event str) (inTempDir : str -> str)
    (uploadedPdfs : gmap str PdfUpload) :
  (forall fileId fs, exists resp trace fs',
     convertPdfToWordHandler convertPdfToWord inTempDir uploadedPdfs fileId fs
     = (Returned resp, trace, fs')) /\
  (forall fileId fs fs' url name msg trace,
     convertPdfToWordHandler convertPdfToWord inTempDir uploadedPdfs fileId fs
     = (Returned (Success url name msg), trace, fs') ->
     exists s pdfFile content,
       fileId = JStr s /\ uploadedPdfs !! s = Some pdfFile /\
       name = lit "converted-" ++ s ++ lit ".docx" /\
       url = lit "/api/download/" ++ name /\
       fs' !! inTempDir name = Some content /\ content <> []) /\
  (forall s pdfFile fs f p o,
     s <> [] -> uploadedPdfs !! s = Some pdfFile ->
     convertPdfToWord (originalFile pdfFile)
       (inTempDir (lit "converted-" ++ s ++ lit ".docx")) fs = (Returned p, o, f) ->
     exists trace,
       convertPdfToWordHandler convertPdfToWord inTempDir uploadedPdfs (JStr s) fs
       = (Returned
            match f !! inTempDir (lit "converted-" ++ s ++ lit ".docx") with
            | None =>
                Failure 500 (lit "Failed to convert PDF to Word: "
                               ++ lit "Converted file was not created")
            | Some content =>
                if length content =? 0 then
                  Failure 500 (lit "Failed to convert PDF to Word: "
                                 ++ lit "Converted file is empty")
                else
                  Success (lit "/api/download/" ++ lit "converted-" ++ s
                             ++ lit ".docx")
                          (lit "converted-" ++ s ++ lit ".docx")
                          (lit "PDF converted to Word successfully.")
            end, trace, f)).
Proof.
  split_and!.
  - apply handler_answers.
  - intros fileId fs fs' url name msg trace. apply handler_success.
  - intros s pdfFile fs f p o. apply handler_after_conversion.
Qed.

End EndpointProperties.

(** ** Building the document *)

Section CreateDocxFacts.

Import PdfToWordConverter AdvancedStrategies.





End CreateDocxFacts.

Section CreateDocxProperties.

Import PdfToWordConverter AdvancedStrategies.


End CreateDocxProperties.

(** ** The order of the keys *)

Section KeyOrderFacts.

Lemma getProp_elem (m : ValueMap) (k : str) (v : JsValue) :
  NoDup (keys m) -> (k, v) ∈ m -> getProp m k = v.
Proof.
  induction m as [| [k' v'] m IH]; intros Hnd Hin; [by apply elem_of_nil in Hin |].
  apply NoDup_cons in Hnd as [Hk' Hnd]. cbn [getProp]. unfold str_eqb.
  apply elem_of_cons in Hin as [[= -> ->] | Hin].
  - by rewrite bool_decide_eq_true_2.
  - rewrite bool_decide_eq_false_2; [by apply IH |].
    intros ->. apply Hk'. apply list_elem_of_fmap. by exists (k, v).
Qed.

Lemma getProp_absent (m : ValueMap) (k : str) :
  k ∉ keys m -> getProp m k = JUndefined.
Proof.
  induction m as [| [k' v'] m IH]; intros Hk; [done |].
  cbn [getProp]. unfold str_eqb.
  rewrite bool_decide_eq_false_2.
  - apply IH. intros Hin. apply Hk. by right.
  - intros ->. apply Hk. by left.
Qed.

Lemma getProp_Permutation (m m' : ValueMap) (k : str) :
  NoDup (keys m) -> m' ≡ₚ m -> getProp m' k = getProp m k.
Proof.
  intros Hnd Hp.
  assert (keys m' ≡ₚ keys m) as Hk by (unfold keys; by rewrite Hp).
  assert (NoDup (keys m')) as Hnd' by by rewrite Hk.
  destruct (decide (k ∈ keys m)) as [Hin | Hout].
  - apply list_elem_of_fmap in Hin as ([k0 v] & -> & Hin). simpl.
    rewrite (getProp_elem m k0 v Hnd Hin).
    apply getProp_elem; [done | by rewrite Hp].
  - rewrite (getProp_absent m k Hout).
    apply getProp_absent. by rewrite Hk.
Qed.

End KeyOrderFacts.

Section KeyOrderProperties.

(** The order of the keys.  On valid placeholder text, for keys that
    the pattern takes literally and replacement texts that hold neither
    [$] nor [{], two ValueMaps with the same entries in a different
    order give the same result. *)
Theorem substitution_ignores_key_order
    (variables variables' : ValueMap) (items : list item) :
  Forall strictItem items ->
  Forall plainName (keys variables) ->
  Forall (fun k => inert (replacement variables k)) (keys variables) ->
  NoDup (keys variables) ->
  variables' ≡ₚ variables ->
  replaceVariables (render items) variables'
  = replaceVariables (render items) variables.
Proof.
  intros Hitems Hks Hv Hnd Hp.
  assert (keys variables' ≡ₚ keys variables) as Hk
    by (unfold keys; by rewrite Hp).
  assert (forall k, replacement variables' k = replacement variables k) as Hr.
  { intros k. unfold replacement. by rewrite (getProp_Permutation _ _ k Hnd Hp). }
  assert (Forall plainName (keys variables')) as Hks' by by rewrite Hk.
  assert (Forall (fun k => inert (replacement variables' k)) (keys variables'))
    as Hv'.
  { rewrite Hk. eapply Forall_impl; [exact Hv |]. intros k Hi. by rewrite Hr. }
  rewrite (replaceVariables_valid variables' items Hitems Hks' Hv').
  rewrite (replaceVariables_valid variables items Hitems Hks Hv).
  do 3 f_equal. apply list_fmap_ext. intros _ [s | w1 n w2] _; [done |].
  cbn [substItem]. rewrite Hr.
  by rewrite (bool_decide_ext (n ∈ keys variables') (n ∈ keys variables))
    by by rewrite Hk.
Qed.

End KeyOrderProperties.

Section MoreInstances.

Import PdfToWordConverter AdvancedStrategies Scenario Examples Server.


Lemma substitution_ignores_key_order_witness :
  replaceVariables
    (render [Lit (lit "Dear "); Ph [] (lit "Name") []; Lit (lit ", see ");
             Ph [] (lit "Place") []])
    [(lit "Place", JStr (lit "Room 4")); (lit "Name", JStr (lit "Alice"))]
  = replaceVariables
      (render [Lit (lit "Dear "); Ph [] (lit "Name") []; Lit (lit ", see ");
               Ph [] (lit "Place") []])
      [(lit "Name", JStr (lit "Alice")); (lit "Place", JStr (lit "Room 4"))].
Proof.
  apply substitution_ignores_key_order; [by_evaluation .. | apply perm_swap].
Defined.

Lemma advanced_libre_office_moves_the_expected_file_witness :
  exists lines,
    convertWithLibreOfficeAdvanced tmpDir sofficeConverts
      (lit "/tmp/scan.PDF") outputDocx {[lit "/tmp/scan.PDF" := lit "%PDF"]}
    = (Returned outputDocx, lines,
       <[outputDocx := lit "%PDF"]>
         (delete (lit "/tmp/scan.PDF")
            (<[lit "/tmp/scan.docx" := lit "PK"]>
               {[lit "/tmp/scan.PDF" := lit "%PDF"]}))).
Proof.
  eapply (proj2 (advanced_libre_office_moves_the_expected_file tmpDir
                   sofficeConverts (lit "/tmp/scan.PDF") outputDocx));
    [by_evaluation | by_evaluation | by_evaluation | reflexivity | reflexivity
    | by_evaluation].
Defined.

Lemma advanced_parse_fails_on_marked_lines_witness :
  sectionChildrenAdvanced
    (AdvancedPdfToWordConverter.processTextWithAdvancedFormatting
       AdvancedPdfToWordConverter.asciiUpper (lit "Introduction"))
  = Thrown (lit "AlignmentType is not defined") /\
  convertWithPdfParseAdvanced pdfParseIntroduction packBytes writable
    AdvancedPdfToWordConverter.asciiUpper inputPdf outputDocx
    {[inputPdf := lit "%PDF"]}
  = (Thrown (lit "Enhanced pdf-parse conversion failed: "
               ++ lit "Failed to create advanced DOCX: "
               ++ lit "AlignmentType is not defined"), [],
     {[inputPdf := lit "%PDF"]}).
Proof.
  apply (advanced_parse_fails_on_marked_lines pdfParseIntroduction packBytes
           writable AdvancedPdfToWordConverter.asciiUpper inputPdf outputDocx
           {[inputPdf := lit "%PDF"]} (lit "%PDF") (lit "Introduction")
           (lit "Introduction"));
    [reflexivity | reflexivity | by_evaluation | by_evaluation | by_evaluation].
Defined.

Lemma advanced_cascade_outcome_witness :
  let result :=
    AdvancedStrategies.convertPdfToWord tmpDir sofficeAbsent pdf2docxMissing
      pdfParseIntroduction pdfParseFails packBytes writable
      AdvancedPdfToWordConverter.asciiUpper inputPdf outputDocx
      {[inputPdf := lit "%PDF"]} in
  (forall p, result.1.1 = Returned p -> p = outputDocx) /\
  (forall e, result.1.1 = Thrown e ->
     invocations result.1.2 = [1; 2; 3; 4] /\
     exists reason, e = lit "Basic text extraction failed: " ++ reason).
Proof.
  intros result.
  apply (advanced_cascade_outcome tmpDir sofficeAbsent pdf2docxMissing
           pdfParseIntroduction pdfParseFails packBytes writable
           AdvancedPdfToWordConverter.asciiUpper inputPdf outputDocx
           {[inputPdf := lit "%PDF"]} result.2 result.1.1 result.1.2).
  reflexivity.
Defined.

Lemma conversion_endpoint_checks_the_artifact_witness :
  exists trace,
    convertPdfToWordHandler (converterWriting []) inTmp uploaded
      (JStr (lit "f1")) ∅
    = (Returned
         match (<[inTmp (lit "converted-" ++ lit "f1" ++ lit ".docx") := []]> ∅
                  : gmap str str)
                 !! inTmp (lit "converted-" ++ lit "f1" ++ lit ".docx") with
         | None =>
             Failure 500 (lit "Failed to convert PDF to Word: "
                            ++ lit "Converted file was not created")
         | Some content =>
             if length content =? 0 then
               Failure 500 (lit "Failed to convert PDF to Word: "
                              ++ lit "Converted file is empty")
             else
               Success (lit "/api/download/" ++ lit "converted-" ++ lit "f1"
                          ++ lit ".docx")
                       (lit "converted-" ++ lit "f1" ++ lit ".docx")
                       (lit "PDF converted to Word successfully.")
         end, trace,
       <[inTmp (lit "converted-" ++ lit "f1" ++ lit ".docx") := []]> ∅).
Proof.
  eapply (proj2 (proj2 (conversion_endpoint_checks_the_artifact
                          (converterWriting []) inTmp uploaded))
            (lit "f1")); [by_evaluation | reflexivity | reflexivity].
Defined.

End MoreInstances.

(** ** Blank text *)

Section BlankTextFacts.

Import PdfToWordConverter.






End BlankTextFacts.

Section BlankTextProperties.

Import PdfToWordConverter.


End BlankTextProperties.

(** ** Dollar patterns in values *)

Section DollarFacts.

Lemma scan_literal (k : str) (u bef : str) :
  without "{" u -> scan (nameRegex k) bef u 0 = Plain <$> u.
Proof.
  intros Hu. rewrite <- (app_nil_r u) at 1. rewrite scan_quiet.
  - rewrite scan_nil by apply matchHere_empty. apply app_nil_r.
  - intros v1 v2 E Hv. apply no_opening. by eapply lit_quiet.
Qed.

(** the scan of a literal stretch, one placeholder of the key, and a
    literal stretch *)
Lemma scan_one_placeholder (k pre post w1 w2 : str) :
  validName k -> without "{" pre -> without "{" post ->
  blank w1 -> blank w2 ->
  scan (nameRegex k) [] (pre ++ renderItem (Ph w1 k w2) ++ post) 0
  = (Plain <$> pre)
      ++ Found (Hit (renderItem (Ph w1 k w2)) None pre post)
      :: (Plain <$> post).
Proof.
  intros (Hne & Ht & Hk) Hpre Hpost H1 H2.
  rewrite scan_quiet.
  - f_equal. rewrite app_nil_l.
    rewrite (scan_hit _ (renderItem (Ph w1 k w2)) None pre post).
    + f_equal. by apply scan_literal.
    + apply ph_nonempty.
    + by apply matchHere_name_hit.
  - intros v1 v2 E Hv. apply no_opening. by apply (lit_quiet pre _ v1 v2).
Qed.

End DollarFacts.

Section DollarProperties.

(** Dollar patterns.  The value of a key is handed to [replace] as a
    replacement pattern: in a text with one placeholder of the key
    between literal stretches, the placeholder is replaced by the
    expansion of the value, in which [$$] stands for one dollar sign,
    [$&] for the placeholder itself, and [$`] and [$'] for the text
    before and after it. *)
Theorem dollar_patterns_are_expanded (k v pre post w1 w2 : str) :
  plainName k -> without "{" pre -> without "{" post ->
  blank w1 -> blank w2 -> v <> [] ->
  replaceVariables (pre ++ renderItem (Ph w1 k w2) ++ post) [(k, JStr v)]
  = Some (Returned
      (pre ++ getSubstitution (Hit (renderItem (Ph w1 k w2)) None pre post) v
           ++ post))
  /\ (forall h, getSubstitution h (lit "$$") = lit "$")
  /\ (forall h, getSubstitution h (lit "$&") = matched h)
  /\ (forall h, getSubstitution h (lit "$`") = before h)
  /\ (forall h, getSubstitution h (lit "$'") = after h).
Proof.
  intros [Hk Hplain] Hpre Hpost H1 H2 Hv. split_and!.
  - unfold replaceVariables. cbn [keys fmap list_fmap fst foldl].
    unfold replaceOne. rewrite compile_plain by done.
    do 2 f_equal. cbn [getProp]. unfold str_eqb.
    rewrite bool_decide_eq_true_2 by done.
    assert (toString (jsOr (JStr v) (JStr [])) = v) as -> by by destruct v.
    unfold replaceAll. rewrite scan_one_placeholder by done.
    rewrite bind_app, bind_cons, !emit_plain. done.
  - done.
  - intros h. simpl. apply app_nil_r.
  - intros h. simpl. apply app_nil_r.
  - intros h. simpl. apply app_nil_r.
Qed.

End DollarProperties.

Section LastInstances.

Import PdfToWordConverter Scenario Examples.


Lemma dollar_patterns_are_expanded_witness :
  replaceVariables
    (lit "Fee: " ++ renderItem (Ph [] (lit "Amount") []) ++ lit " due")
    [(lit "Amount", JStr (lit "$$5"))]
  = Some (Returned
      (lit "Fee: "
         ++ getSubstitution
              (Hit (renderItem (Ph [] (lit "Amount") [])) None (lit "Fee: ")
                   (lit " due"))
              (lit "$$5")
         ++ lit " due"))
  /\ (forall h, getSubstitution h (lit "$$") = lit "$")
  /\ (forall h, getSubstitution h (lit "$&") = matched h)
  /\ (forall h, getSubstitution h (lit "$`") = before h)
  /\ (forall h, getSubstitution h (lit "$'") = after h).
Proof. apply dollar_patterns_are_expanded; by_evaluation. Defined.

End LastInstances.
